(** * Expense tracker: month rollover, aggregation and summary dispatch

    A shallow embedding of [src/tracker/src/App.jsx].  The file first models
    the parts of the JavaScript platform the component relies on (strings,
    numbers, dates, [localStorage], exceptions), then the component itself
    (module-level helpers, the state cells of [App], its effects and its event
    handlers), and finally states and proves the properties of the
    specification against that model.

    Conventions.
    - A JavaScript string is a [string] (its UTF-8 bytes).  Every character
      the code compares with (["-"], digits) is ASCII, so prefix
      tests, [split] and [padStart] agree with their UTF-16 counterparts.
      White space is the WhiteSpace and LineTerminator of ECMAScript, the
      characters beyond ASCII recognised by their UTF-8 bytes.
    - A JavaScript number is a binary64 [float].
    - A [Date] is its time value: milliseconds since the epoch, a [Z].
    - A handler reads the clock once: the calls of [Date.now()] and
      [new Date()] within one handler return the same instant.
    - An exception is an explicit [Throw] outcome of a small
      state-and-exception monad over the [World] the component runs in.
    - Of the markup of the view the form is modelled, whose amount field
      decides which submissions reach [addExpense]; the two helpers that
      feed the view, the sorted list of the month and the options of the
      month selector, are modelled in the last part of the file. *)

From Stdlib Require Import ZArith List Bool Ascii String Decimal DecimalString Lia.
From Stdlib Require Import PrimFloat SpecFloat FloatOps.
From Stdlib Require DecimalPos DecimalZ.
From Stdlib Require Import Permutation Sorted.
From Stdlib Require FloatAxioms.
From stdpp Require Import base gmap strings.
Import ListNotations.

Local Open Scope string_scope.
Local Open Scope Z_scope.

(* ===================================================================== *)
(** ** JavaScript strings *)
(* ===================================================================== *)

Module JSString.

(** [s.startsWith(p)] *)
Definition startsWith (s p : string) : bool := String.prefix p s.

(** [s.padStart(n, c)] for a one-character pad string [c]. *)
Definition padStart (s : string) (n : nat) (c : ascii) : string :=
  string_of_list_ascii (repeat c (n - String.length s)) +:+ s.

(** [s.split(sep)] for a one-character separator: never empty. *)
Fixpoint split (sep : ascii) (s : string) : list string :=
  match s with
  | EmptyString => [EmptyString]
  | String c r =>
      if Ascii.eqb c sep then EmptyString :: split sep r
      else match split sep r with
           | h :: t => String c h :: t
           | [] => [String c EmptyString]
           end
  end.

(** WhiteSpace and LineTerminator of ECMAScript, by code point: TAB, LF,
    VT, FF, CR, SP, NBSP, the other space separators of Unicode, LS, PS
    and the byte order mark. *)
Definition isWhiteSpace (cp : N) : bool :=
  ((9 <=? cp) && (cp <=? 13) || (cp =? 32) || (cp =? 160) || (cp =? 5760)
   || (8192 <=? cp) && (cp <=? 8202) || (cp =? 8232) || (cp =? 8233)
   || (cp =? 8239) || (cp =? 8287) || (cp =? 12288) || (cp =? 65279))%N.

(** The code point that one, two or three bytes encode in UTF-8 ([None]
    for any other sequence; no white space takes four bytes). *)
Definition codePoint (bytes : list ascii) : option N :=
  let cont (b : N) : bool := ((128 <=? b) && (b <=? 191))%N in
  match map N_of_ascii bytes with
  | [a] => if (a <? 128)%N then Some a else None
  | [a; b] =>
      if (194 <=? a)%N && (a <=? 223)%N && cont b
      then Some ((a - 192) * 64 + (b - 128))%N else None
  | [a; b; c] =>
      if (224 <=? a)%N && (a <=? 239)%N && cont b && cont c
      then Some ((a - 224) * 4096 + (b - 128) * 64 + (c - 128))%N else None
  | _ => None
  end.

Definition whiteSpaceBytes (bytes : list ascii) : bool :=
  match codePoint bytes with
  | Some cp => isWhiteSpace cp
  | None => false
  end.

(** Drops the white space characters at the head of [l].  With [forward]
    the list is the text itself; without, it is the text reversed, where
    the bytes of a character come last byte first. *)
Fixpoint dropWhiteSpace (forward : bool) (l : list ascii) : list ascii :=
  let char (bytes : list ascii) := if forward then bytes else rev bytes in
  match l with
  | [] => []
  | a :: r =>
      if whiteSpaceBytes [a] then dropWhiteSpace forward r
      else
        match r with
        | [] => l
        | b :: r2 =>
            if whiteSpaceBytes (char [a; b]) then dropWhiteSpace forward r2
            else
              match r2 with
              | [] => l
              | c :: r3 =>
                  if whiteSpaceBytes (char [a; b; c])
                  then dropWhiteSpace forward r3
                  else l
              end
        end
  end.

Definition trimStart (s : string) : string :=
  string_of_list_ascii (dropWhiteSpace true (list_ascii_of_string s)).

Definition trimEnd (s : string) : string :=
  string_of_list_ascii
    (rev (dropWhiteSpace false (rev (list_ascii_of_string s)))).

(** [s.trim()] *)
Definition trim (s : string) : string := trimEnd (trimStart s).

(** [String(n)] for an integral number [n] (no exponent form is needed
    below 1e21, and the integers printed here are years, months and
    millisecond counts). *)
Definition ofInteger (n : Z) : string := NilZero.string_of_int (Z.to_int n).

(** A string is truthy when it is not empty. *)
Definition truthy (s : string) : bool := negb (String.eqb s EmptyString).

(** [haystack.includes(needle)] *)
Fixpoint includes (haystack needle : string) : bool :=
  String.prefix needle haystack
  || match haystack with
     | EmptyString => false
     | String _ r => includes r needle
     end.

End JSString.

(* ===================================================================== *)
(** ** JavaScript numbers and values *)
(* ===================================================================== *)

Module JSNumber.

(** The binary64 value nearest to [±n/d] (ties to even), as
    StringToNumber rounds the mathematical value of a literal. *)
Definition ofRatio (neg : bool) (n : Z) (d : positive) : float :=
  match n with
  | Zpos p => SF2Prim (SFdiv prec emax (S754_finite neg p 0) (S754_finite false d 0))
  | _ => if neg then neg_zero else zero
  end.

(** [±m * 10^k] *)
Definition ofDecimal (neg : bool) (m k : Z) : float :=
  if 0 <=? k then ofRatio neg (m * 10 ^ k) 1
  else ofRatio neg m (Z.to_pos (10 ^ (- k))).

Definition decDigit (c : ascii) : option Z :=
  let n := Z.of_N (N_of_ascii c) in
  if (48 <=? n) && (n <=? 57) then Some (n - 48) else None.

Definition hexDigit (c : ascii) : option Z :=
  let n := Z.of_N (N_of_ascii c) in
  if (48 <=? n) && (n <=? 57) then Some (n - 48)
  else if (97 <=? n) && (n <=? 102) then Some (n - 87)
  else if (65 <=? n) && (n <=? 70) then Some (n - 55)
  else None.

Definition octDigit (c : ascii) : option Z :=
  let n := Z.of_N (N_of_ascii c) in
  if (48 <=? n) && (n <=? 55) then Some (n - 48) else None.

Definition binDigit (c : ascii) : option Z :=
  let n := Z.of_N (N_of_ascii c) in
  if (48 <=? n) && (n <=? 49) then Some (n - 48) else None.

(** Reads the longest run of digits at the head of [s]: the value
    accumulated onto [acc], the number of digits read, and the rest. *)
Fixpoint scanDigits (dv : ascii -> option Z) (radix : Z) (s : string)
         (acc : Z) (n : Z) : Z * Z * string :=
  match s with
  | EmptyString => (acc, n, s)
  | String c r =>
      match dv c with
      | Some d => scanDigits dv radix r (acc * radix + d) (n + 1)
      | None => (acc, n, s)
      end
  end.

(** NonDecimalIntegerLiteral after its [0x], [0o] or [0b] prefix. *)
Definition parseRadix (dv : ascii -> option Z) (radix : Z) (s : string) : float :=
  let '(v, n, rest) := scanDigits dv radix s 0 0 in
  if (0 <? n) && String.eqb rest EmptyString then ofRatio false v 1 else nan.

(** SignedInteger of an ExponentPart, which must end the literal. *)
Definition parseExponent (s : string) : option Z :=
  let '(neg, s1) :=
    match s with
    | String "+"%char r => (false, r)
    | String "-"%char r => (true, r)
    | _ => (false, s)
    end in
  let '(v, n, rest) := scanDigits decDigit 10 s1 0 0 in
  if (0 <? n) && String.eqb rest EmptyString
  then Some (if neg then - v else v) else None.

(** StrUnsignedDecimalLiteral, with the sign already read. *)
Definition parseUnsignedDecimal (neg : bool) (s : string) : float :=
  if String.eqb s "Infinity" then (if neg then neg_infinity else infinity)
  else
    let '(ip, ni, s1) := scanDigits decDigit 10 s 0 0 in
    let '(m, nf, s2) :=
      match s1 with
      | String "."%char r => scanDigits decDigit 10 r ip 0
      | _ => (ip, 0, s1)
      end in
    if ni + nf =? 0 then nan
    else
      let oe :=
        match s2 with
        | EmptyString => Some 0
        | String c r =>
            if Ascii.eqb c "e" || Ascii.eqb c "E" then parseExponent r else None
        end in
      match oe with
      | Some e => ofDecimal neg m (e - nf)
      | None => nan
      end.

(** StringToNumber: [Number(s)] for a string [s]. *)
Definition ofString (s : string) : float :=
  let t := JSString.trim s in
  match t with
  | EmptyString => zero
  | String "0"%char (String c r) =>
      if Ascii.eqb c "x" || Ascii.eqb c "X" then parseRadix hexDigit 16 r
      else if Ascii.eqb c "o" || Ascii.eqb c "O" then parseRadix octDigit 8 r
      else if Ascii.eqb c "b" || Ascii.eqb c "B" then parseRadix binDigit 2 r
      else parseUnsignedDecimal false t
  | String "+"%char r => parseUnsignedDecimal false r
  | String "-"%char r => parseUnsignedDecimal true r
  | _ => parseUnsignedDecimal false t
  end.

(** ToBoolean of a number: false for [+0], [-0] and [NaN]. *)
Definition truthy (x : float) : bool := negb (is_zero x || is_nan x).

(** A number that is neither [NaN] nor an infinity. *)
Definition isFinite (x : float) : bool :=
  match Prim2SF x with
  | S754_zero _ | S754_finite _ _ _ => true
  | S754_infinity _ | S754_nan => false
  end.

(** *** [toLocaleString("en-US", {minimumFractionDigits: fd,
        maximumFractionDigits: fd})] *)

(** Digits of an integer part, grouped in threes from the right;
    [l] is the reversed digit list and [k] counts the digits since the
    last separator. *)
Fixpoint groupRev (l : list ascii) (k : nat) : list ascii :=
  match l with
  | [] => []
  | c :: r =>
      match k with
      | 3%nat => ","%char :: c :: groupRev r 1
      | _ => c :: groupRev r (S k)
      end
  end.

Definition group3 (digits : string) : string :=
  string_of_list_ascii (rev (groupRev (rev (list_ascii_of_string digits)) 0)).

(** The digits of a number.  The locale printer starts, as
    [Number.prototype.toString] does, from the shortest decimal that reads
    back as the number: of the decimals [g * 10^-p] that round to
    [x = m * 2^e] (to nearest, a tie to the even significand), the one on
    the coarsest grid [10^-p], and there the one nearest to [x].

    [x * 10^p] is [m * gridUnit e p / gridDen e p]. *)
Definition gridUnit (e p : Z) : Z := 2 ^ Z.max 0 e * 10 ^ Z.max 0 p.
Definition gridDen (e p : Z) : Z := 2 ^ Z.max 0 (- e) * 10 ^ Z.max 0 (- p).

(** [g * 10^-p] lies in the rounding interval of [m * 2^e]: no farther
    than half the gap to the next number above and below, the two ends
    included when [m] is even.  The gap below is half as wide when [m]
    is the least significand of a normal number.  All quantities are
    multiplied by [4 * gridDen e p]. *)
Definition roundsTo (m : positive) (e p g : Z) : bool :=
  let u := gridUnit e p in
  let x4 := 4 * Zpos m * u in
  let g4 := 4 * g * gridDen e p in
  let below := if (Zpos m =? 2 ^ 52) && (-1074 <? e) then u else 2 * u in
  let above := 2 * u in
  if Z.even (Zpos m) then (x4 - below <=? g4) && (g4 <=? x4 + above)
  else (x4 - below <? g4) && (g4 <? x4 + above).

(** The grid points next to [x] on the grid [10^-p], if one of them
    rounds to [x]: the nearer one when both do, the even one on a tie. *)
Definition candidate (m : positive) (e p : Z) : option Z :=
  let n := Zpos m * gridUnit e p in
  let d := gridDen e p in
  let lo := n / d in
  let hi := lo + 1 in
  match roundsTo m e p lo, roundsTo m e p hi with
  | true, false => Some lo
  | false, true => Some hi
  | true, true =>
      match 2 * n ?= (2 * lo + 1) * d with
      | Lt => Some lo
      | Gt => Some hi
      | Eq => Some (if Z.even lo then lo else hi)
      end
  | false, false => None
  end.

(** The first grid from [10^-p] on, towards finer ones, that has a
    candidate.  The search ends at the latest on [lastGrid], where [x]
    itself is a grid point. *)
Fixpoint shortestFrom (fuel : nat) (m : positive) (e p : Z) : Z * Z :=
  match candidate m e p with
  | Some g => (g, p)
  | None =>
      match fuel with
      | O => (Zpos m * gridUnit e p / gridDen e p, p)
      | S f => shortestFrom f m e (p + 1)
      end
  end.

(** A grid so coarse that its least positive point exceeds [x]:
    [x < 2^l], and [2^l <= 10^((l+2)/3)], [10^(3(-l)/10) <= 2^(-l)]. *)
Definition firstGrid (m : positive) (e : Z) : Z :=
  let l := Z.log2 (Zpos m) + 1 + e in
  if 0 <=? l then - ((l + 2) / 3) else 3 * (- l) / 10.

Definition lastGrid (e : Z) : Z := Z.max 0 (- e).

(** The shortest decimal [(g, p)], read [g * 10^-p], of [m * 2^e]. *)
Definition shortest (m : positive) (e : Z) : Z * Z :=
  shortestFrom (Z.to_nat (lastGrid e - firstGrid m e)) m e (firstGrid m e).

(** [g * 10^-p] rounded to [fd] fraction digits and multiplied by
    [10^fd]; a tie goes away from zero (rounding mode half-expand, the
    default of [Intl.NumberFormat]). *)
Definition roundHalfExpand (fd : nat) (g p : Z) : Z :=
  let k := p - Z.of_nat fd in
  if k <=? 0 then g * 10 ^ (- k)
  else
    let den := 10 ^ k in
    let q := g / den in
    let r := g mod den in
    if den <=? 2 * r then q + 1 else q.

(** Sign, grouped integer digits, ["."], and exactly [fd] fraction
    digits of the scaled integer [v]. *)
Definition fixedDigits (fd : nat) (neg : bool) (v : Z) : string :=
  let p := 10 ^ Z.of_nat fd in
  (if neg then "-" else "")
  +:+ group3 (JSString.ofInteger (v / p))
  +:+ "."
  +:+ JSString.padStart (JSString.ofInteger (v mod p)) fd "0".

Definition toLocaleStringFixed (fd : nat) (x : float) : string :=
  match Prim2SF x with
  | S754_nan => "NaN"
  | S754_infinity s => (if s then "-" else "") +:+ "∞"
  | S754_zero s => fixedDigits fd s 0
  | S754_finite s m e =>
      let '(g, p) := shortest m e in
      fixedDigits fd s (roundHalfExpand fd g p)
  end.

(** [String(x)]: Number::toString in radix 10.  With [k] digits and the
    decimal point [n] places after the first, the plain notation serves
    for [-6 < n <= 21] and the exponent notation otherwise. *)
Definition toString (x : float) : string :=
  match Prim2SF x with
  | S754_nan => "NaN"
  | S754_zero _ => "0"
  | S754_infinity s => (if s then "-" else "") +:+ "Infinity"
  | S754_finite s m e =>
      let '(g, p) := shortest m e in
      let digits := JSString.ofInteger g in
      let k := Z.of_nat (String.length digits) in
      let n := k - p in
      let zeros (c : Z) := string_of_list_ascii (repeat "0"%char (Z.to_nat c)) in
      (if s then "-" else "")
      +:+ (if (k <=? n) && (n <=? 21) then digits +:+ zeros (n - k)
           else if (0 <? n) && (n <=? 21)
           then String.substring 0 (Z.to_nat n) digits +:+ "."
                +:+ String.substring (Z.to_nat n) (Z.to_nat (k - n)) digits
           else if (-6 <? n) && (n <=? 0) then "0." +:+ zeros (- n) +:+ digits
           else
             (if k =? 1 then digits
              else String.substring 0 1 digits +:+ "."
                   +:+ String.substring 1 (Z.to_nat (k - 1)) digits)
             +:+ "e" +:+ (if 0 <=? n - 1 then "+" else "-")
             +:+ JSString.ofInteger (Z.abs (n - 1)))
  end.

End JSNumber.

(** The values an expense field read back from storage may hold.  Objects
    and arrays are left out: the code never stores one in a field. *)
Inductive JSVal : Type :=
| VUndefined
| VNull
| VBool (b : bool)
| VNum (x : float)
| VStr (s : string).

Module JSValue.

Definition ToBoolean (v : JSVal) : bool :=
  match v with
  | VUndefined | VNull => false
  | VBool b => b
  | VNum x => JSNumber.truthy x
  | VStr s => JSString.truthy s
  end.

(** [Number(v)] *)
Definition Number (v : JSVal) : float :=
  match v with
  | VUndefined => nan
  | VNull => zero
  | VBool b => if b then one else zero
  | VNum x => x
  | VStr s => JSNumber.ofString s
  end.

(** [a || b] *)
Definition or (a b : JSVal) : JSVal := if ToBoolean a then a else b.

End JSValue.

Example ofString_samples :
  map JSNumber.ofString ["120.50"; " 12 "; "-5"; ""; "0"; "1e3"; ".5"; "5."; "0x1F"; "1,5"; "abc"; "-"; "12px"; "Infinity"]
  = [120.5; 12; -5; 0; 0; 1000; 0.5; 5; 31; nan; nan; nan; nan; infinity]%float.
Proof. vm_compute. reflexivity. Qed.

Example toLocaleString_samples :
  map (JSNumber.toLocaleStringFixed 2)
      [120.5; 0; 1234567.125; -5; 0.375; 999.9951171875; nan; neg_infinity; 1e21;
       0x1.0147ae147ae14p+0; 0x1.5666666666666p+1; 0x1p+70; 0x1.3333333333334p-2;
       -0x1.0624dd2f1a9fcp-10; 0x0.0000000000001p-1022]%float
  = ["120.50"; "0.00"; "1,234,567.13"; "-5.00"; "0.38"; "1,000.00"; "NaN"; "-∞";
     "1,000,000,000,000,000,000,000.00";
     "1.01"; "2.68"; "1,180,591,620,717,411,300,000.00"; "0.30";
     "-0.00"; "0.00"].
Proof. vm_compute. reflexivity. Qed.

Example toString_samples :
  map JSNumber.toString
      [120.5; 0; 10; -0.5; 0x1.999999999999ap-4; 1e21; 0x1.ad7f29abcaf48p-24;
       0x1.0c6f7a0b5ed8dp-20; 0x1.ac53a7e04bcdap+66; 0x0.0000000000001p-1022;
       0x1.3333333333334p-2; nan; neg_infinity; 0x1.2d687cccccccdp+20]%float
  = ["120.5"; "0"; "10"; "-0.5"; "0.1"; "1e+21"; "1e-7"; "0.000001";
     "123456789012345680000"; "5e-324"; "0.30000000000000004"; "NaN"; "-Infinity";
     "1234567.8"].
Proof. vm_compute. reflexivity. Qed.

(** The shortest decimal of a number reads back as the number. *)
Definition readsBack (x : float) : bool :=
  match Prim2SF x with
  | S754_finite s m e =>
      let '(g, p) := JSNumber.shortest m e in
      (JSNumber.ofDecimal s g (- p) =? x)%float
  | _ => false
  end.

Example readsBack_samples :
  forallb readsBack
          [120.5; -5; 0x1.0147ae147ae14p+0; 0x1.999999999999ap-4;
           0x1.3333333333334p-2; 0x1p+70; 0x1.52d02c7e14af6p+76; 0x1p+52;
           0x1.0000000000001p+52; 0x1.fffffffffffffp+51; 0x1.0c6f7a0b5ed8dp-20]%float
  = true.
Proof. vm_compute. reflexivity. Qed.

(** [roundsTo] against [Number()], on the grid points around a number of
    the grid of its shortest decimal and of the next finer grid. *)
Definition agreesAround (x : float) : bool :=
  match Prim2SF x with
  | S754_finite s m e =>
      let '(_, p0) := JSNumber.shortest m e in
      forallb (fun p =>
           let lo := Zpos m * JSNumber.gridUnit e p / JSNumber.gridDen e p in
           forallb (fun dh =>
                      let h := lo + dh in
                      (h <=? 0)
                      || Bool.eqb (JSNumber.roundsTo m e p h)
                                  (JSNumber.ofDecimal s h (- p) =? x)%float)
                   [-9; -6; -5; -4; -3; -2; -1; 0; 1; 2; 3; 4; 5; 6; 9])
           [p0; p0 + 1]
  | _ => false
  end.

Example roundsTo_samples :
  forallb agreesAround
          [120.5; 0x1.0147ae147ae14p+0; 0x1.999999999999ap-4; 0x1p+70; 0x1p+52;
           0x1.0000000000001p+52; 0x1.fffffffffffffp+51]%float
  = true.
Proof. vm_compute. reflexivity. Qed.

(* ===================================================================== *)
(** ** JavaScript dates *)
(* ===================================================================== *)

(** A [Date] is its time value [t], the milliseconds since
    1970-01-01T00:00:00Z.  The calendar fields follow ECMAScript's
    [Day], [YearFromTime], [MonthFromTime], [DateFromTime]; the proleptic
    Gregorian date of a day number is computed in closed form. *)
Module JSDate.

Definition msPerDay : Z := 86400000.

Definition Day (t : Z) : Z := t / msPerDay.

(** Year, month (1 to 12) and day of the month of a day number. *)
Definition civil (day : Z) : Z * Z * Z :=
  let z := day + 719468 in
  let era := z / 146097 in
  let doe := z - era * 146097 in
  let yoe := (doe - doe / 1460 + doe / 36524 - doe / 146096) / 365 in
  let doy := doe - (365 * yoe + yoe / 4 - yoe / 100) in
  let mp := (5 * doy + 2) / 153 in
  let d := doy - (153 * mp + 2) / 5 + 1 in
  let m := if mp <? 10 then mp + 3 else mp - 9 in
  let y := yoe + era * 400 in
  (if m <=? 2 then y + 1 else y, m, d).

Definition YearFromTime (t : Z) : Z := fst (fst (civil (Day t))).
(** 0 for January to 11 for December. *)
Definition MonthFromTime (t : Z) : Z := snd (fst (civil (Day t))) - 1.
Definition DateFromTime (t : Z) : Z := snd (civil (Day t)).
Definition HourFromTime (t : Z) : Z := (t / 3600000) mod 24.
Definition MinFromTime (t : Z) : Z := (t / 60000) mod 60.
Definition SecFromTime (t : Z) : Z := (t / 1000) mod 60.
Definition msFromTime (t : Z) : Z := t mod 1000.

(** [LocalTime(t)]: [tza t] is the offset of local time from UTC at [t],
    in milliseconds (the host's time zone and daylight saving rules). *)
Definition LocalTime (tza : Z -> Z) (t : Z) : Z := t + tza t.

(** [d.getFullYear()] and [d.getMonth()] read the fields of local time. *)
Definition getFullYear (tza : Z -> Z) (t : Z) : Z := YearFromTime (LocalTime tza t).
Definition getMonth (tza : Z -> Z) (t : Z) : Z := MonthFromTime (LocalTime tza t).

Definition pad (n : nat) (v : Z) : string :=
  JSString.padStart (JSString.ofInteger v) n "0".

(** [d.toISOString()]: the fields of UTC, [YYYY-MM-DDTHH:mm:ss.sssZ], a
    year outside 0..9999 written with a sign and six digits. *)
Definition toISOString (t : Z) : string :=
  let y := YearFromTime t in
  (if (0 <=? y) && (y <=? 9999) then pad 4 y
   else (if y <? 0 then "-" else "+") +:+ pad 6 (Z.abs y))
  +:+ "-" +:+ pad 2 (MonthFromTime t + 1)
  +:+ "-" +:+ pad 2 (DateFromTime t)
  +:+ "T" +:+ pad 2 (HourFromTime t)
  +:+ ":" +:+ pad 2 (MinFromTime t)
  +:+ ":" +:+ pad 2 (SecFromTime t)
  +:+ "." +:+ pad 3 (msFromTime t)
  +:+ "Z".

End JSDate.

Example toISOString_samples :
  map JSDate.toISOString
      [0; 1756679400000; 951825600123; -1; 1735689599000; 4107542400000;
       -30630182400000; -11670998400000; 253402300800000; -62198755200000]
  = ["1970-01-01T00:00:00.000Z"; "2025-08-31T22:30:00.000Z";
     "2000-02-29T12:00:00.123Z"; "1969-12-31T23:59:59.999Z";
     "2024-12-31T23:59:59.000Z"; "2100-03-01T00:00:00.000Z";
     "0999-05-15T00:00:00.000Z"; "1600-02-29T00:00:00.000Z";
     "+010000-01-01T00:00:00.000Z"; "-000001-01-01T00:00:00.000Z"].
Proof. vm_compute. reflexivity. Qed.

(* ===================================================================== *)
(** ** Data model *)
(* ===================================================================== *)

(** An expense as the code stores it, [{ id, amount, reason, notes, dateISO }].
    [addExpense] stores a number in [amount]; a ledger read back from storage
    may hold any value there, which is why [totalForMonth] coerces it. *)
Module Expense.
Record t : Type := mk {
  id : string;
  amount : JSVal;
  reason : string;
  notes : string;
  dateISO : string
}.
End Expense.

Definition Ledger : Type := list Expense.t.

(** The state cells of [App], one per [useState]. *)
Module State.
Record t : Type := mk {
  expenses : Ledger;
  amount : string;
  reason : string;
  notes : string;
  selectedMonth : string;
  showMonthlyReminder : bool
}.

Definition setExpenses (v : Ledger) (s : t) : t :=
  mk v (amount s) (reason s) (notes s) (selectedMonth s) (showMonthlyReminder s).
Definition setAmount (v : string) (s : t) : t :=
  mk (expenses s) v (reason s) (notes s) (selectedMonth s) (showMonthlyReminder s).
Definition setReason (v : string) (s : t) : t :=
  mk (expenses s) (amount s) v (notes s) (selectedMonth s) (showMonthlyReminder s).
Definition setNotes (v : string) (s : t) : t :=
  mk (expenses s) (amount s) (reason s) v (selectedMonth s) (showMonthlyReminder s).
Definition setSelectedMonth (v : string) (s : t) : t :=
  mk (expenses s) (amount s) (reason s) (notes s) v (showMonthlyReminder s).
Definition setShowMonthlyReminder (v : bool) (s : t) : t :=
  mk (expenses s) (amount s) (reason s) (notes s) (selectedMonth s) v.
End State.

(** The two states of the rollover detector, read off the reminder flag. *)
Inductive ReminderState : Type := NO_REMINDER | REMINDER_PENDING.

Definition reminderState (s : State.t) : ReminderState :=
  if State.showMonthlyReminder s then REMINDER_PENDING else NO_REMINDER.

(* ===================================================================== *)
(** ** The world the component runs in *)
(* ===================================================================== *)

Inductive Exn : Type :=
| SyntaxError            (* [JSON.parse] on text that is not JSON *)
| DeliveryUnavailable.   (* [window.open] cannot be invoked *)

(** Calls that leave the component, in the order they are made. *)
Inductive Effect : Type :=
| WindowOpen (url target : string)
| SetItem (key value : string)
| Alert (msg : string)
| ConsoleError (msg : string) (e : Exn)
| PreventDefault.

Inductive Outcome (A : Type) : Type :=
| Ret (a : A)
| Throw (e : Exn).
Arguments Ret {A} a.
Arguments Throw {A} e.

Record World : Type := mkWorld {
  (** [localStorage] *)
  storage : gmap string string;
  (** whether [window.open] can be invoked *)
  canOpen : bool;
  (** the state cells as the next render will see them *)
  cells : State.t;
  (** whether [setExpenses] ran since the last render, so that the effect
      with dependency list [[expenses]] runs after it *)
  expensesChanged : bool;
  (** external calls made so far, oldest first *)
  trace : list Effect
}.

(** A computation runs in a world; a [Throw] keeps what was done before it. *)
Definition M (A : Type) : Type := World -> World * Outcome A.

Definition ret {A} (a : A) : M A := fun w => (w, Ret a).

Definition throw {A} (e : Exn) : M A := fun w => (w, Throw e).

Definition bind {A B} (m : M A) (k : A -> M B) : M B :=
  fun w =>
    match m w with
    | (w', Ret a) => k a w'
    | (w', Throw e) => (w', Throw e)
    end.

(** [try { body } catch (e) { handler }] *)
Definition try_catch {A} (body : M A) (handler : Exn -> M A) : M A :=
  fun w =>
    match body w with
    | (w', Throw e) => handler e w'
    | r => r
    end.

Declare Scope js_scope.
Delimit Scope js_scope with js.
Notation "'let*' x ':=' m 'in' k" := (bind m (fun x => k))
  (at level 10, x name, m at level 100, k at level 200) : js_scope.
Notation "m '>>' k" := (bind m (fun _ => k))
  (at level 90, right associativity) : js_scope.

Definition emit (e : Effect) : M unit :=
  fun w => (mkWorld (storage w) (canOpen w) (cells w) (expensesChanged w)
                    (trace w ++ [e]), Ret tt).

Definition updateCells (f : State.t -> State.t) : M unit :=
  fun w => (mkWorld (storage w) (canOpen w) (f (cells w)) (expensesChanged w)
                    (trace w), Ret tt).

Module localStorage.
Definition getItem (key : string) : M (option string) :=
  fun w => (w, Ret (storage w !! key)).

Definition setItem (key value : string) : M unit :=
  fun w => (mkWorld (<[key := value]> (storage w)) (canOpen w) (cells w)
                    (expensesChanged w) (trace w ++ [SetItem key value]), Ret tt).
End localStorage.

Module window.
(** [window.open(url, target)]: the call is made, or throws when the
    capability is unavailable.  The code does not look at what the call
    returns, so a call that returns without a window having appeared (a
    blocked popup) is a call that was made. *)
Definition open (url target : string) : M unit :=
  fun w => if canOpen w then emit (WindowOpen url target) w
           else throw DeliveryUnavailable w.

Definition alert (msg : string) : M unit := emit (Alert msg).
End window.

Module console.
Definition error (msg : string) (e : Exn) : M unit := emit (ConsoleError msg e).
End console.

(** The state setters of [App]. *)
Definition setExpenses (v : Ledger) : M unit :=
  fun w => (mkWorld (storage w) (canOpen w) (State.setExpenses v (cells w)) true
                    (trace w), Ret tt).
Definition setAmount (v : string) : M unit := updateCells (State.setAmount v).
Definition setReason (v : string) : M unit := updateCells (State.setReason v).
Definition setNotes (v : string) : M unit := updateCells (State.setNotes v).
Definition setSelectedMonth (v : string) : M unit := updateCells (State.setSelectedMonth v).
Definition setShowMonthlyReminder (v : bool) : M unit :=
  updateCells (State.setShowMonthlyReminder v).

Definition liftOutcome {A} (o : Outcome A) : M A := fun w => (w, o).

Local Open Scope js_scope.

(* ===================================================================== *)
(** ** Module-level constants and helpers of App.jsx *)
(* ===================================================================== *)

Definition STORAGE_KEY : string := "my_expenses_v1".
Definition LAST_SENT_KEY : string := "my_expenses_last_sent_month".
Definition ADMIN_PHONE : string := "972545317545".
Definition FIXED_WHATSAPP_MESSAGE_PREFIX : string := "סיכום הוצאות לחודש".

Definition newline : string := String (ascii_of_nat 10) EmptyString.
Definition dquote : string := String (ascii_of_nat 34) EmptyString.

(** A no-break space, an ideographic space and a byte order mark, in
    UTF-8. *)
Definition nbsp : string := String (ascii_of_nat 194) (String (ascii_of_nat 160) "").
Definition ideographicSpace : string :=
  String (ascii_of_nat 227) (String (ascii_of_nat 128) (String (ascii_of_nat 128) "")).
Definition byteOrderMark : string :=
  String (ascii_of_nat 239) (String (ascii_of_nat 187) (String (ascii_of_nat 191) "")).

Example trim_samples :
  map JSString.trim
      ["  taxi "; nbsp; nbsp +:+ " a b" +:+ ideographicSpace +:+ byteOrderMark;
       "ש "; ""; "é" +:+ nbsp; String (ascii_of_nat 9) "x" +:+ newline]
  = ["taxi"; ""; "a b"; "ש"; ""; "é"; "x"].
Proof. vm_compute. reflexivity. Qed.

(** [!raw] for the result of [getItem]: [null] and the empty string are falsy. *)
Definition truthyItem (raw : option string) : bool :=
  match raw with
  | Some s => JSString.truthy s
  | None => false
  end.

(** The values [JSON.parse] can return. *)
Module JSON.
#[local] Set Warnings "-register-all".
Inductive t : Type :=
| Null
| Bool (b : bool)
| Num (x : float)
| Str (s : string)
| Arr (items : list t)
| Obj (members : list (string * t)).

(** [Array.isArray(v)]: only an array has [filter] and [reduce], which the
    component calls on its ledger at every render. *)
Definition isArray (v : t) : bool :=
  match v with
  | Arr _ => true
  | _ => false
  end.
End JSON.

Section LedgerStore.

(** [JSON.parse] and [JSON.stringify] belong to the platform.  [V] is the
    type of what [JSON.parse] returns; it throws [SyntaxError] on text
    that is not JSON. *)
Context {V : Type}.
Variable JSON_parse : string -> Outcome V.
Variable JSON_stringify : V -> string.
(** the value of the literal [[]] *)
Variable emptyArray : V.

Definition loadExpenses : M V :=
  try_catch
    (let* raw := localStorage.getItem STORAGE_KEY in
     match raw with
     | Some text =>
         if negb (JSString.truthy text) then ret emptyArray
         else liftOutcome (JSON_parse text)
     | None => ret emptyArray
     end)
    (fun e =>
       console.error "Failed to parse expenses from storage" e >>
       ret emptyArray).

Definition saveExpenses (expenses : V) : M unit :=
  localStorage.setItem STORAGE_KEY (JSON_stringify expenses).

End LedgerStore.

(** [monthKeyFromDate(d)], with [tza] the host's local time offset. *)
Definition monthKeyFromDate (tza : Z -> Z) (d : Z) : string :=
  let y := JSDate.getFullYear tza d in
  let m := JSString.padStart (JSString.ofInteger (JSDate.getMonth tza d + 1)) 2 "0" in
  JSString.ofInteger y +:+ "-" +:+ m.

Definition formatCurrency (n : JSVal) : string :=
  JSNumber.toLocaleStringFixed 2 (JSValue.Number n).

(** [encodeURIComponent]: the unreserved characters stay, every other
    byte of the UTF-8 encoding becomes [%XX]. *)
Definition uriUnreserved (c : ascii) : bool :=
  let n := N_of_ascii c in
  ((48 <=? n) && (n <=? 57) || (65 <=? n) && (n <=? 90) || (97 <=? n) && (n <=? 122)
   || (n =? 45) || (n =? 95) || (n =? 46) || (n =? 33) || (n =? 126)
   || (n =? 42) || (n =? 39) || (n =? 40) || (n =? 41))%N.

Definition hexChar (n : N) : ascii :=
  ascii_of_N (if (n <? 10)%N then 48 + n else 55 + n)%N.

Fixpoint encodeURIComponent (s : string) : string :=
  match s with
  | EmptyString => EmptyString
  | String c r =>
      if uriUnreserved c then String c (encodeURIComponent r)
      else
        let n := N_of_ascii c in
        String "%" (String (hexChar (n / 16)%N) (String (hexChar (n mod 16)%N)
                   (encodeURIComponent r)))
  end.

Example encodeURIComponent_sample :
  encodeURIComponent ("a b/08" +:+ newline +:+ "ש") = "a%20b%2F08%0A%D7%A9".
Proof. reflexivity. Qed.

(* ===================================================================== *)
(** ** The component [App] *)
(* ===================================================================== *)

(** *** Aggregation *)

(** [expenses.filter((x) => x.dateISO.startsWith(monthKey))] *)
Definition expensesForMonth (expenses : Ledger) (monthKey : string) : Ledger :=
  List.filter (fun x => JSString.startsWith (Expense.dateISO x) monthKey) expenses.

(** [arr.reduce((s, it) => s + Number(it.amount || 0), 0)] *)
Definition totalForMonth (expenses : Ledger) (monthKey : string) : float :=
  let arr := expensesForMonth expenses monthKey in
  fold_left
    (fun s it => (s + JSValue.Number (JSValue.or (Expense.amount it) (VNum 0)))%float)
    arr 0%float.

(** *** The summary text of [handleSendMonthly] *)

(** [const [yr, mon] = m.split("-")], then [`${mon}/${yr}`]: a missing
    element is [undefined] and prints as such. *)
Definition humanMonth (m : string) : string :=
  let parts := JSString.split "-" m in
  let yr := nth 0 parts "undefined" in
  let mon := nth 1 parts "undefined" in
  mon +:+ "/" +:+ yr.

Definition SUMMARY_TOTAL_LABEL : string := "סה" +:+ dquote +:+ "כ הוצאות: ".
Definition SUMMARY_FOOTER : string := "(נשלח מהאתר)".

Definition buildSummaryText (m : string) (total : float) : string :=
  FIXED_WHATSAPP_MESSAGE_PREFIX +:+ " " +:+ humanMonth m +:+ newline
  +:+ SUMMARY_TOTAL_LABEL +:+ formatCurrency (VNum total) +:+ newline
  +:+ SUMMARY_FOOTER.

Definition summaryUrl (body : string) : string :=
  "https://wa.me/" +:+ ADMIN_PHONE +:+ "?text=" +:+ encodeURIComponent body.

Section App.

(** The host: its time zone, and [JSON] on ledgers.  The sessions are
    those in which a stored text that [JSON.parse] accepts is an array of
    expenses, as every text the component writes is; what [loadExpenses]
    makes of other JSON is stated apart, on [JSON.t]. *)
Variable LocalTZA : Z -> Z.
Variable JSON_parse : string -> Outcome Ledger.
Variable JSON_stringify : Ledger -> string.

(** *** Effects *)

(** [useEffect(() => saveExpenses(expenses), [expenses])] *)
Definition persistEffect (s : State.t) : M unit :=
  saveExpenses JSON_stringify (State.expenses s).

(** The rollover check, [useEffect(..., [])], at time [now]. *)
Definition rolloverEffect (now : Z) : M unit :=
  let* lastSent := localStorage.getItem LAST_SENT_KEY in
  let nowMonth := monthKeyFromDate LocalTZA now in
  (if truthyItem lastSent && negb (bool_decide (lastSent = Some nowMonth))
   then setShowMonthlyReminder true
   else setShowMonthlyReminder false) >>
  setSelectedMonth nowMonth.

(** *** Event handlers; [s] is the state the handler closed over. *)

Definition addExpense (s : State.t) (now : Z) (rnd : string) : M unit :=
  emit PreventDefault >>
  let amt := JSNumber.ofString (State.amount s) in
  if negb (JSNumber.truthy amt) || negb (JSString.truthy (JSString.trim (State.reason s)))
  then window.alert "אנא הכנס סכום תקין וסיבת הוצאה"
  else
    let item :=
      Expense.mk (JSString.ofInteger now +:+ "-" +:+ rnd)
                 (VNum amt)
                 (JSString.trim (State.reason s))
                 (JSString.trim (State.notes s))
                 (JSDate.toISOString now) in
    let next := item :: State.expenses s in
    setExpenses next >>
    setAmount "" >>
    setReason "" >>
    setNotes "" >>
    setSelectedMonth (monthKeyFromDate LocalTZA now).

(** [confirmed] is the answer to [confirm("למחוק הוצאה זו?")]. *)
Definition removeExpense (s : State.t) (id : string) (confirmed : bool) : M unit :=
  if negb confirmed then ret tt
  else
    setExpenses
      (List.filter (fun x => negb (bool_decide (Expense.id x = id))) (State.expenses s)).

(** [monthToSend] is [None] for [null] or [undefined]. *)
Definition handleSendMonthly (s : State.t) (monthToSend : option string) (now : Z)
  : M unit :=
  let m := if truthyItem monthToSend then default "" monthToSend
           else State.selectedMonth s in
  let total := totalForMonth (State.expenses s) m in
  let body := buildSummaryText m total in
  let url := summaryUrl body in
  window.open url "_blank" >>
  localStorage.setItem LAST_SENT_KEY (monthKeyFromDate LocalTZA now) >>
  setShowMonthlyReminder false >>
  window.alert "נפתח חלון WhatsApp לשליחה. אנא אשר ושלח בתוך WhatsApp.".

(** The second button of the reminder. *)
Definition dismissReminder : M unit := setShowMonthlyReminder false.

(** The button next to the form. *)
Definition clearDraft : M unit := setAmount "" >> setReason "" >> setNotes "".

(** *** Sessions *)

(** What the user and the host can do. *)
Inductive Event : Type :=
| SessionStart (now : Z)
| ChangeAmount (v : string)
| ChangeReason (v : string)
| ChangeNotes (v : string)
| ClearDraft
| SubmitExpense (now : Z) (rnd : string)
| ClickDelete (id : string) (confirmed : bool)
| SelectMonth (m : string)
(** "send now" in the reminder, with the answer to [prompt] *)
| ClickSendReminder (answer : option string) (now : Z) (deliverable : bool)
(** "send this month's summary" *)
| ClickSendSelected (now : Z) (deliverable : bool)
| ClickDismiss.

Definition setCanOpen (b : bool) : M unit :=
  fun w => (mkWorld (storage w) b (cells w) (expensesChanged w) (trace w), Ret tt).

(** After a render, the effect on [[expenses]] runs when the cell was set. *)
Definition runEffects : M unit :=
  fun w =>
    if expensesChanged w
    then persistEffect (cells w)
           (mkWorld (storage w) (canOpen w) (cells w) false (trace w))
    else (w, Ret tt).

(** The first render and its two effects, in the order they are declared. *)
Definition mount (now : Z) : M unit :=
  let* loaded := loadExpenses JSON_parse [] in
  let initial := State.mk loaded "" "" "" (monthKeyFromDate LocalTZA now) false in
  updateCells (fun _ => initial) >>
  persistEffect initial >>
  rolloverEffect now.

Definition withState (h : State.t -> M unit) : M unit := fun w => h (cells w) w.

Definition handle (ev : Event) : M unit :=
  match ev with
  | SessionStart now => mount now
  | ChangeAmount v => setAmount v
  | ChangeReason v => setReason v
  | ChangeNotes v => setNotes v
  | ClearDraft => clearDraft
  | SubmitExpense now rnd => withState (fun s => addExpense s now rnd)
  | ClickDelete id confirmed => withState (fun s => removeExpense s id confirmed)
  | SelectMonth m => setSelectedMonth m
  | ClickSendReminder answer now deliverable =>
      setCanOpen deliverable >>
      withState (fun s =>
        if State.showMonthlyReminder s
        then handleSendMonthly s (if truthyItem answer then answer else None) now
        else ret tt)
  | ClickSendSelected now deliverable =>
      setCanOpen deliverable >>
      withState (fun s => handleSendMonthly s (Some (State.selectedMonth s)) now)
  | ClickDismiss =>
      withState (fun s => if State.showMonthlyReminder s then dismissReminder else ret tt)
  end.

(** One event: the handler, then the effects of the render that follows.
    An exception out of a handler is reported and the session goes on. *)
Definition step (ev : Event) (w : World) : World :=
  fst (runEffects (fst (handle ev w))).

Definition run (evs : list Event) (w : World) : World :=
  fold_left (fun w ev => step ev w) evs w.

(** The marker the rollover detector reads. *)
Definition marker (w : World) : option string := storage w !! LAST_SENT_KEY.

End App.

(* ===================================================================== *)
(** ** The form of the view *)
(* ===================================================================== *)

(** [addExpense] is the [onSubmit] handler of a form whose amount field is
    [<input type="number" step="0.01" min="0">], bound to the [amount]
    cell.  The browser keeps the value of such a field a valid
    floating-point number or empty, and it fires [submit] only when the
    field satisfies its constraints (the form has no [noValidate]). *)
Module NumberInput.

(** A valid floating-point number of HTML: an optional ["-"], then digits
    with an optional fraction or a fraction alone, then an optional
    exponent. *)
Definition validFloatingPoint (s : string) : bool :=
  let s0 := match s with String "-"%char r => r | _ => s end in
  let '(_, ni, s1) := JSNumber.scanDigits JSNumber.decDigit 10 s0 0 0 in
  let '(ok, s2) :=
    match s1 with
    | String "."%char r =>
        let '(_, nf, r2) := JSNumber.scanDigits JSNumber.decDigit 10 r 0 0 in
        (0 <? nf, r2)
    | _ => (0 <? ni, s1)
    end in
  ok && match s2 with
        | EmptyString => true
        | String c r =>
            (Ascii.eqb c "e" || Ascii.eqb c "E")
            && match JSNumber.parseExponent r with Some _ => true | None => false end
        end.

(** Value sanitisation: the value of the field, which [onChange] hands to
    the component, once [text] was put in.  A text that is no number, or a
    number too large for a binary64, leaves the field without a value. *)
Definition value (text : string) : string :=
  if validFloatingPoint text && JSNumber.isFinite (JSNumber.ofString text)
  then text else "".

(** [min="0"]: the field suffers from an underflow. *)
Definition rangeUnderflow (value : string) : bool :=
  JSString.truthy value && (JSNumber.ofString value <? 0)%float.

End NumberInput.

Example NumberInput_samples :
  map NumberInput.value
      ["12.5"; "-5"; ".5"; "-.5e1"; "1e3"; "0"; ""; "5."; "+5"; " 5"; "abc"; "-"; "e";
       "1,5"; "0x1F"; "Infinity"; "1e999"; "-1e999"]
  = ["12.5"; "-5"; ".5"; "-.5e1"; "1e3"; "0"; ""; ""; ""; ""; ""; ""; "";
     ""; ""; ""; ""; ""].
Proof. vm_compute. reflexivity. Qed.

Section Form.

Variable LocalTZA : Z -> Z.

(** The user edits the amount field: [(e) => setAmount(e.target.value)]. *)
Definition editAmount (text : string) : M unit := setAmount (NumberInput.value text).

(** The user submits the form.  The browser validates the fields first
    and fires [submit], and with it [addExpense], only when all are valid;
    otherwise it shows its own message and nothing else happens.  The
    field shows the [amount] cell.  [otherwiseInvalid] stands for the
    constraints the browser decides on its own reading of the field: the
    step, and a text being edited that is no number. *)
Definition submitForm (otherwiseInvalid : bool) (now : Z) (rnd : string) : M unit :=
  withState (fun s =>
    if NumberInput.rangeUnderflow (NumberInput.value (State.amount s)) || otherwiseInvalid
    then ret tt
    else addExpense LocalTZA s now rnd).

Variable JSON_parse : string -> Outcome Ledger.
Variable JSON_stringify : Ledger -> string.

(** The events as the form delivers them: an edit of the amount field
    hands the component the value of the field, and a submission passes
    the validation of the browser first. *)
Definition handleForm (otherwiseInvalid : bool) (ev : Event) : M unit :=
  match ev with
  | ChangeAmount text => editAmount text
  | SubmitExpense now rnd => submitForm otherwiseInvalid now rnd
  | _ => handle LocalTZA JSON_parse JSON_stringify ev
  end.

(** An event, with what the browser makes of the other constraints should
    it be a submission, and the render that follows. *)
Definition stepForm (ev : bool * Event) (w : World) : World :=
  fst (runEffects JSON_stringify (fst (handleForm (fst ev) (snd ev) w))).

Definition runForm (evs : list (bool * Event)) (w : World) : World :=
  fold_left (fun w ev => stepForm ev w) evs w.

End Form.

(* ===================================================================== *)
(** * Properties *)
(* ===================================================================== *)

(** ** Ledger store: [loadExpenses] *)

Section LoadExpenses.

Context {V : Type}.
Variable JSON_parse : string -> Outcome V.
Variable emptyArray : V.

(** What [loadExpenses] returns, read off the stored text. *)
Definition loaded (raw : option string) : V :=
  match raw with
  | None => emptyArray
  | Some text =>
      if String.eqb text "" then emptyArray
      else match JSON_parse text with
           | Ret v => v
           | Throw _ => emptyArray
           end
  end.

Lemma loadExpenses_returns (w : World) :
  snd (loadExpenses JSON_parse emptyArray w) = Ret (loaded (storage w !! STORAGE_KEY)).
Proof.
  unfold loadExpenses, try_catch, bind, localStorage.getItem, loaded, JSString.truthy.
  destruct (storage w !! STORAGE_KEY) as [text|]; cbn; [|reflexivity].
  destruct (String.eqb text ""); cbn; [reflexivity|].
  unfold liftOutcome. destruct (JSON_parse text); reflexivity.
Qed.

(** [loadExpenses] writes nothing and sets no state cell. *)
Lemma loadExpenses_frame (w : World) :
  let w' := fst (loadExpenses JSON_parse emptyArray w) in
  storage w' = storage w /\ cells w' = cells w /\ canOpen w' = canOpen w
  /\ expensesChanged w' = expensesChanged w.
Proof.
  unfold loadExpenses, try_catch, bind, localStorage.getItem, JSString.truthy.
  destruct (storage w !! STORAGE_KEY) as [text|]; cbn; [|tauto].
  destruct (String.eqb text ""); cbn; [tauto|].
  unfold liftOutcome. destruct (JSON_parse text); cbn; tauto.
Qed.

End LoadExpenses.

(** [loadExpenses] never throws.  With no stored text (or an empty one)
    it returns the empty array; with a text [JSON.parse] accepts it
    returns the parsed value, whatever it is, and nothing else happens;
    with a text [JSON.parse] rejects it logs the error and returns the
    empty array. *)
Lemma loadExpenses_spec {V : Type} (JSON_parse : string -> Outcome V)
        (emptyArray : V) (w : World) :
  match storage w !! STORAGE_KEY with
  | None => loadExpenses JSON_parse emptyArray w = (w, Ret emptyArray)
  | Some text =>
      if String.eqb text ""
      then loadExpenses JSON_parse emptyArray w = (w, Ret emptyArray)
      else match JSON_parse text with
           | Ret v => loadExpenses JSON_parse emptyArray w = (w, Ret v)
           | Throw e =>
               loadExpenses JSON_parse emptyArray w
               = (fst (console.error "Failed to parse expenses from storage" e w),
                  Ret emptyArray)
           end
  end.
Proof.
  unfold loadExpenses, try_catch, bind, localStorage.getItem, JSString.truthy.
  destruct (storage w !! STORAGE_KEY) as [text|]; cbn; [|reflexivity].
  destruct (String.eqb text ""); cbn; [reflexivity|].
  unfold liftOutcome. destruct (JSON_parse text); reflexivity.
Qed.

(** C8.  A stored text that is JSON but no array is not treated as a
    malformed payload: [loadExpenses] hands back what [JSON.parse] made of
    it, a value that is no sequence, and logs nothing.  So it is with the
    text [null], which [JSON.parse] reads as [null]. *)
Theorem loadExpenses_returns_non_array
        (JSON_parse : string -> Outcome JSON.t) (w : World) (text : string)
        (v : JSON.t) :
  storage w !! STORAGE_KEY = Some text ->
  text <> "" ->
  JSON_parse text = Ret v ->
  JSON.isArray v = false ->
  loadExpenses JSON_parse (JSON.Arr []) w = (w, Ret v)
  /\ v <> JSON.Arr [].
Proof.
  intros Hstored Hne Hparse Hv.
  pose proof (loadExpenses_spec JSON_parse (JSON.Arr []) w) as H.
  rewrite Hstored in H.
  destruct (String.eqb_spec text ""); [contradiction|].
  rewrite Hparse in H. split; [exact H|].
  intros ->. discriminate.
Qed.

(** A [JSON.parse] for the texts of the literals: it reads [null] as
    [null], as that of the platform does. *)
Definition parseLiteral (text : string) : Outcome JSON.t :=
  if String.eqb text "null" then Ret JSON.Null
  else if String.eqb text "true" then Ret (JSON.Bool true)
  else if String.eqb text "false" then Ret (JSON.Bool false)
  else if String.eqb text "[]" then Ret (JSON.Arr [])
  else if String.eqb text "{}" then Ret (JSON.Obj [])
  else Throw SyntaxError.

(** A store whose ledger text is [null]. *)
Definition nullWorld : World :=
  mkWorld {[ STORAGE_KEY := "null" ]} true
          (State.mk [] "" "" "" "2025-09" false) false [].

(** C8, at the stored text [null]. *)
Lemma loadExpenses_returns_non_array_witness :
  (storage nullWorld !! STORAGE_KEY = Some "null" /\ "null" <> ""
   /\ parseLiteral "null" = Ret JSON.Null /\ JSON.isArray JSON.Null = false)
  /\ loadExpenses parseLiteral (JSON.Arr []) nullWorld = (nullWorld, Ret JSON.Null).
Proof.
  assert (H1 : storage nullWorld !! STORAGE_KEY = Some "null") by (vm_compute; reflexivity).
  assert (H2 : "null" <> "") by discriminate.
  split; [auto|].
  exact (proj1 (loadExpenses_returns_non_array parseLiteral nullWorld "null" JSON.Null
                  H1 H2 eq_refl eq_refl)).
Defined.

(** ** Frame lemmas for the primitives *)

Lemma marker_setItem_other (key value : string) (w : World) :
  key <> LAST_SENT_KEY ->
  marker (fst (localStorage.setItem key value w)) = marker w.
Proof. intros H. unfold marker; cbn. by rewrite lookup_insert_ne. Qed.

Lemma marker_setItem_same (value : string) (w : World) :
  marker (fst (localStorage.setItem LAST_SENT_KEY value w)) = Some value.
Proof. unfold marker; cbn. by rewrite lookup_insert_eq. Qed.

(** A month key is never the empty string. *)
Lemma monthKeyFromDate_nonempty (tza : Z -> Z) (d : Z) :
  monthKeyFromDate tza d <> "".
Proof.
  unfold monthKeyFromDate.
  destruct (JSString.ofInteger (JSDate.getFullYear tza d)); discriminate.
Qed.

Section AppFacts.

Variable LocalTZA : Z -> Z.
Variable JSON_parse : string -> Outcome Ledger.
Variable JSON_stringify : Ledger -> string.

Abbreviation mountA := (mount LocalTZA JSON_parse JSON_stringify).
Abbreviation stepA := (step LocalTZA JSON_parse JSON_stringify).
Abbreviation runA := (run LocalTZA JSON_parse JSON_stringify).
Abbreviation handleA := (handle LocalTZA JSON_parse JSON_stringify).
Abbreviation monthKey := (monthKeyFromDate LocalTZA).

(** The flag the rollover check computes from the marker. *)
Definition owed (last : option string) (nowMonth : string) : bool :=
  truthyItem last && negb (bool_decide (last = Some nowMonth)).

Lemma runEffects_frame (w : World) :
  let w' := fst (runEffects JSON_stringify w) in
  cells w' = cells w /\ marker w' = marker w.
Proof.
  unfold runEffects. destruct (expensesChanged w); cbn; [|tauto].
  split; [reflexivity|].
  unfold marker; cbn. by rewrite lookup_insert_ne.
Qed.

Lemma mount_spec (now : Z) (w : World) :
  let w' := fst (mountA now w) in
  cells w' = State.mk (loaded JSON_parse [] (storage w !! STORAGE_KEY))
                      "" "" "" (monthKey now) (owed (marker w) (monthKey now))
  /\ marker w' = marker w.
Proof.
  unfold mount, bind.
  pose proof (loadExpenses_returns JSON_parse [] w) as Hr.
  pose proof (loadExpenses_frame JSON_parse [] w) as (Hs & Hc & _).
  destruct (loadExpenses JSON_parse [] w) as [w1 o]; cbn in Hr, Hs, Hc; subst o.
  unfold persistEffect, saveExpenses, rolloverEffect, bind, owed, marker; cbn.
  rewrite Hs.
  set (v := JSON_stringify _).
  assert (Hm : <[STORAGE_KEY := v]> (storage w) !! LAST_SENT_KEY
               = storage w !! LAST_SENT_KEY) by (by apply lookup_insert_ne).
  rewrite !Hm.
  destruct (truthyItem (storage w !! LAST_SENT_KEY)
            && negb (bool_decide (storage w !! LAST_SENT_KEY = Some (monthKey now))));
    cbn; rewrite Hm; split; reflexivity.
Qed.

(** The month [handleSendMonthly] summarises: [monthToSend || selectedMonth]. *)
Definition monthToUse (s : State.t) (monthToSend : option string) : string :=
  if truthyItem monthToSend then default "" monthToSend else State.selectedMonth s.

Definition SENT_ALERT : string :=
  "נפתח חלון WhatsApp לשליחה. אנא אשר ושלח בתוך WhatsApp.".

(** The world a dispatch that went through leaves behind. *)
Definition dispatched (s : State.t) (monthToSend : option string) (now : Z)
           (w : World) : World :=
  let m := monthToUse s monthToSend in
  let url := summaryUrl (buildSummaryText m (totalForMonth (State.expenses s) m)) in
  mkWorld (<[LAST_SENT_KEY := monthKey now]> (storage w))
          (canOpen w)
          (State.setShowMonthlyReminder false (cells w))
          (expensesChanged w)
          (trace w ++ [WindowOpen url "_blank";
                       SetItem LAST_SENT_KEY (monthKey now);
                       Alert SENT_ALERT]).

Lemma handleSendMonthly_eq (s : State.t) (monthToSend : option string) (now : Z)
      (w : World) :
  handleSendMonthly LocalTZA s monthToSend now w
  = if canOpen w then (dispatched s monthToSend now w, Ret tt)
    else (w, Throw DeliveryUnavailable).
Proof.
  unfold handleSendMonthly, bind, window.open, window.alert, emit, dispatched,
    monthToUse, SENT_ALERT.
  destruct (canOpen w) eqn:Hopen; [|reflexivity].
  cbn. rewrite <- !app_assoc. reflexivity.
Qed.

Lemma marker_dispatched (s : State.t) (m : option string) (now : Z) (w : World) :
  marker (dispatched s m now w) = Some (monthKey now).
Proof. unfold marker, dispatched; cbn. by rewrite lookup_insert_eq. Qed.

(** An event that leaves the marker alone: anything but a send that can
    be delivered. *)
Definition keepsMarker (ev : Event) : bool :=
  match ev with
  | ClickSendReminder _ _ true | ClickSendSelected _ true => false
  | _ => true
  end.

(** The time at which a send event writes the marker. *)
Definition sendTime (ev : Event) : option Z :=
  match ev with
  | ClickSendReminder _ now true | ClickSendSelected now true => Some now
  | _ => None
  end.

Lemma step_marker (ev : Event) (w : World) :
  marker (stepA ev w)
  = match ev with
    | ClickSendReminder _ now true =>
        if State.showMonthlyReminder (cells w) then Some (monthKey now) else marker w
    | ClickSendSelected now true => Some (monthKey now)
    | _ => marker w
    end.
Proof.
  unfold step.
  destruct (runEffects_frame (fst (handleA ev w))) as [_ ->].
  destruct ev; cbn [handle]; try reflexivity.
  - apply mount_spec.
  - unfold withState, addExpense, bind; cbn.
    destruct (_ || _); reflexivity.
  - unfold withState, removeExpense. destruct confirmed; reflexivity.
  - unfold bind, withState; cbn.
    destruct (State.showMonthlyReminder (cells w)).
    + rewrite handleSendMonthly_eq; cbn.
      destruct deliverable; [apply marker_dispatched | reflexivity].
    + destruct deliverable; reflexivity.
  - unfold bind, withState; cbn.
    rewrite handleSendMonthly_eq; cbn.
    destruct deliverable; [apply marker_dispatched | reflexivity].
  - unfold withState, dismissReminder.
    destruct (State.showMonthlyReminder (cells w)); reflexivity.
Qed.

Lemma step_SessionStart_flag (now : Z) (w : World) :
  State.showMonthlyReminder (cells (stepA (SessionStart now) w))
  = owed (marker w) (monthKey now).
Proof.
  unfold step.
  destruct (runEffects_frame (fst (handleA (SessionStart now) w))) as [-> _].
  cbn [handle]. destruct (mount_spec now w) as [-> _]. reflexivity.
Qed.

(** The time an event happens at, when it reads the clock. *)
Definition eventTime (ev : Event) : option Z :=
  match ev with
  | SessionStart now | SubmitExpense now _
  | ClickSendReminder _ now _ | ClickSendSelected now _ => Some now
  | _ => None
  end.

(** The event happens within the calendar month [k] (or reads no clock). *)
Definition inMonth (k : string) (ev : Event) : Prop :=
  forall t, eventTime ev = Some t -> monthKey t = k.

Lemma run_cons (ev : Event) (evs : list Event) (w : World) :
  runA (ev :: evs) w = runA evs (stepA ev w).
Proof. reflexivity. Qed.

Lemma run_marker_inMonth (k : string) (evs : list Event) :
  Forall (inMonth k) evs ->
  forall w, marker w = Some k -> marker (runA evs w) = Some k.
Proof.
  induction 1 as [|ev evs Hev _ IH]; intros w Hw; [exact Hw|].
  rewrite run_cons. apply IH. rewrite step_marker.
  destruct ev; try exact Hw;
    destruct deliverable; try exact Hw;
    try destruct (State.showMonthlyReminder (cells w)); try exact Hw;
    f_equal; apply Hev; reflexivity.
Qed.

Lemma run_marker_kept (evs : list Event) :
  forallb keepsMarker evs = true ->
  forall w, marker (runA evs w) = marker w.
Proof.
  induction evs as [|ev evs IH]; intros Hk w; [reflexivity|].
  cbn [forallb] in Hk. apply andb_prop in Hk as [Hev Hk].
  rewrite run_cons, (IH Hk), step_marker.
  destruct ev; try reflexivity; destruct deliverable; try reflexivity; discriminate.
Qed.

Lemma owed_same (k : string) : owed (Some k) k = false.
Proof.
  unfold owed. rewrite bool_decide_eq_true_2 by reflexivity.
  apply andb_false_r.
Qed.

Lemma owed_other (last k : string) :
  last <> "" -> last <> k -> owed (Some last) k = true.
Proof.
  intros Hne Hk. unfold owed, truthyItem, JSString.truthy.
  destruct (String.eqb_spec last ""); [contradiction|].
  rewrite bool_decide_eq_false_2 by congruence. reflexivity.
Qed.

(** C1.  At a session start the reminder flag is computed from the marker
    alone.  For an absent marker, and for a marker equal to the current
    month key, the detector is in [NO_REMINDER]; for a marker that holds a
    different month key it is in [REMINDER_PENDING].  A marker, when present,
    holds a month key, which is never the empty string. *)
Theorem rollover_detector (w : World) (now : Z) :
  (forall last, marker w = Some last -> last <> "") ->
  reminderState (cells (stepA (SessionStart now) w))
  = match marker w with
    | None => NO_REMINDER
    | Some last =>
        if bool_decide (last = monthKey now) then NO_REMINDER else REMINDER_PENDING
    end.
Proof.
  intros Hkey. unfold reminderState. rewrite step_SessionStart_flag.
  destruct (marker w) as [last|]; [|reflexivity].
  case_bool_decide as Heq.
  - subst last. by rewrite owed_same.
  - rewrite owed_other; auto.
Qed.

(** An empty string under the marker's key is not a month key: the check
    [lastSent && ...] reads it as no marker. *)
Lemma rollover_empty_marker (w : World) (now : Z) :
  marker w = Some "" ->
  reminderState (cells (stepA (SessionStart now) w)) = NO_REMINDER.
Proof.
  intros H. unfold reminderState. rewrite step_SessionStart_flag, H. reflexivity.
Qed.

(** Every marker the component writes is a month key, so the marker stays
    absent or non-empty. *)
Lemma step_marker_nonempty (ev : Event) (w : World) :
  (forall last, marker w = Some last -> last <> "") ->
  forall last, marker (stepA ev w) = Some last -> last <> "".
Proof.
  intros Hw last. rewrite step_marker.
  destruct ev; try apply Hw; destruct deliverable; try apply Hw;
    try destruct (State.showMonthlyReminder (cells w)); try apply Hw;
    intros [= <-]; apply monthKeyFromDate_nonempty.
Qed.

(** C2.  Whatever month is summarised (the month picked in the prompt, the
    selected month, a past month), a dispatch that goes through stores the
    month key of the moment of the dispatch in the marker and clears the
    reminder flag; from then on, as long as every event happens within that
    same calendar month, each session start finds the detector in
    [NO_REMINDER]. *)
Theorem dispatch_marks_current_month
        (s : State.t) (monthToSend : option string) (now : Z) (w : World) :
  canOpen w = true ->
  let r := handleSendMonthly LocalTZA s monthToSend now w in
  snd r = Ret tt
  /\ marker (fst r) = Some (monthKey now)
  /\ reminderState (cells (fst r)) = NO_REMINDER
  /\ forall (evs : list Event) (now' : Z),
      Forall (inMonth (monthKey now)) evs ->
      monthKey now' = monthKey now ->
      reminderState (cells (stepA (SessionStart now') (runA evs (fst r))))
      = NO_REMINDER.
Proof.
  intros Hopen r. subst r. rewrite handleSendMonthly_eq, Hopen. cbn [fst snd].
  split; [reflexivity|]. split; [apply marker_dispatched|].
  split; [reflexivity|].
  intros evs now' Hevs Hnow'.
  unfold reminderState. rewrite step_SessionStart_flag.
  rewrite (run_marker_inMonth _ _ Hevs) by apply marker_dispatched.
  rewrite Hnow'. by rewrite owed_same.
Qed.

(** C3.  [handleSendMonthly] calls [window.open] first and writes the
    marker after it: when the call can be made, the external calls are, in
    this order, the opening of the composer, the write of the marker and the
    notice.  When the call cannot be made, the exception leaves the handler
    before anything was written: the world, and with it the marker and the
    reminder flag, is as it was. *)
Theorem dispatch_order_and_failure
        (s : State.t) (monthToSend : option string) (now : Z) (w : World) :
  let r := handleSendMonthly LocalTZA s monthToSend now w in
  let m := monthToUse s monthToSend in
  let url := summaryUrl (buildSummaryText m (totalForMonth (State.expenses s) m)) in
  if canOpen w
  then snd r = Ret tt
       /\ trace (fst r)
          = (trace w ++ [WindowOpen url "_blank";
                         SetItem LAST_SENT_KEY (monthKey now);
                         Alert SENT_ALERT])%list
       /\ marker (fst r) = Some (monthKey now)
       /\ State.showMonthlyReminder (cells (fst r)) = false
  else snd r = Throw DeliveryUnavailable
       /\ fst r = w
       /\ marker (fst r) = marker w
       /\ State.showMonthlyReminder (cells (fst r)) = State.showMonthlyReminder (cells w).
Proof.
  cbv zeta. rewrite handleSendMonthly_eq.
  destruct (canOpen w); cbn [fst snd].
  - split; [reflexivity|]. split; [reflexivity|].
    split; [apply marker_dispatched | reflexivity].
  - repeat split.
Qed.

(** C7.  Dismissing the reminder only clears the flag: nothing is written
    to storage, so the marker is what it was.  As long as no send goes
    through, every later session start in a month other than the marker's
    finds the detector in [REMINDER_PENDING] again. *)
Theorem dismiss_keeps_marker (w : World) (last : string) :
  marker w = Some last ->
  last <> "" ->
  storage (fst (dismissReminder w)) = storage w
  /\ State.showMonthlyReminder (cells (stepA ClickDismiss w)) = false
  /\ marker (stepA ClickDismiss w) = Some last
  /\ forall (evs : list Event) (now' : Z),
      forallb keepsMarker evs = true ->
      monthKey now' <> last ->
      reminderState (cells (stepA (SessionStart now') (runA evs (stepA ClickDismiss w))))
      = REMINDER_PENDING.
Proof.
  intros Hm Hne. split; [reflexivity|]. split; [|split].
  - unfold step.
    destruct (runEffects_frame (fst (handleA ClickDismiss w))) as [-> _].
    cbn [handle]. unfold withState, dismissReminder.
    destruct (State.showMonthlyReminder (cells w)) eqn:E; cbn; [reflexivity | exact E].
  - rewrite step_marker. exact Hm.
  - intros evs now' Hevs Hnow'.
    unfold reminderState. rewrite step_SessionStart_flag.
    rewrite (run_marker_kept _ Hevs), step_marker, Hm.
    rewrite owed_other; auto.
Qed.

(** A session start never throws. *)
Lemma mount_returns (now : Z) (w : World) : snd (mountA now w) = Ret tt.
Proof.
  unfold mount, bind.
  pose proof (loadExpenses_returns JSON_parse [] w) as Hr.
  destruct (loadExpenses JSON_parse [] w) as [w1 o]; cbn in Hr; subst o.
  unfold persistEffect, saveExpenses, rolloverEffect, bind; cbn.
  destruct (_ && _); reflexivity.
Qed.

End AppFacts.

(* ===================================================================== *)
(** ** Session controller: [removeExpense] and [addExpense] *)
(* ===================================================================== *)

Lemma filter_sublist {A} (f : A -> bool) (l : list A) : sublist (List.filter f l) l.
Proof.
  induction l as [|a l IH]; cbn; [constructor|].
  destruct (f a); [by apply sublist_skip | by apply sublist_cons].
Qed.

Lemma filter_all {A} (f : A -> bool) (l : list A) :
  (forall a, In a l -> f a = true) -> List.filter f l = l.
Proof.
  induction l as [|a l IH]; cbn; intros H; [reflexivity|].
  rewrite (H a) by auto. f_equal. apply IH. auto.
Qed.

(** C10.  A confirmed [removeExpense(id)] replaces the ledger by its
    entries whose id differs from [id]: an entry stays exactly when its id
    is another one, the entries that stay are the same records in the same
    order, and nothing changes when no entry has that id.  The other state
    cells and the storage are left as they are by the handler.  A declined
    confirmation changes nothing at all. *)
Theorem removeExpense_spec (s : State.t) (id : string) (w : World) :
  let L := State.expenses s in
  let r := removeExpense s id true w in
  let L' := State.expenses (cells (fst r)) in
  snd r = Ret tt
  /\ L' = List.filter (fun x => negb (bool_decide (Expense.id x = id))) L
  /\ (forall e, In e L' <-> In e L /\ Expense.id e <> id)
  /\ sublist L' L
  /\ ((forall e, In e L -> Expense.id e <> id) -> L' = L)
  /\ cells (fst r) = State.setExpenses L' (cells w)
  /\ storage (fst r) = storage w
  /\ removeExpense s id false w = (w, Ret tt).
Proof.
  cbv zeta. unfold removeExpense; cbn.
  split; [reflexivity|]. split; [reflexivity|]. split; [|split; [|split]].
  - intros e. rewrite filter_In. rewrite negb_true_iff, bool_decide_eq_false. tauto.
  - apply filter_sublist.
  - intros H. apply filter_all. intros e He.
    rewrite negb_true_iff, bool_decide_eq_false. auto.
  - repeat split.
Qed.

Section AddExpense.

Variable LocalTZA : Z -> Z.

Definition INVALID_ALERT : string := "אנא הכנס סכום תקין וסיבת הוצאה".

(** The guard of [addExpense]: [!amt || !reason.trim()]. *)
Definition rejected (s : State.t) : bool :=
  negb (JSNumber.truthy (JSNumber.ofString (State.amount s)))
  || negb (JSString.truthy (JSString.trim (State.reason s))).

(** The record [addExpense] builds. *)
Definition newItem (s : State.t) (now : Z) (rnd : string) : Expense.t :=
  Expense.mk (JSString.ofInteger now +:+ "-" +:+ rnd)
             (VNum (JSNumber.ofString (State.amount s)))
             (JSString.trim (State.reason s))
             (JSString.trim (State.notes s))
             (JSDate.toISOString now).

Lemma addExpense_eq (s : State.t) (now : Z) (rnd : string) (w : World) :
  addExpense LocalTZA s now rnd w
  = if rejected s
    then (mkWorld (storage w) (canOpen w) (cells w) (expensesChanged w)
                  (trace w ++ [PreventDefault; Alert INVALID_ALERT]), Ret tt)
    else (mkWorld (storage w) (canOpen w)
                  (State.mk (newItem s now rnd :: State.expenses s) "" "" ""
                            (monthKeyFromDate LocalTZA now)
                            (State.showMonthlyReminder (cells w)))
                  true
                  (trace w ++ [PreventDefault]), Ret tt).
Proof.
  unfold addExpense, rejected, bind, emit, window.alert, emit; cbn.
  destruct (_ || _); cbn; [|reflexivity].
  rewrite <- app_assoc. reflexivity.
Qed.

(** What the guard does turn away: an amount that reads as zero or as no
    number, and a reason that is blank.  Nothing but the notice happens. *)
Lemma addExpense_rejects (s : State.t) (now : Z) (rnd : string) (w : World) :
  JSNumber.truthy (JSNumber.ofString (State.amount s)) = false
  \/ JSString.trim (State.reason s) = "" ->
  let w' := fst (addExpense LocalTZA s now rnd w) in
  cells w' = cells w /\ storage w' = storage w
  /\ expensesChanged w' = expensesChanged w.
Proof.
  intros H. rewrite addExpense_eq.
  assert (rejected s = true) as ->; [|repeat split].
  unfold rejected. destruct H as [-> | ->]; [reflexivity | apply orb_true_r].
Qed.

(** Every entry [addExpense] stores carries a number that is neither zero
    nor [NaN]. *)
Lemma addExpense_amount (s : State.t) (now : Z) (rnd : string) (w : World) :
  rejected s = false ->
  exists x, Expense.amount (newItem s now rnd) = VNum x /\ JSNumber.truthy x = true.
Proof.
  unfold rejected. intros H. apply orb_false_elim in H as [H _].
  apply negb_false_iff in H. eauto.
Qed.

Variable JSON_parse : string -> Outcome Ledger.
Variable JSON_stringify : Ledger -> string.

(** A rejected submission leaves the state cells and the storage as they
    were: nothing is added and nothing is persisted. *)
Lemma step_SubmitExpense_rejected (now : Z) (rnd : string) (w : World) :
  rejected (cells w) = true ->
  expensesChanged w = false ->
  let w' := step LocalTZA JSON_parse JSON_stringify (SubmitExpense now rnd) w in
  cells w' = cells w /\ storage w' = storage w.
Proof.
  intros Hrej Hclean. unfold step. cbn [handle]. unfold withState.
  rewrite addExpense_eq, Hrej. cbn [fst].
  unfold runEffects. cbn. rewrite Hclean. split; reflexivity.
Qed.

(** An accepted submission puts the new record in front of the ledger
    and persists the ledger. *)
Lemma step_SubmitExpense_accepted (now : Z) (rnd : string) (w : World) :
  rejected (cells w) = false ->
  let w' := step LocalTZA JSON_parse JSON_stringify (SubmitExpense now rnd) w in
  let next := newItem (cells w) now rnd :: State.expenses (cells w) in
  State.expenses (cells w') = next
  /\ storage w' !! STORAGE_KEY = Some (JSON_stringify next).
Proof.
  intros Hrej. unfold step. cbn [handle]. unfold withState.
  rewrite addExpense_eq, Hrej. cbn [fst].
  unfold runEffects, persistEffect, saveExpenses. cbn.
  split; [reflexivity | by rewrite lookup_insert_eq].
Qed.

End AddExpense.

Example rejected_samples :
  map (fun '(a, r) => rejected (State.mk [] a r "" "2025-08" false))
      [("0", "taxi"); ("", "taxi"); ("abc", "taxi"); ("12.5", ""); ("12.5", "  ");
       ("12.5", nbsp); ("12.5", "taxi"); ("-5", "taxi")]
  = [true; true; true; true; true; true; false; false].
Proof. vm_compute. reflexivity. Qed.

(** A host three hours ahead of UTC. *)
Definition utcPlus3 : Z -> Z := fun _ => 10800000.

(** An empty store, no reminder, an empty form. *)
Definition freshWorld : World :=
  mkWorld ∅ true (State.mk [] "" "" "" "2025-09" false) false [].

(** The handler alone does not turn a negative amount away: called with
    the amount [-5] and the reason [taxi], it puts an expense of [-5] in the
    ledger.  It is the amount field of the form that stops such an
    amount. *)
Example addExpense_alone_accepts_negative :
  let s := State.mk [] "-5" "taxi" "" "2025-09" false in
  rejected s = false
  /\ State.expenses
       (cells (fst (addExpense utcPlus3 s 1757930400000 "k3x9ab" freshWorld)))
     = [Expense.mk "1757930400000-k3x9ab" (VNum (-5)) "taxi" ""
                   "2025-09-15T10:00:00.000Z"]
  /\ NumberInput.rangeUnderflow (NumberInput.value "-5") = true.
Proof. vm_compute. repeat split; reflexivity. Qed.

(** A number that is neither zero nor [NaN] is above or below zero. *)
Lemma float_sign (x : float) :
  JSNumber.truthy x = true -> (0 <? x)%float = negb (x <? 0)%float.
Proof.
  unfold JSNumber.truthy, is_zero, is_nan.
  rewrite !FloatAxioms.ltb_spec, !FloatAxioms.eqb_spec.
  change (Prim2SF 0) with (S754_zero false). change (Prim2SF zero) with (S754_zero false).
  destruct (Prim2SF x) as [s|s| |s m e]; try destruct s; cbn; intros H;
    try reflexivity; discriminate.
Qed.

Lemma float_positive_truthy (x : float) :
  (0 <? x)%float = true -> JSNumber.truthy x = true /\ (x <? 0)%float = false.
Proof.
  unfold JSNumber.truthy, is_zero, is_nan.
  rewrite !FloatAxioms.ltb_spec, !FloatAxioms.eqb_spec.
  change (Prim2SF 0) with (S754_zero false). change (Prim2SF zero) with (S754_zero false).
  destruct (Prim2SF x) as [s|s| |s m e]; try destruct s; cbn; intros H;
    try discriminate.
  - split; reflexivity.
  - rewrite Z.compare_refl, Pos.compare_refl. split; reflexivity.
Qed.

(** What the field hands over is its own value. *)
Lemma NumberInput_value_idempotent (text : string) :
  NumberInput.value (NumberInput.value text) = NumberInput.value text.
Proof.
  unfold NumberInput.value at 2 3.
  destruct (NumberInput.validFloatingPoint text && _) eqn:H; [|reflexivity].
  unfold NumberInput.value. rewrite H. reflexivity.
Qed.

(** C6.  The form rejects an add-intent whose amount is not a positive
    number or whose reason is blank: the state cells and the storage stay
    as they were and no save is pending, whether the browser stops the
    submission (an amount below the field's minimum of 0) or [addExpense]
    does (an amount that reads as 0 or as no number, a blank reason).  The
    premise is what the amount field maintains: the cell holds a value of
    the field.  An intent with a positive amount and a reason, which the
    browser lets through, is accepted. *)
Theorem submitForm_rejects_unless_positive
        (LocalTZA : Z -> Z) (otherwiseInvalid : bool) (now : Z) (rnd : string)
        (w : World) :
  let s := cells w in
  let amt := JSNumber.ofString (State.amount s) in
  let w' := fst (submitForm LocalTZA otherwiseInvalid now rnd w) in
  NumberInput.value (State.amount s) = State.amount s ->
  ((0 <? amt)%float = false \/ JSString.trim (State.reason s) = "" ->
   cells w' = cells w /\ storage w' = storage w
   /\ expensesChanged w' = expensesChanged w)
  /\ ((0 <? amt)%float = true -> JSString.trim (State.reason s) <> "" ->
      otherwiseInvalid = false ->
      State.expenses (cells w') = newItem s now rnd :: State.expenses s
      /\ expensesChanged w' = true).
Proof.
  cbv zeta. intros Hfield. unfold submitForm, withState. rewrite Hfield.
  split.
  - intros Hbad.
    destruct (NumberInput.rangeUnderflow (State.amount (cells w)) || otherwiseInvalid)
      eqn:Hblock; [cbn; auto|].
    apply orb_false_elim in Hblock as [Hunder _].
    apply addExpense_rejects.
    destruct Hbad as [Hneg|Hblank]; [left | right; exact Hblank].
    destruct (JSNumber.truthy (JSNumber.ofString (State.amount (cells w)))) eqn:Ht;
      [exfalso | reflexivity].
    rewrite (float_sign _ Ht) in Hneg. apply negb_false_iff in Hneg.
    unfold NumberInput.rangeUnderflow in Hunder. rewrite Hneg, andb_true_r in Hunder.
    unfold JSString.truthy in Hunder. apply negb_false_iff in Hunder.
    apply String.eqb_eq in Hunder. rewrite Hunder in Ht. discriminate.
  - intros Hpos Hreason ->. rewrite orb_false_r.
    destruct (float_positive_truthy _ Hpos) as [Ht Hnn].
    unfold NumberInput.rangeUnderflow. rewrite Hnn, andb_false_r.
    rewrite addExpense_eq.
    assert (Hrej : rejected (cells w) = false).
    { unfold rejected. rewrite Ht. cbn. apply negb_false_iff.
      unfold JSString.truthy. apply negb_true_iff.
      destruct (String.eqb_spec (JSString.trim (State.reason (cells w))) "");
        [contradiction | reflexivity]. }
    rewrite Hrej. split; reflexivity.
Qed.

(** *** The premise of the guard: what the amount cell holds *)

Section FormSession.

Variable LocalTZA : Z -> Z.
Variable JSON_parse : string -> Outcome Ledger.
Variable JSON_stringify : Ledger -> string.

(** The amount cell holds a value of the field. *)
Definition fieldValue (w : World) : Prop :=
  NumberInput.value (State.amount (cells w)) = State.amount (cells w).

Lemma stepForm_start_fieldValue (b : bool) (now : Z) (w : World) :
  fieldValue (stepForm LocalTZA JSON_parse JSON_stringify (b, SessionStart now) w).
Proof.
  unfold fieldValue, stepForm. cbn [fst snd handleForm handle].
  destruct (runEffects_frame JSON_stringify
              (fst (mount LocalTZA JSON_parse JSON_stringify now w))) as [-> _].
  destruct (mount_spec LocalTZA JSON_parse JSON_stringify now w) as [-> _].
  reflexivity.
Qed.

Lemma stepForm_fieldValue (ev : bool * Event) (w : World) :
  fieldValue w -> fieldValue (stepForm LocalTZA JSON_parse JSON_stringify ev w).
Proof.
  destruct ev as [b ev]. intros H. unfold fieldValue, stepForm in *. cbn [fst snd].
  destruct (runEffects_frame JSON_stringify
              (fst (handleForm LocalTZA JSON_parse JSON_stringify b ev w))) as [-> _].
  destruct ev; cbn [handleForm handle].
  - destruct (mount_spec LocalTZA JSON_parse JSON_stringify now w) as [-> _].
    reflexivity.
  - cbn. apply NumberInput_value_idempotent.
  - exact H.
  - exact H.
  - reflexivity.
  - unfold submitForm, withState.
    destruct (_ || b); [exact H|].
    rewrite addExpense_eq. destruct (rejected (cells w)); [exact H | reflexivity].
  - unfold withState, removeExpense. destruct confirmed; exact H.
  - exact H.
  - unfold bind, setCanOpen, withState; cbn.
    destruct (State.showMonthlyReminder (cells w)); [|exact H].
    rewrite handleSendMonthly_eq; cbn. destruct deliverable; exact H.
  - unfold bind, setCanOpen, withState; cbn.
    rewrite handleSendMonthly_eq; cbn. destruct deliverable; exact H.
  - unfold withState. destruct (State.showMonthlyReminder (cells w)); exact H.
Qed.

(** From a session start on, whatever the user does with the form, the
    amount cell holds a value of the field. *)
Lemma runForm_fieldValue (now : Z) (evs : list (bool * Event)) (w : World) :
  fieldValue (runForm LocalTZA JSON_parse JSON_stringify
                      ((false, SessionStart now) :: evs) w).
Proof.
  unfold runForm. cbn [fold_left].
  pose proof (stepForm_start_fieldValue false now w) as H0.
  revert H0. generalize (stepForm LocalTZA JSON_parse JSON_stringify
                                  (false, SessionStart now) w).
  induction evs as [|ev evs IH]; intros w1 H1; [exact H1|].
  cbn [fold_left]. apply IH, stepForm_fieldValue. exact H1.
Qed.

End FormSession.

(** A form with the amount [-5] typed in. *)
Definition negativeAmountWorld : World :=
  mkWorld ∅ true (State.mk [] "-5" "taxi" "" "2025-09" false) false [].

(** C6, at the amount [-5]: the browser stops the submission. *)
Lemma submitForm_rejects_unless_positive_witness :
  (NumberInput.value "-5" = "-5"
   /\ ((0 <? JSNumber.ofString "-5")%float = false \/ JSString.trim "taxi" = ""))
  /\ cells (fst (submitForm utcPlus3 false 1757930400000 "k3x9ab" negativeAmountWorld))
     = cells negativeAmountWorld
  /\ storage (fst (submitForm utcPlus3 false 1757930400000 "k3x9ab" negativeAmountWorld))
     = storage negativeAmountWorld.
Proof.
  assert (H1 : NumberInput.value "-5" = "-5") by (vm_compute; reflexivity).
  assert (H2 : (0 <? JSNumber.ofString "-5")%float = false \/ JSString.trim "taxi" = "")
    by (left; vm_compute; reflexivity).
  split; [auto|].
  destruct (proj1 (submitForm_rejects_unless_positive utcPlus3 false 1757930400000
                     "k3x9ab" negativeAmountWorld H1) H2) as (Hc & Hs & _).
  split; [exact Hc | exact Hs].
Defined.

(* ===================================================================== *)
(** ** Aggregator: [expensesForMonth] and [totalForMonth] *)
(* ===================================================================== *)

(** What [expensesForMonth] does select: the entries whose stored text
    [dateISO] begins with the month key, in ledger order. *)
Lemma expensesForMonth_In (L : Ledger) (m : string) (e : Expense.t) :
  In e (expensesForMonth L m)
  <-> In e L /\ JSString.startsWith (Expense.dateISO e) m = true.
Proof. unfold expensesForMonth. apply filter_In. Qed.

Lemma expensesForMonth_idempotent (L : Ledger) (m : string) :
  expensesForMonth (expensesForMonth L m) m = expensesForMonth L m.
Proof.
  unfold expensesForMonth. apply filter_all.
  intros e He. apply filter_In in He. tauto.
Qed.

(** C4.  On a host three hours ahead of UTC, an expense is added on
    1 September 2025 at 01:30 local time.  Its month, by the date's own year
    and month, is [2025-09], and that is the month the form selects; its
    stored text is the UTC rendering [2025-08-31T22:30:00.000Z].
    [expensesForMonth] compares the text: the expense is missing from
    [2025-09] and listed under [2025-08]. *)
Theorem expensesForMonth_misses_local_month :
  let now := 1756679400000 in
  let s := State.mk [] "10" "taxi" "" "2025-09" false in
  let w := fst (addExpense utcPlus3 s now "k3x9ab" freshWorld) in
  let L := State.expenses (cells w) in
  monthKeyFromDate utcPlus3 now = "2025-09"
  /\ State.selectedMonth (cells w) = "2025-09"
  /\ map Expense.dateISO L = ["2025-08-31T22:30:00.000Z"]
  /\ expensesForMonth L "2025-09" = []
  /\ expensesForMonth L "2025-08" = L.
Proof. vm_compute. repeat split. Qed.

(** The value an entry adds to the total: [Number(it.amount || 0)]. *)
Definition coercedAmount (it : Expense.t) : float :=
  JSValue.Number (JSValue.or (Expense.amount it) (VNum 0)).

Example coercedAmount_samples :
  map (fun v => coercedAmount (Expense.mk "" v "" "" ""))
      [VNum 12.5; VNum (-5); VNum 0; VNum nan; VNull; VUndefined; VStr "";
       VStr "12"; VStr "abc"; VBool true; VBool false]
  = [12.5; -5; 0; 0; 0; 0; 0; 12; nan; 1; 0]%float.
Proof. vm_compute. reflexivity. Qed.

Lemma fold_left_map {A B C} (f : A -> C -> A) (g : B -> C) (l : list B) (a : A) :
  fold_left (fun s x => f s (g x)) l a = fold_left f (map g l) a.
Proof. revert a. induction l as [|x l IH]; intros a; cbn; [reflexivity | apply IH]. Qed.

(** An amount is numeric when it is a number other than [NaN]. *)
Definition amountIsNumber (v : JSVal) : bool :=
  match v with
  | VNum x => negb (is_nan x)
  | _ => false
  end.

(** The claim that amounts which are not numbers stay out of the sum:
    dropping the entries that carry one does not change the total. *)
Definition amountsNotCoerced (L : Ledger) (m : string) : Prop :=
  totalForMonth L m
  = totalForMonth (List.filter (fun e => amountIsNumber (Expense.amount e)) L) m.

(** A ledger read back from storage with the text ["12"] as an amount. *)
Definition textAmountLedger : Ledger :=
  [Expense.mk "1755252000000-k3x9ab" (VStr "12") "taxi" "" "2025-08-15T10:00:00.000Z"].

(** C5, as stated, fails: the text ["12"] is no number, yet
    [Number(it.amount || 0)] turns it into 12 and adds it to the total. *)
Lemma totalForMonth_coerces_text_amount :
  totalForMonth textAmountLedger "2025-08" = 12%float
  /\ ~ amountsNotCoerced textAmountLedger "2025-08".
Proof.
  split; [vm_compute; reflexivity|].
  unfold amountsNotCoerced. vm_compute. intros H.
  apply (f_equal (fun x => PrimFloat.eqb x 0)) in H.
  vm_compute in H. discriminate.
Qed.

(** C5, amended.  [totalForMonth(L, m)] is the sum, from 0 and in ledger
    order, of [Number(amount || 0)] over the entries [expensesForMonth(L, m)]
    selects, and is 0 when it selects none.  A number other than zero and
    [NaN] enters the sum as it is; any other amount enters as what
    [Number(amount || 0)] makes of it. *)
Theorem totalForMonth_spec (L : Ledger) (m : string) :
  totalForMonth L m
  = fold_left PrimFloat.add (map coercedAmount (expensesForMonth L m)) 0%float
  /\ (expensesForMonth L m = [] -> totalForMonth L m = 0%float)
  /\ (forall e x, Expense.amount e = VNum x -> JSNumber.truthy x = true ->
                  coercedAmount e = x)
  /\ (forall e, JSValue.ToBoolean (Expense.amount e) = false ->
                coercedAmount e = 0%float).
Proof.
  split; [|split; [|split]].
  - unfold totalForMonth. cbv zeta.
    apply (fold_left_map PrimFloat.add coercedAmount).
  - unfold totalForMonth. intros ->. reflexivity.
  - intros e x He Hx. unfold coercedAmount, JSValue.or. rewrite He. cbn.
    rewrite Hx. reflexivity.
  - intros e He. unfold coercedAmount, JSValue.or. rewrite He. reflexivity.
Qed.

(* ===================================================================== *)
(** ** Summary dispatcher: the text of the summary *)
(* ===================================================================== *)

(** The character [c] does not occur in [s]. *)
Fixpoint noChar (c : ascii) (s : string) : bool :=
  match s with
  | EmptyString => true
  | String a r => negb (Ascii.eqb a c) && noChar c r
  end.

Definition isDigit (c : ascii) : bool :=
  match JSNumber.decDigit c with
  | Some _ => true
  | None => false
  end.

Lemma append_nil_l (s : string) : "" +:+ s = s.
Proof. reflexivity. Qed.

Lemma append_cons (c : ascii) (a s : string) : String c a +:+ s = String c (a +:+ s).
Proof. reflexivity. Qed.

Lemma split_noChar (sep : ascii) (s : string) :
  noChar sep s = true -> JSString.split sep s = [s].
Proof.
  induction s as [|a s IH]; cbn -[Ascii.eqb]; intros H; [reflexivity|].
  apply andb_prop in H as [Ha Hs]. apply negb_true_iff in Ha.
  rewrite Ha, (IH Hs). reflexivity.
Qed.

Lemma split_app (sep : ascii) (a b : string) :
  noChar sep a = true ->
  JSString.split sep (a +:+ String sep b) = a :: JSString.split sep b.
Proof.
  induction a as [|c a IH]; intros H.
  - rewrite append_nil_l. cbn -[Ascii.eqb]. rewrite Ascii.eqb_refl. reflexivity.
  - cbn -[Ascii.eqb] in H. apply andb_prop in H as [Hc Ha]. apply negb_true_iff in Hc.
    rewrite append_cons. cbn -[Ascii.eqb]. rewrite Hc, (IH Ha). reflexivity.
Qed.

(** For a key [yr-mon] the rendering is [mon/yr]. *)
Lemma humanMonth_key (yr mon : string) :
  noChar "-" yr = true -> noChar "-" mon = true ->
  humanMonth (yr +:+ "-" +:+ mon) = mon +:+ "/" +:+ yr.
Proof.
  intros Hy Hm. unfold humanMonth.
  change ("-" +:+ mon) with (String "-" mon).
  rewrite (split_app "-" yr mon Hy), (split_noChar "-" mon Hm). reflexivity.
Qed.

Lemma noChar_app (c : ascii) (a b : string) :
  noChar c (a +:+ b) = noChar c a && noChar c b.
Proof.
  induction a as [|x a IH]; [reflexivity|].
  rewrite append_cons. cbn. rewrite IH. apply andb_assoc.
Qed.

Lemma noChar_list (c : ascii) (l : list ascii) :
  noChar c (string_of_list_ascii l) = forallb (fun a => negb (Ascii.eqb a c)) l.
Proof. induction l as [|a l IH]; cbn; [reflexivity | by rewrite IH]. Qed.

Lemma noChar_string (c : ascii) (s : string) :
  noChar c s = forallb (fun a => negb (Ascii.eqb a c)) (list_ascii_of_string s).
Proof. induction s as [|a s IH]; cbn; [reflexivity | by rewrite IH]. Qed.

Lemma forallb_rev {A} (f : A -> bool) (l : list A) :
  forallb f (rev l) = forallb f l.
Proof.
  induction l as [|a l IH]; cbn; [reflexivity|].
  rewrite forallb_app, IH. cbn. rewrite andb_true_r. apply andb_comm.
Qed.

Lemma forallb_groupRev (f : ascii -> bool) (l : list ascii) :
  f ","%char = true ->
  forall k, forallb f (JSNumber.groupRev l k) = forallb f l.
Proof.
  intros Hc. induction l as [|a l IH]; intros k; [reflexivity|].
  destruct k as [|[|[|[|k]]]]; cbn; rewrite ?Hc, IH; reflexivity.
Qed.

Lemma noChar_group3 (c : ascii) (s : string) :
  Ascii.eqb ","%char c = false ->
  noChar c (JSNumber.group3 s) = noChar c s.
Proof.
  intros Hc. unfold JSNumber.group3.
  rewrite noChar_list, forallb_rev, forallb_groupRev, forallb_rev, <- noChar_string.
  - reflexivity.
  - by rewrite Hc.
Qed.

Lemma noDot_uint (u : Decimal.uint) : noChar "." (NilEmpty.string_of_uint u) = true.
Proof. induction u; cbn; auto. Qed.

Lemma noDot_ofInteger (n : Z) : noChar "." (JSString.ofInteger n) = true.
Proof.
  unfold JSString.ofInteger, NilZero.string_of_int, NilZero.string_of_uint.
  destruct (Z.to_int n) as [u|u]; destruct u; cbn; auto using noDot_uint.
Qed.

Definition twoDigits (s : string) : bool :=
  match s with
  | String d1 (String d2 EmptyString) => isDigit d1 && isDigit d2
  | _ => false
  end.

Lemma twoDigits_below_100 :
  forallb (fun r => twoDigits (JSString.padStart (JSString.ofInteger (Z.of_nat r)) 2 "0"))
          (seq 0 100) = true.
Proof. vm_compute. reflexivity. Qed.

Lemma twoDigits_range (r : Z) :
  0 <= r < 100 ->
  twoDigits (JSString.padStart (JSString.ofInteger r) 2 "0") = true.
Proof.
  intros Hr. pose proof twoDigits_below_100 as H.
  rewrite forallb_forall in H.
  specialize (H (Z.to_nat r)).
  rewrite Z2Nat.id in H by lia. apply H.
  apply in_seq. lia.
Qed.

Lemma twoDigits_mod (v : Z) :
  twoDigits (JSString.padStart (JSString.ofInteger (v mod 100)) 2 "0") = true.
Proof. apply twoDigits_range, Z.mod_pos_bound. reflexivity. Qed.

(** The shape of a number printed with two fraction digits: a part with
    no ["."], then ["."], then two digits. *)
Lemma fixedDigits_shape (neg : bool) (v : Z) :
  exists whole d1 d2,
    JSNumber.fixedDigits 2 neg v = whole +:+ "." +:+ String d1 (String d2 "")
    /\ noChar "." whole = true /\ isDigit d1 = true /\ isDigit d2 = true.
Proof.
  unfold JSNumber.fixedDigits.
  change (10 ^ Z.of_nat 2) with 100.
  pose proof (twoDigits_mod v) as Ht.
  destruct (JSString.padStart (JSString.ofInteger (v mod 100)) 2 "0")
    as [|d1 [|d2 [|? ?]]]; try discriminate.
  cbn in Ht. apply andb_prop in Ht as [H1 H2].
  exists ((if neg then "-" else "") +:+ JSNumber.group3 (JSString.ofInteger (v / 100))), d1, d2.
  split; [|split; [|split]]; auto.
  - clear. set (w := JSNumber.group3 _). destruct neg; reflexivity.
  - rewrite noChar_app, noChar_group3, noDot_ofInteger by reflexivity.
    destruct neg; reflexivity.
Qed.

(** *** The digits of the total *)

Section ShortestDecimal.

Import JSNumber.

Lemma gridUnit_pos (e p : Z) : 0 < gridUnit e p.
Proof. unfold gridUnit. apply Z.mul_pos_pos; apply Z.pow_pos_nonneg; lia. Qed.

Lemma gridDen_pos (e p : Z) : 0 < gridDen e p.
Proof. unfold gridDen. apply Z.mul_pos_pos; apply Z.pow_pos_nonneg; lia. Qed.

(** [roundsTo] as inequalities between [4 g d] and the ends of the
    interval, [lower < 4 m u < upper]. *)
Definition lowerEnd (m : positive) (e p : Z) : Z :=
  4 * Zpos m * gridUnit e p
  - (if (Zpos m =? 2 ^ 52) && (-1074 <? e) then gridUnit e p else 2 * gridUnit e p).

Definition upperEnd (m : positive) (e p : Z) : Z :=
  4 * Zpos m * gridUnit e p + 2 * gridUnit e p.

Lemma roundsTo_spec (m : positive) (e p g : Z) :
  roundsTo m e p g = true
  <-> if Z.even (Zpos m)
      then lowerEnd m e p <= 4 * g * gridDen e p <= upperEnd m e p
      else lowerEnd m e p < 4 * g * gridDen e p < upperEnd m e p.
Proof.
  unfold roundsTo, lowerEnd, upperEnd. cbv zeta.
  destruct (Z.even (Zpos m)); rewrite andb_true_iff;
    rewrite ?Z.leb_le, ?Z.ltb_lt; reflexivity.
Qed.

Lemma ends_around (m : positive) (e p : Z) :
  0 < lowerEnd m e p < 4 * Zpos m * gridUnit e p
  /\ 4 * Zpos m * gridUnit e p < upperEnd m e p.
Proof.
  unfold lowerEnd, upperEnd. pose proof (gridUnit_pos e p) as Hu.
  destruct ((Zpos m =? 2 ^ 52) && (-1074 <? e)); nia.
Qed.

(** A decimal that rounds to a positive number is positive. *)
Lemma roundsTo_pos (m : positive) (e p g : Z) : roundsTo m e p g = true -> 0 < g.
Proof.
  rewrite roundsTo_spec. pose proof (ends_around m e p) as [[Hl _] _].
  pose proof (gridDen_pos e p) as Hd.
  destruct (Z.even (Zpos m)); intros [H _]; nia.
Qed.

(** The number itself, when it lies on the grid, rounds to itself. *)
Lemma roundsTo_self (m : positive) (e p g : Z) :
  g * gridDen e p = Zpos m * gridUnit e p -> roundsTo m e p g = true.
Proof.
  intros H. apply roundsTo_spec. pose proof (ends_around m e p) as [[_ Hl] Hu].
  replace (4 * g * gridDen e p) with (4 * Zpos m * gridUnit e p) by lia.
  destruct (Z.even (Zpos m)); lia.
Qed.

(** On the last grid the number is a grid point. *)
Lemma lastGrid_exact (m : positive) (e : Z) :
  let p := lastGrid e in
  (Zpos m * gridUnit e p / gridDen e p) * gridDen e p = Zpos m * gridUnit e p.
Proof.
  cbv zeta. unfold lastGrid, gridUnit, gridDen.
  destruct (Z.le_gt_cases 0 e) as [He|He].
  - replace (Z.max 0 (- e)) with 0 by lia.
    change (2 ^ 0 * 10 ^ Z.max 0 (- 0)) with 1.
    rewrite Z.div_1_r. lia.
  - repeat rewrite (Z.max_r 0 (- e)) by lia.
    replace (Z.max 0 e) with 0 by lia.
    replace (Z.max 0 (- - e)) with 0 by lia.
    change (2 ^ 0) with 1. change (10 ^ 0) with 1.
    rewrite Z.mul_1_l, Z.mul_1_r.
    change 10 with (5 * 2). rewrite Z.pow_mul_l.
    rewrite Z.mul_assoc. rewrite Z.div_mul; [reflexivity|].
    apply Z.pow_nonzero; lia.
Qed.

(** The grid points next to the number. *)
Lemma neighbours (m : positive) (e p : Z) :
  let n := Zpos m * gridUnit e p in
  let d := gridDen e p in
  (n / d) * d <= n < (n / d + 1) * d.
Proof.
  cbv zeta. pose proof (gridDen_pos e p) as Hd.
  pose proof (Z.mul_div_le (Zpos m * gridUnit e p) _ Hd).
  pose proof (Z.mul_succ_div_gt (Zpos m * gridUnit e p) _ Hd). lia.
Qed.

(** The decimals of a grid that round to the number are consecutive grid
    points around it: with one of them, the neighbour of the number on
    its side rounds to the number too. *)
Lemma roundsTo_below (m : positive) (e p h : Z) :
  roundsTo m e p h = true ->
  h <= Zpos m * gridUnit e p / gridDen e p ->
  roundsTo m e p (Zpos m * gridUnit e p / gridDen e p) = true.
Proof.
  rewrite !roundsTo_spec. intros H Hh.
  pose proof (neighbours m e p) as [Hlo _]. cbv zeta in Hlo.
  pose proof (ends_around m e p) as [_ Hu]. pose proof (gridDen_pos e p) as Hd.
  set (lo := Zpos m * gridUnit e p / gridDen e p) in *.
  assert (h * gridDen e p <= lo * gridDen e p) by (apply Z.mul_le_mono_nonneg_r; lia).
  destruct (Z.even (Zpos m)); lia.
Qed.

Lemma roundsTo_above (m : positive) (e p h : Z) :
  roundsTo m e p h = true ->
  Zpos m * gridUnit e p / gridDen e p + 1 <= h ->
  roundsTo m e p (Zpos m * gridUnit e p / gridDen e p + 1) = true.
Proof.
  rewrite !roundsTo_spec. intros H Hh.
  pose proof (neighbours m e p) as [_ Hhi]. cbv zeta in Hhi.
  pose proof (ends_around m e p) as [[_ Hl] _]. pose proof (gridDen_pos e p) as Hd.
  set (lo := Zpos m * gridUnit e p / gridDen e p) in *.
  assert ((lo + 1) * gridDen e p <= h * gridDen e p) by (apply Z.mul_le_mono_nonneg_r; lia).
  destruct (Z.even (Zpos m)); lia.
Qed.

Lemma candidate_sound (m : positive) (e p g : Z) :
  candidate m e p = Some g -> roundsTo m e p g = true.
Proof.
  unfold candidate.
  destruct (roundsTo m e p (Zpos m * gridUnit e p / gridDen e p)) eqn:Hlo;
    destruct (roundsTo m e p (Zpos m * gridUnit e p / gridDen e p + 1)) eqn:Hhi;
    try discriminate.
  - destruct (_ ?= _); [destruct (Z.even _)| |]; intros [= <-]; assumption.
  - intros [= <-]; assumption.
  - intros [= <-]; assumption.
Qed.

Lemma candidate_complete (m : positive) (e p h : Z) :
  candidate m e p = None -> roundsTo m e p h = false.
Proof.
  intros Hc. destruct (roundsTo m e p h) eqn:Hh; [exfalso|reflexivity].
  unfold candidate in Hc.
  destruct (Z.le_gt_cases h (Zpos m * gridUnit e p / gridDen e p)) as [Hle|Hgt].
  - rewrite (roundsTo_below m e p h Hh Hle) in Hc.
    destruct (roundsTo _ _ _ _); [destruct (_ ?= _)|]; discriminate.
  - rewrite (roundsTo_above m e p h Hh ltac:(lia)) in Hc.
    destruct (roundsTo _ _ _ _); [destruct (_ ?= _)|]; discriminate.
Qed.

(** The candidate is the nearest to the number of the decimals of its
    grid that round to it. *)
Lemma candidate_nearest (m : positive) (e p g h : Z) :
  candidate m e p = Some g ->
  roundsTo m e p h = true ->
  Z.abs (g * gridDen e p - Zpos m * gridUnit e p)
  <= Z.abs (h * gridDen e p - Zpos m * gridUnit e p).
Proof.
  intros Hc Hh. unfold candidate in Hc.
  pose proof (neighbours m e p) as [Hlo Hhi]. cbv zeta in Hlo, Hhi.
  pose proof (gridDen_pos e p) as Hd.
  pose proof (roundsTo_below m e p h Hh) as Hb.
  pose proof (roundsTo_above m e p h Hh) as Ha.
  set (n := Zpos m * gridUnit e p) in *. set (d := gridDen e p) in *.
  set (lo := n / d) in *.
  assert (Hcase : h <= lo /\ h * d <= lo * d \/ lo + 1 <= h /\ (lo + 1) * d <= h * d).
  { destruct (Z.le_gt_cases h lo); [left | right];
      (split; [lia | apply Z.mul_le_mono_nonneg_r; lia]). }
  destruct (roundsTo m e p lo) eqn:Rlo; destruct (roundsTo m e p (lo + 1)) eqn:Rhi;
    try discriminate.
  - destruct (2 * n ?= (2 * lo + 1) * d) eqn:Hcmp.
    + apply Z.compare_eq in Hcmp.
      destruct (Z.even lo); injection Hc as <-; destruct Hcase as [[? ?]|[? ?]]; lia.
    + rewrite Z.compare_lt_iff in Hcmp.
      injection Hc as <-; destruct Hcase as [[? ?]|[? ?]]; lia.
    + rewrite Z.compare_gt_iff in Hcmp.
      injection Hc as <-; destruct Hcase as [[? ?]|[? ?]]; lia.
  - injection Hc as <-. destruct Hcase as [[? ?]|[? ?]]; [lia|].
    specialize (Ha ltac:(lia)). discriminate.
  - injection Hc as <-. destruct Hcase as [[? ?]|[? ?]]; [|lia].
    specialize (Hb ltac:(lia)). discriminate.
Qed.

Lemma candidate_last (m : positive) (e : Z) : candidate m e (lastGrid e) <> None.
Proof.
  unfold candidate.
  rewrite (roundsTo_self m e (lastGrid e) _ (lastGrid_exact m e)).
  destruct (roundsTo _ _ _ _); [destruct (_ ?= _)|]; discriminate.
Qed.

Lemma shortestFrom_spec (m : positive) (e : Z) (fuel : nat) (p : Z) :
  p + Z.of_nat fuel = lastGrid e ->
  let '(g, q) := shortestFrom fuel m e p in
  candidate m e q = Some g
  /\ p <= q
  /\ forall q', p <= q' < q -> candidate m e q' = None.
Proof.
  revert p. induction fuel as [|f IH]; intros p Hp; cbn [shortestFrom].
  - destruct (candidate m e p) as [g|] eqn:Hc.
    + split; [exact Hc|]. split; [lia|]. intros q' Hq. lia.
    + exfalso. replace p with (lastGrid e) in Hc by lia. exact (candidate_last m e Hc).
  - destruct (candidate m e p) as [g|] eqn:Hc.
    + split; [exact Hc|]. split; [lia|]. intros q' Hq. lia.
    + specialize (IH (p + 1) ltac:(lia)).
      destruct (shortestFrom f m e (p + 1)) as [g q].
      destruct IH as (Hg & Hq & Hmin). split; [exact Hg|]. split; [lia|].
      intros q' Hq'. destruct (Z.eq_dec q' p) as [->|Hne]; [exact Hc|].
      apply Hmin. lia.
Qed.

End ShortestDecimal.

Section FirstGrid.

Import JSNumber.

Lemma pow8_le_pow10 (k : Z) : 0 <= k -> 2 ^ (3 * k) <= 10 ^ k.
Proof.
  intros Hk. rewrite Z.pow_mul_r by lia. change (2 ^ 3) with 8.
  apply Z.pow_le_mono_l. lia.
Qed.

Lemma pow10_le_pow2 (k j : Z) : 0 <= k -> 10 * k <= 3 * j -> 10 ^ k <= 2 ^ j.
Proof.
  intros Hk Hj. destruct (Z.le_gt_cases (10 ^ k) (2 ^ j)) as [H|H]; [exact H|exfalso].
  assert (H0 : 0 <= 2 ^ j) by (apply Z.pow_nonneg; lia).
  assert (H3 : (2 ^ j) ^ 3 < (10 ^ k) ^ 3) by (apply Z.pow_lt_mono_l; lia).
  rewrite <- !Z.pow_mul_r in H3 by lia.
  assert (H1 : 2 ^ (10 * k) <= 2 ^ (j * 3)) by (apply Z.pow_le_mono_r; lia).
  assert (H2 : 10 ^ (k * 3) <= 2 ^ (10 * k)).
  { rewrite (Z.mul_comm k 3), !Z.pow_mul_r by lia.
    apply Z.pow_le_mono_l. split; [lia|]. change (10 ^ 3) with 1000. change (2 ^ 10) with 1024. lia. }
  lia.
Qed.

Lemma firstGrid_le_lastGrid (m : positive) (e : Z) : firstGrid m e <= lastGrid e.
Proof.
  unfold firstGrid, lastGrid. cbv zeta.
  pose proof (Z.log2_nonneg (Zpos m)) as Hb.
  destruct (Z.leb_spec 0 (Z.log2 (Zpos m) + 1 + e)) as [Hl|Hl].
  - assert (0 <= (Z.log2 (Zpos m) + 1 + e + 2) / 3) by (apply Z.div_pos; lia). lia.
  - assert (3 * - (Z.log2 (Zpos m) + 1 + e) / 10 <= - (Z.log2 (Zpos m) + 1 + e)).
    { apply Z.div_le_upper_bound; lia. }
    lia.
Qed.

(** No decimal on a grid coarser than the first rounds to the number. *)
Lemma roundsTo_firstGrid (m : positive) (e p g : Z) :
  roundsTo m e p g = true -> firstGrid m e <= p.
Proof.
  intros Hr. pose proof (roundsTo_pos m e p g Hr) as Hg.
  apply roundsTo_spec in Hr.
  assert (Hup : 4 * g * gridDen e p <= upperEnd m e p)
    by (destruct (Z.even (Zpos m)); lia).
  clear Hr. unfold upperEnd in Hup.
  pose proof (gridDen_pos e p) as Hd. pose proof (gridUnit_pos e p) as Hu.
  pose proof (Z.log2_nonneg (Zpos m)) as Hb.
  pose proof (Z.log2_spec (Zpos m) ltac:(lia)) as [_ Hm].
  rewrite <- Z.add_1_r in Hm.
  set (b := Z.log2 (Zpos m) + 1) in *.
  (* the grid step is below [2^b * x] *)
  assert (Hstar : gridDen e p < 2 ^ b * gridUnit e p) by nia.
  clear Hup Hg g.
  destruct (Z.le_gt_cases (firstGrid m e) p) as [H|H]; [exact H|exfalso].
  unfold firstGrid in H. cbv zeta in H. fold b in H.
  unfold gridDen, gridUnit in Hstar.
  destruct (Z.leb_spec 0 (b + e)) as [Hl|Hl].
  - (* [2^(b+e) <= 10^q] while the step is at least [10^(q+1)] *)
    set (q := (b + e + 2) / 3) in *.
    assert (Hq : b + e <= 3 * q /\ 0 <= q).
    { subst q. split; [|apply Z.div_pos; lia].
      pose proof (Z.mul_succ_div_gt (b + e + 2) 3 ltac:(lia)). lia. }
    replace (Z.max 0 p) with 0 in Hstar by lia.
    replace (Z.max 0 (- p)) with (- p) in Hstar by lia.
    change (10 ^ 0) with 1 in Hstar. rewrite Z.mul_1_r in Hstar.
    assert (H10 : 2 ^ (3 * (q + 1)) <= 10 ^ (- p)).
    { etransitivity; [apply pow8_le_pow10; lia|]. apply Z.pow_le_mono_r; lia. }
    assert (H2 : 2 ^ b * 2 ^ Z.max 0 e <= 2 ^ Z.max 0 (- e) * 2 ^ (3 * (q + 1))).
    { rewrite <- !Z.pow_add_r by lia. apply Z.pow_le_mono_r; lia. }
    assert (0 < 2 ^ Z.max 0 (- e)) by (apply Z.pow_pos_nonneg; lia).
    nia.
  - set (k := 3 * - (b + e) / 10) in *.
    assert (Hk : 10 * k <= 3 * - (b + e) /\ 0 <= k).
    { subst k. split; [apply Z.mul_div_le; lia | apply Z.div_pos; lia]. }
    replace (Z.max 0 e) with 0 in Hstar by lia.
    replace (Z.max 0 (- e)) with (b + - (b + e)) in Hstar by lia.
    change (2 ^ 0) with 1 in Hstar. rewrite Z.mul_1_l in Hstar.
    rewrite Z.pow_add_r in Hstar by lia.
    assert (Hb2 : 0 < 2 ^ b) by (apply Z.pow_pos_nonneg; lia).
    destruct (Z.le_gt_cases 0 p) as [Hp|Hp].
    + replace (Z.max 0 (- p)) with 0 in Hstar by lia.
      replace (Z.max 0 p) with p in Hstar by lia.
      change (10 ^ 0) with 1 in Hstar. rewrite Z.mul_1_r in Hstar.
      assert (H10 : 10 ^ p <= 10 ^ k) by (apply Z.pow_le_mono_r; lia).
      pose proof (pow10_le_pow2 k (- (b + e)) ltac:(lia) ltac:(lia)).
      nia.
    + replace (Z.max 0 p) with 0 in Hstar by lia.
      change (10 ^ 0) with 1 in Hstar. rewrite Z.mul_1_r in Hstar.
      assert (1 <= 10 ^ Z.max 0 (- p))
        by (pose proof (Z.pow_pos_nonneg 10 (Z.max 0 (- p))); lia).
      assert (2 <= 2 ^ (- (b + e)))
        by (change 2 with (2 ^ 1) at 1; apply Z.pow_le_mono_r; lia).
      assert (2 ^ b * 2 <= 2 ^ b * (2 ^ (- (b + e)) * 10 ^ Z.max 0 (- p)))
        by (apply Z.mul_le_mono_nonneg_l; nia).
      lia.
Qed.

End FirstGrid.

(** [g * 10^-p] is the shortest decimal of [m * 2^e]: it rounds to the
    number, no decimal on a coarser grid does, and of the decimals of
    its grid that do it is the nearest to the number. *)
Definition isShortest (m : positive) (e g p : Z) : Prop :=
  JSNumber.roundsTo m e p g = true
  /\ (forall q h, q < p -> JSNumber.roundsTo m e q h = false)
  /\ (forall h, JSNumber.roundsTo m e p h = true ->
        Z.abs (g * JSNumber.gridDen e p - Zpos m * JSNumber.gridUnit e p)
        <= Z.abs (h * JSNumber.gridDen e p - Zpos m * JSNumber.gridUnit e p)).

Lemma shortest_isShortest (m : positive) (e : Z) :
  let '(g, p) := JSNumber.shortest m e in isShortest m e g p.
Proof.
  unfold JSNumber.shortest.
  pose proof (firstGrid_le_lastGrid m e) as Hfl.
  pose proof (shortestFrom_spec m e
                (Z.to_nat (JSNumber.lastGrid e - JSNumber.firstGrid m e))
                (JSNumber.firstGrid m e)) as H.
  rewrite Z2Nat.id in H by lia. specialize (H ltac:(lia)).
  destruct (JSNumber.shortestFrom _ m e _) as [g p].
  destruct H as (Hc & Hp & Hmin). split; [|split].
  - exact (candidate_sound m e p g Hc).
  - intros q h Hq. destruct (Z.le_gt_cases (JSNumber.firstGrid m e) q) as [Hf|Hf].
    + apply candidate_complete, Hmin. lia.
    + destruct (JSNumber.roundsTo m e q h) eqn:Hr; [|reflexivity].
      apply roundsTo_firstGrid in Hr. lia.
  - intros h Hh. exact (candidate_nearest m e p g h Hc Hh).
Qed.

(** [c] is [100 * g * 10^-p] rounded to an integer, a half upwards:
    [c - 1/2 <= 100 * g * 10^-p < c + 1/2]. *)
Definition isCents (g p c : Z) : Prop :=
  let a := 10 ^ Z.max 0 (2 - p) in
  let b := 10 ^ Z.max 0 (p - 2) in
  2 * c * b - b <= 2 * g * a < 2 * c * b + b.

Lemma roundHalfExpand_isCents (g p : Z) : isCents g p (JSNumber.roundHalfExpand 2 g p).
Proof.
  unfold isCents, JSNumber.roundHalfExpand. cbv zeta.
  change (Z.of_nat 2) with 2.
  destruct (Z.leb_spec (p - 2) 0) as [Hk|Hk].
  - replace (Z.max 0 (p - 2)) with 0 by lia. replace (Z.max 0 (2 - p)) with (- (p - 2)) by lia.
    change (10 ^ 0) with 1. lia.
  - replace (Z.max 0 (p - 2)) with (p - 2) by lia. replace (Z.max 0 (2 - p)) with 0 by lia.
    change (10 ^ 0) with 1.
    assert (Hden : 0 < 10 ^ (p - 2)) by (apply Z.pow_pos_nonneg; lia).
    pose proof (Z.div_mod g (10 ^ (p - 2)) ltac:(lia)) as Hdm.
    pose proof (Z.mod_pos_bound g (10 ^ (p - 2)) Hden) as Hr.
    destruct (Z.leb_spec (10 ^ (p - 2)) (2 * (g mod 10 ^ (p - 2)))); nia.
Qed.

Lemma isCents_nonneg (g p c : Z) : 0 < g -> isCents g p c -> 0 <= c.
Proof.
  unfold isCents. cbv zeta. intros Hg [_ H].
  assert (0 < 10 ^ Z.max 0 (2 - p)) by (apply Z.pow_pos_nonneg; lia).
  assert (0 < 10 ^ Z.max 0 (p - 2)) by (apply Z.pow_pos_nonneg; lia).
  nia.
Qed.

Definition signText (s : bool) : string := if s then "-" else "".

(** The text of [c] hundredths in the en-US convention: the whole part
    in groups of three digits, a point, two digits. *)
Definition centsText (s : bool) (c : Z) : string :=
  signText s +:+ JSNumber.group3 (JSString.ofInteger (c / 100)) +:+ "."
  +:+ JSString.padStart (JSString.ofInteger (c mod 100)) 2 "0".

(** What [formatCurrency] makes of a number: [NaN] and the infinities
    have a text of their own, without decimals; any other number is
    printed as the hundredths nearest to its shortest decimal. *)
Definition printsAs (x : float) (text : string) : Prop :=
  match Prim2SF x with
  | S754_nan => text = "NaN"
  | S754_infinity s => text = signText s +:+ "∞"
  | S754_zero s => text = centsText s 0
  | S754_finite s m e =>
      exists g p c,
        isShortest m e g p /\ isCents g p c /\ 0 <= c /\ text = centsText s c
  end.

Lemma formatCurrency_printsAs (x : float) : printsAs x (formatCurrency (VNum x)).
Proof.
  unfold printsAs, formatCurrency, JSNumber.toLocaleStringFixed, JSValue.Number.
  destruct (Prim2SF x) as [s|s| |s m e]; try reflexivity.
  pose proof (shortest_isShortest m e) as Hs.
  destruct (JSNumber.shortest m e) as [g p].
  exists g, p, (JSNumber.roundHalfExpand 2 g p).
  pose proof (roundHalfExpand_isCents g p) as Hc.
  split; [exact Hs|]. split; [exact Hc|]. split; [|reflexivity].
  apply (isCents_nonneg g p); [|exact Hc].
  destruct Hs as [Hr _]. exact (roundsTo_pos m e p g Hr).
Qed.

Lemma centsText_shape (s : bool) (c : Z) :
  exists whole d1 d2,
    centsText s c = whole +:+ "." +:+ String d1 (String d2 "")
    /\ noChar "." whole = true /\ isDigit d1 = true /\ isDigit d2 = true.
Proof. exact (fixedDigits_shape s c). Qed.

(** *** Month keys as [monthKeyFromDate] builds them *)

(** The month is between 1 and 12 and the day between 1 and 31. *)
Lemma civil_range (day : Z) :
  let '(_, m, d) := JSDate.civil day in 1 <= m <= 12 /\ 1 <= d <= 31.
Proof.
  unfold JSDate.civil.
  set (z := day + 719468).
  set (era := z / 146097).
  set (doe := z - era * 146097).
  assert (Hdoe : 0 <= doe <= 146096).
  { subst doe era.
    pose proof (Z.div_mod z 146097 ltac:(lia)).
    pose proof (Z.mod_pos_bound z 146097 ltac:(lia)). lia. }
  clearbody doe. clear z era.
  set (yoe := (doe - doe / 1460 + doe / 36524 - doe / 146096) / 365).
  set (doy := doe - (365 * yoe + yoe / 4 - yoe / 100)).
  assert (Hdoy : 0 <= doy <= 365).
  { subst doy yoe. Z.to_euclidean_division_equations; lia. }
  clearbody doy. clear Hdoe.
  set (mp := (5 * doy + 2) / 153).
  assert (Hmp : 0 <= mp <= 11)
    by (subst mp; Z.to_euclidean_division_equations; lia).
  assert (Hd : 1 <= doy - (153 * mp + 2) / 5 + 1 <= 31)
    by (subst mp; Z.to_euclidean_division_equations; lia).
  clearbody mp.
  destruct (mp <? 10) eqn:E; [apply Z.ltb_lt in E | apply Z.ltb_ge in E];
    split; lia.
Qed.

Lemma MonthFromTime_range (t : Z) : 0 <= JSDate.MonthFromTime t <= 11.
Proof.
  unfold JSDate.MonthFromTime.
  pose proof (civil_range (JSDate.Day t)) as H.
  destruct (JSDate.civil (JSDate.Day t)) as [[y m] d]. cbn. lia.
Qed.

Lemma isDigit_not_dash (c : ascii) : isDigit c = true -> Ascii.eqb c "-" = false.
Proof.
  destruct c as [[] [] [] [] [] [] [] []]; vm_compute; intros; congruence.
Qed.

Lemma twoDigits_noDash (s : string) : twoDigits s = true -> noChar "-" s = true.
Proof.
  destruct s as [|d1 [|d2 [|? ?]]]; try discriminate. cbn -[Ascii.eqb].
  intros H. apply andb_prop in H as [H1 H2].
  rewrite (isDigit_not_dash d1 H1), (isDigit_not_dash d2 H2). reflexivity.
Qed.

Lemma noDash_uint (u : Decimal.uint) : noChar "-" (NilEmpty.string_of_uint u) = true.
Proof. induction u; cbn; auto. Qed.

Lemma noDash_ofInteger (n : Z) : 0 <= n -> noChar "-" (JSString.ofInteger n) = true.
Proof.
  intros Hn. unfold JSString.ofInteger, NilZero.string_of_int, NilZero.string_of_uint.
  destruct n as [|p|p]; [reflexivity| |lia].
  cbn [Z.to_int]. destruct (Pos.to_uint p); cbn; auto using noDash_uint.
Qed.

(** From year 0 on, a month key is the year, ["-"], and two digits. *)
Lemma monthKeyFromDate_shape (tza : Z -> Z) (d : Z) :
  0 <= JSDate.getFullYear tza d ->
  exists yr mon,
    monthKeyFromDate tza d = yr +:+ "-" +:+ mon
    /\ noChar "-" yr = true /\ twoDigits mon = true /\ noChar "-" mon = true.
Proof.
  intros Hy. unfold monthKeyFromDate.
  set (mon := JSString.padStart _ 2 "0").
  assert (Hmon : twoDigits mon = true).
  { subst mon. apply twoDigits_range. unfold JSDate.getMonth.
    pose proof (MonthFromTime_range (JSDate.LocalTime tza d)). lia. }
  exists (JSString.ofInteger (JSDate.getFullYear tza d)), mon.
  split; [reflexivity|]. split; [by apply noDash_ofInteger|].
  split; [exact Hmon | by apply twoDigits_noDash].
Qed.

(** C9, as amended.  The summary text is a function of the month key and
    the total: the fixed label, the key [yr-mon] rendered as [mon/yr], the
    label of the total and the total as [formatCurrency] prints it.  A
    total that is a finite number is printed in the en-US convention, with
    a point and exactly two digits after it, and the hundredths printed
    are those nearest to the shortest decimal that reads back as the
    total, a half rounded away from zero; [NaN] and the infinities are
    printed as [NaN] and [∞], without decimals.  For ["2025-08"] and
    120.50 the text contains ["08/2025"] and ["120.50"]. *)
Theorem summary_text (yr mon : string) (total : float) :
  noChar "-" yr = true ->
  noChar "-" mon = true ->
  buildSummaryText (yr +:+ "-" +:+ mon) total
  = FIXED_WHATSAPP_MESSAGE_PREFIX +:+ " " +:+ (mon +:+ "/" +:+ yr) +:+ newline
    +:+ SUMMARY_TOTAL_LABEL +:+ formatCurrency (VNum total) +:+ newline
    +:+ SUMMARY_FOOTER
  /\ printsAs total (formatCurrency (VNum total))
  /\ (JSNumber.isFinite total = true ->
      exists whole d1 d2,
        formatCurrency (VNum total) = whole +:+ "." +:+ String d1 (String d2 "")
        /\ noChar "." whole = true /\ isDigit d1 = true /\ isDigit d2 = true)
  /\ JSString.includes (buildSummaryText "2025-08" 120.5) "08/2025" = true
  /\ JSString.includes (buildSummaryText "2025-08" 120.5) "120.50" = true.
Proof.
  intros Hy Hm. split; [|split; [|split; [|split; vm_compute; reflexivity]]].
  - unfold buildSummaryText. rewrite (humanMonth_key yr mon Hy Hm). reflexivity.
  - apply formatCurrency_printsAs.
  - intros Hf. pose proof (formatCurrency_printsAs total) as Hp.
    unfold printsAs in Hp. unfold JSNumber.isFinite in Hf.
    destruct (Prim2SF total) as [s|s| |s m e]; try discriminate.
    + rewrite Hp. apply centsText_shape.
    + destruct Hp as (g & p & c & _ & _ & _ & ->). apply centsText_shape.
Qed.

(** C9, at the month ["2025-08"] and the total 120.50. *)
Lemma summary_text_witness :
  (noChar "-" "2025" = true /\ noChar "-" "08" = true)
  /\ buildSummaryText "2025-08" 120.5
     = FIXED_WHATSAPP_MESSAGE_PREFIX +:+ " 08/2025" +:+ newline
       +:+ SUMMARY_TOTAL_LABEL +:+ "120.50" +:+ newline +:+ SUMMARY_FOOTER
  /\ printsAs 120.5 "120.50".
Proof.
  split; [split; reflexivity|].
  split; [vm_compute; reflexivity|].
  exact (proj1 (proj2 (summary_text "2025" "08" 120.5 eq_refl eq_refl))).
Defined.

(** Two expenses of August 2025 whose sum is beyond the largest number. *)
Definition overflowLedger : Ledger :=
  [Expense.mk "1755684000000-b7q2mz" (VNum 0x1.1ccf385ebc8a0p+1023) "land" ""
              "2025-08-20T10:00:00.000Z";
   Expense.mk "1755252000000-k3x9ab" (VNum 0x1.1ccf385ebc8a0p+1023) "land" ""
              "2025-08-15T10:00:00.000Z"].

(** C9 as stated fails at a total that is no finite number: two amounts of
    1e308 add up to [Infinity], which is printed as [∞], and [NaN] is
    printed as [NaN]; neither text has a decimal. *)
Lemma summary_text_without_decimals :
  totalForMonth overflowLedger "2025-08" = infinity
  /\ buildSummaryText "2025-08" infinity
     = FIXED_WHATSAPP_MESSAGE_PREFIX +:+ " 08/2025" +:+ newline
       +:+ SUMMARY_TOTAL_LABEL +:+ "∞" +:+ newline +:+ SUMMARY_FOOTER
  /\ JSString.includes (buildSummaryText "2025-08" infinity) "." = false
  /\ formatCurrency (VNum nan) = "NaN".
Proof. vm_compute. repeat split; reflexivity. Qed.

(* ===================================================================== *)
(** ** The properties with a premise, at a concrete session *)
(* ===================================================================== *)

(** A host for the sessions below, three hours ahead of UTC.  What is
    stored under the ledger's key plays no part in them, so a stand-in for
    [JSON] that knows the empty ledger only will do. *)
Definition parseEmpty (text : string) : Outcome Ledger :=
  if String.eqb text "[]" then Ret [] else Throw SyntaxError.

Definition stringifyEmpty (L : Ledger) : string := "[]".

(** The summary for August was sent in August; the reminder is showing. *)
Definition augustWorld : World :=
  mkWorld {[ LAST_SENT_KEY := "2025-08" ]} true
          (State.mk [] "" "" "" "2025-09" true) false [].

(** 15 and 29 September 2025, 10:00 UTC. *)
Definition midSeptember : Z := 1757930400000.
Definition lateSeptember : Z := 1759140000000.

(** C1 at a marker of August and a session in September. *)
Lemma rollover_detector_witness :
  (marker augustWorld = Some "2025-08" /\ "2025-08" <> "")
  /\ reminderState
       (cells (step utcPlus3 parseEmpty stringifyEmpty (SessionStart midSeptember)
                    augustWorld))
     = REMINDER_PENDING.
Proof.
  split; [split; [vm_compute; reflexivity | discriminate]|].
  rewrite (rollover_detector utcPlus3 parseEmpty stringifyEmpty augustWorld
                             midSeptember).
  - vm_compute. reflexivity.
  - intros last H. vm_compute in H. injection H as <-. discriminate.
Defined.

(** C2 at a dispatch of the August summary in mid September, followed by
    a new session, an added expense and a second session late in September. *)
Lemma dispatch_marks_current_month_witness :
  canOpen augustWorld = true
  /\ marker (fst (handleSendMonthly utcPlus3 (cells augustWorld) (Some "2025-08")
                                    midSeptember augustWorld))
     = Some "2025-09"
  /\ reminderState
       (cells (step utcPlus3 parseEmpty stringifyEmpty (SessionStart lateSeptember)
                 (run utcPlus3 parseEmpty stringifyEmpty
                      [SessionStart midSeptember; ChangeAmount "10";
                       ChangeReason "taxi"; SubmitExpense midSeptember "k3x9ab"]
                      (fst (handleSendMonthly utcPlus3 (cells augustWorld)
                                              (Some "2025-08") midSeptember
                                              augustWorld)))))
     = NO_REMINDER.
Proof.
  split; [reflexivity|].
  destruct (dispatch_marks_current_month utcPlus3 parseEmpty stringifyEmpty
              (cells augustWorld) (Some "2025-08") midSeptember augustWorld eq_refl)
    as (_ & Hmarker & _ & Hlater).
  split; [exact Hmarker|].
  apply Hlater; [|vm_compute; reflexivity].
  repeat constructor; intros t [= <-]; vm_compute; reflexivity.
Defined.

(** C7 at a dismissal in mid September and a new session late in
    September, with some browsing in between. *)
Lemma dismiss_keeps_marker_witness :
  (marker augustWorld = Some "2025-08" /\ "2025-08" <> "")
  /\ marker (step utcPlus3 parseEmpty stringifyEmpty ClickDismiss augustWorld)
     = Some "2025-08"
  /\ reminderState
       (cells (step utcPlus3 parseEmpty stringifyEmpty (SessionStart lateSeptember)
                 (run utcPlus3 parseEmpty stringifyEmpty
                      [SelectMonth "2025-08"; ClickSendSelected midSeptember false]
                      (step utcPlus3 parseEmpty stringifyEmpty ClickDismiss
                            augustWorld))))
     = REMINDER_PENDING.
Proof.
  assert (Hm : marker augustWorld = Some "2025-08") by (vm_compute; reflexivity).
  assert (Hne : "2025-08" <> "") by discriminate.
  split; [split; assumption|].
  destruct (dismiss_keeps_marker utcPlus3 parseEmpty stringifyEmpty augustWorld
              "2025-08" Hm Hne) as (_ & _ & Hmarker & Hlater).
  split; [exact Hmarker|].
  apply Hlater; [reflexivity|].
  vm_compute. discriminate.
Defined.

(* ===================================================================== *)
(** * Further properties of the component *)
(* ===================================================================== *)

(** ** Sessions: what is in memory and what is stored *)

Section SessionFacts.

Variable LocalTZA : Z -> Z.
Variable JSON_parse : string -> Outcome Ledger.
Variable JSON_stringify : Ledger -> string.

Abbreviation stepS := (step LocalTZA JSON_parse JSON_stringify).
Abbreviation runS := (run LocalTZA JSON_parse JSON_stringify).
Abbreviation handleS := (handle LocalTZA JSON_parse JSON_stringify).

(** The ledger an event puts in the [expenses] cell, if it sets the cell. *)
Definition ledgerSet (ev : Event) (w : World) : option Ledger :=
  match ev with
  | SessionStart _ => Some (loaded JSON_parse [] (storage w !! STORAGE_KEY))
  | SubmitExpense now rnd =>
      if rejected (cells w) then None
      else Some (newItem (cells w) now rnd :: State.expenses (cells w))
  | ClickDelete id true =>
      Some (List.filter (fun x => negb (bool_decide (Expense.id x = id)))
                        (State.expenses (cells w)))
  | _ => None
  end.

Lemma runEffects_clean (w : World) :
  expensesChanged w = false -> runEffects JSON_stringify w = (w, Ret tt).
Proof. intros H. unfold runEffects. rewrite H. reflexivity. Qed.

Lemma runEffects_dirty (w : World) :
  expensesChanged w = true ->
  let w' := fst (runEffects JSON_stringify w) in
  cells w' = cells w
  /\ storage w' !! STORAGE_KEY = Some (JSON_stringify (State.expenses (cells w)))
  /\ expensesChanged w' = false.
Proof.
  intros H. unfold runEffects. rewrite H. cbn.
  split; [reflexivity|]. split; [by rewrite lookup_insert_eq | reflexivity].
Qed.

(** After an event and the render that follows it, no write of the ledger
    is pending. *)
Lemma step_expensesChanged (ev : Event) (w : World) :
  expensesChanged (stepS ev w) = false.
Proof.
  unfold step. set (w1 := fst (handleS ev w)).
  destruct (expensesChanged w1) eqn:E.
  - apply runEffects_dirty, E.
  - rewrite runEffects_clean by exact E. exact E.
Qed.

Lemma mount_storage (now : Z) (w : World) :
  let w' := fst (mount LocalTZA JSON_parse JSON_stringify now w) in
  storage w' !! STORAGE_KEY
  = Some (JSON_stringify (loaded JSON_parse [] (storage w !! STORAGE_KEY)))
  /\ expensesChanged w' = expensesChanged w.
Proof.
  unfold mount, bind.
  pose proof (loadExpenses_returns JSON_parse [] w) as Hr.
  pose proof (loadExpenses_frame JSON_parse [] w) as (Hs & Hc & _ & Hx).
  destruct (loadExpenses JSON_parse [] w) as [w1 o]; cbn in Hr, Hs, Hc, Hx; subst o.
  unfold persistEffect, saveExpenses, rolloverEffect, bind; cbn.
  destruct (_ && _); cbn; rewrite lookup_insert_eq, Hx; split; reflexivity.
Qed.

Lemma step_ledger_cases (ev : Event) (w : World) :
  expensesChanged w = false ->
  match ledgerSet ev w with
  | Some L =>
      State.expenses (cells (stepS ev w)) = L
      /\ storage (stepS ev w) !! STORAGE_KEY = Some (JSON_stringify L)
  | None =>
      State.expenses (cells (stepS ev w)) = State.expenses (cells w)
      /\ storage (stepS ev w) !! STORAGE_KEY = storage w !! STORAGE_KEY
  end.
Proof.
  intros Hclean. unfold step.
  destruct ev; cbn [ledgerSet handle].
  - (* SessionStart *)
    destruct (mount_spec LocalTZA JSON_parse JSON_stringify now w) as [Hc _].
    destruct (mount_storage now w) as [Hs Hx].
    rewrite runEffects_clean by (rewrite Hx; exact Hclean).
    cbn [fst]. rewrite Hc. split; [reflexivity | exact Hs].
  - rewrite runEffects_clean by exact Hclean. split; reflexivity.
  - rewrite runEffects_clean by exact Hclean. split; reflexivity.
  - rewrite runEffects_clean by exact Hclean. split; reflexivity.
  - rewrite runEffects_clean by exact Hclean. split; reflexivity.
  - (* SubmitExpense *)
    unfold withState. rewrite addExpense_eq.
    destruct (rejected (cells w)); cbn [fst].
    + rewrite runEffects_clean by exact Hclean. split; reflexivity.
    + unfold runEffects, persistEffect, saveExpenses. cbn.
      split; [reflexivity | by rewrite lookup_insert_eq].
  - (* ClickDelete *)
    unfold withState, removeExpense. destruct confirmed; cbn.
    + unfold runEffects, persistEffect, saveExpenses. cbn.
      split; [reflexivity | by rewrite lookup_insert_eq].
    + rewrite runEffects_clean by exact Hclean. split; reflexivity.
  - rewrite runEffects_clean by exact Hclean. split; reflexivity.
  - (* ClickSendReminder *)
    unfold bind, withState; cbn.
    destruct (State.showMonthlyReminder (cells w)).
    + rewrite handleSendMonthly_eq; cbn. destruct deliverable; cbn.
      * rewrite runEffects_clean by exact Hclean. cbn.
        split; [reflexivity | by rewrite lookup_insert_ne].
      * rewrite runEffects_clean by exact Hclean. split; reflexivity.
    + rewrite runEffects_clean by exact Hclean. split; reflexivity.
  - (* ClickSendSelected *)
    unfold bind, withState; cbn.
    rewrite handleSendMonthly_eq; cbn. destruct deliverable; cbn.
    + rewrite runEffects_clean by exact Hclean. cbn.
      split; [reflexivity | by rewrite lookup_insert_ne].
    + rewrite runEffects_clean by exact Hclean. split; reflexivity.
  - (* ClickDismiss *)
    unfold withState, dismissReminder.
    destruct (State.showMonthlyReminder (cells w));
      rewrite runEffects_clean by exact Hclean; split; reflexivity.
Qed.

(** X.  Which events touch the ledger.  A session start sets it to what
    [loadExpenses] returns, an accepted submission puts the new record in
    front, a confirmed delete filters it; after these the text stored under
    the ledger's key is the serialisation of the new ledger.  Every other
    event (typing, selecting a month, sending a summary, dismissing the
    reminder, a rejected submission, a declined delete) leaves the ledger
    and the stored text as they are. *)
Theorem ledger_set_only_by (ev : Event) (w : World) :
  expensesChanged w = false ->
  match ledgerSet ev w with
  | Some L =>
      State.expenses (cells (stepS ev w)) = L
      /\ storage (stepS ev w) !! STORAGE_KEY = Some (JSON_stringify L)
  | None =>
      State.expenses (cells (stepS ev w)) = State.expenses (cells w)
      /\ storage (stepS ev w) !! STORAGE_KEY = storage w !! STORAGE_KEY
  end.
Proof. exact (step_ledger_cases ev w). Qed.

(** The stored text is the serialisation of the ledger in memory, and no
    write is pending. *)
Definition synced (w : World) : Prop :=
  storage w !! STORAGE_KEY = Some (JSON_stringify (State.expenses (cells w)))
  /\ expensesChanged w = false.

Lemma step_SessionStart_synced (now : Z) (w : World) :
  synced (stepS (SessionStart now) w).
Proof.
  split; [|apply step_expensesChanged].
  unfold step. cbn [handle].
  destruct (mount_spec LocalTZA JSON_parse JSON_stringify now w) as [Hc _].
  destruct (mount_storage now w) as [Hs Hx].
  set (w1 := fst (mount LocalTZA JSON_parse JSON_stringify now w)) in *.
  destruct (expensesChanged w1) eqn:E.
  - destruct (runEffects_dirty w1 E) as (-> & -> & _). reflexivity.
  - rewrite runEffects_clean by exact E. cbn [fst]. rewrite Hs, Hc. reflexivity.
Qed.

Lemma step_synced (ev : Event) (w : World) : synced w -> synced (stepS ev w).
Proof.
  intros [Hs Hclean]. split; [|apply step_expensesChanged].
  pose proof (step_ledger_cases ev w Hclean) as H.
  destruct (ledgerSet ev w) as [L|]; destruct H as [-> ->]; [reflexivity | exact Hs].
Qed.

Lemma run_synced (evs : list Event) (w : World) : synced w -> synced (runS evs w).
Proof.
  revert w. induction evs as [|ev evs IH]; intros w Hw; [exact Hw|].
  apply (IH (stepS ev w)), step_synced, Hw.
Qed.

(** X.  From the first session start on, whatever the user does, the text
    stored under the ledger's key is the serialisation of the ledger the
    component holds in memory. *)
Theorem storage_follows_ledger (now : Z) (evs : list Event) (w : World) :
  let w' := runS (SessionStart now :: evs) w in
  storage w' !! STORAGE_KEY = Some (JSON_stringify (State.expenses (cells w'))).
Proof.
  cbv zeta. change (runS (SessionStart now :: evs) w)
    with (runS evs (stepS (SessionStart now) w)).
  apply run_synced, step_SessionStart_synced.
Qed.

(** X.  Closing and reopening: when [JSON] reads back the ledger it wrote
    (and writes it as a text that is not empty), the next session starts
    with the very ledger the last one ended with. *)
Theorem restart_restores_ledger
        (now now' : Z) (evs : list Event) (w : World) :
  let w' := runS (SessionStart now :: evs) w in
  let L := State.expenses (cells w') in
  JSON_stringify L <> "" ->
  JSON_parse (JSON_stringify L) = Ret L ->
  State.expenses (cells (stepS (SessionStart now') w')) = L.
Proof.
  cbv zeta. intros Hne Hrt.
  assert (Hs : synced (runS (SessionStart now :: evs) w)).
  { change (runS (SessionStart now :: evs) w)
      with (runS evs (stepS (SessionStart now) w)).
    apply run_synced, step_SessionStart_synced. }
  destruct Hs as [Hs _].
  set (w' := runS (SessionStart now :: evs) w) in *.
  unfold step. cbn [handle].
  destruct (runEffects_frame JSON_stringify
              (fst (mount LocalTZA JSON_parse JSON_stringify now' w'))) as [-> _].
  destruct (mount_spec LocalTZA JSON_parse JSON_stringify now' w') as [-> _].
  cbn [State.expenses]. rewrite Hs. unfold loaded.
  destruct (String.eqb_spec (JSON_stringify (State.expenses (cells w'))) "");
    [contradiction|].
  rewrite Hrt. reflexivity.
Qed.

(** X.  A stored text that [JSON.parse] rejects does not survive a session
    start: the session begins with the empty ledger, the error is logged,
    and the stored text is replaced by the serialisation of the empty
    ledger. *)
Theorem session_start_overwrites_unparsable
        (now : Z) (w : World) (text : string) (e : Exn) :
  storage w !! STORAGE_KEY = Some text ->
  text <> "" ->
  JSON_parse text = Throw e ->
  let w' := stepS (SessionStart now) w in
  State.expenses (cells w') = []
  /\ storage w' !! STORAGE_KEY = Some (JSON_stringify [])
  /\ In (ConsoleError "Failed to parse expenses from storage" e) (trace w').
Proof.
  intros Hs Hne Hp. cbv zeta.
  assert (Hl : loaded JSON_parse [] (storage w !! STORAGE_KEY) = []).
  { rewrite Hs. unfold loaded. destruct (String.eqb text ""); [reflexivity|].
    rewrite Hp. reflexivity. }
  destruct (step_SessionStart_synced now w) as [Hsync _].
  assert (Hc : State.expenses (cells (stepS (SessionStart now) w)) = []).
  { unfold step. cbn [handle].
    destruct (runEffects_frame JSON_stringify
                (fst (mount LocalTZA JSON_parse JSON_stringify now w))) as [-> _].
    destruct (mount_spec LocalTZA JSON_parse JSON_stringify now w) as [-> _].
    exact Hl. }
  split; [exact Hc|]. split; [rewrite Hsync, Hc; reflexivity|].
  unfold step. cbn [handle].
  set (err := ConsoleError "Failed to parse expenses from storage" e).
  assert (Ht : forall w0, In err (trace w0) ->
                          In err (trace (fst (runEffects JSON_stringify w0)))).
  { intros w0 H0. unfold runEffects. destruct (expensesChanged w0); [|exact H0].
    cbn. apply in_or_app. left. exact H0. }
  apply Ht. unfold mount, bind.
  assert (Hload : loadExpenses JSON_parse [] w
                  = (fst (console.error "Failed to parse expenses from storage" e w),
                     Ret [])).
  { unfold loadExpenses, try_catch, bind, localStorage.getItem, JSString.truthy.
    rewrite Hs. destruct (String.eqb_spec text "") as [->|_]; [contradiction|].
    cbn. unfold liftOutcome. rewrite Hp. reflexivity. }
  rewrite Hload. unfold persistEffect, saveExpenses, rolloverEffect, bind; cbn.
  destruct (_ && _); cbn; rewrite !in_app_iff; cbn; subst err; tauto.
Qed.

(** X.  Adding an expense and then deleting it again: when no other entry
    carries the new id, the ledger and the stored text are back to what
    they were before the expense was added. *)
Theorem add_then_delete (now : Z) (rnd : string) (w : World) :
  rejected (cells w) = false ->
  storage w !! STORAGE_KEY = Some (JSON_stringify (State.expenses (cells w))) ->
  (forall e, In e (State.expenses (cells w)) ->
             Expense.id e <> JSString.ofInteger now +:+ "-" +:+ rnd) ->
  let added := stepS (SubmitExpense now rnd) w in
  let w' := stepS (ClickDelete (JSString.ofInteger now +:+ "-" +:+ rnd) true) added in
  length (State.expenses (cells added)) = S (length (State.expenses (cells w)))
  /\ State.expenses (cells w') = State.expenses (cells w)
  /\ storage w' !! STORAGE_KEY = storage w !! STORAGE_KEY.
Proof.
  intros Hrej Hsync Hfresh. cbv zeta.
  destruct (step_SubmitExpense_accepted LocalTZA JSON_parse JSON_stringify now rnd w Hrej)
    as [Hadd _].
  set (added := stepS (SubmitExpense now rnd) w) in *.
  split; [rewrite Hadd; reflexivity|].
  pose proof (step_ledger_cases (ClickDelete (JSString.ofInteger now +:+ "-" +:+ rnd) true)
                          added (step_expensesChanged _ w)) as H.
  cbn [ledgerSet] in H. destruct H as [Hc Hs].
  assert (Hback : List.filter
            (fun x => negb (bool_decide
               (Expense.id x = JSString.ofInteger now +:+ "-" +:+ rnd)))
            (State.expenses (cells added)) = State.expenses (cells w)).
  { rewrite Hadd. cbn [List.filter newItem Expense.id].
    rewrite bool_decide_eq_true_2 by reflexivity. cbn [negb].
    apply filter_all. intros e He.
    rewrite negb_true_iff, bool_decide_eq_false. auto. }
  rewrite Hc, Hs, Hback, Hsync. split; reflexivity.
Qed.

(** X.  The prompt of the reminder cannot call the send off: with the
    reminder showing, a cancelled prompt and an empty answer both send the
    summary of the selected month, exactly as the button next to the month
    selector does. *)
Theorem reminder_prompt_cannot_cancel (now : Z) (deliverable : bool) (w : World) :
  State.showMonthlyReminder (cells w) = true ->
  stepS (ClickSendReminder None now deliverable) w
  = stepS (ClickSendSelected now deliverable) w
  /\ stepS (ClickSendReminder (Some "") now deliverable) w
     = stepS (ClickSendSelected now deliverable) w.
Proof.
  intros Hshow.
  assert (Hm : forall s, monthToUse s (Some (State.selectedMonth s))
                         = monthToUse s None).
  { intros s. unfold monthToUse, truthyItem, JSString.truthy. cbn.
    destruct (String.eqb_spec (State.selectedMonth s) ""); reflexivity. }
  assert (Hh : forall s w0,
             handleSendMonthly LocalTZA s (Some (State.selectedMonth s)) now w0
             = handleSendMonthly LocalTZA s None now w0).
  { intros s w0. rewrite !handleSendMonthly_eq. unfold dispatched.
    rewrite Hm. reflexivity. }
  unfold step. cbn [handle]. unfold bind, withState; cbn.
  rewrite Hshow, Hh. split; reflexivity.
Qed.

(** An entry as [addExpense] makes them: the amount is a number other
    than zero and [NaN], and the reason is not empty. *)
Definition validEntry (e : Expense.t) : Prop :=
  (exists x, Expense.amount e = VNum x /\ JSNumber.truthy x = true)
  /\ Expense.reason e <> "".

Definition withinSession (ev : Event) : bool :=
  match ev with
  | SessionStart _ => false
  | _ => true
  end.

(** X.  Within a session the ledger keeps its entries valid: if every
    entry has a number other than zero and [NaN] as its amount and a reason
    that is not empty, the same holds after any adding, deleting, sending,
    dismissing and typing. *)
Theorem session_keeps_entries_valid (evs : list Event) (w : World) :
  forallb withinSession evs = true ->
  expensesChanged w = false ->
  Forall validEntry (State.expenses (cells w)) ->
  Forall validEntry (State.expenses (cells (runS evs w))).
Proof.
  revert w. induction evs as [|ev evs IH]; intros w Hin Hclean Hvalid; [exact Hvalid|].
  cbn [forallb] in Hin. apply andb_prop in Hin as [Hev Hin].
  change (runS (ev :: evs) w) with (runS evs (stepS ev w)).
  apply IH; [exact Hin | apply step_expensesChanged |].
  pose proof (step_ledger_cases ev w Hclean) as H.
  destruct ev; cbn [ledgerSet] in H; try discriminate;
    try (destruct H as [-> _]; exact Hvalid).
  - (* SubmitExpense *)
    destruct (rejected (cells w)) eqn:Hrej; destruct H as [-> _]; [exact Hvalid|].
    constructor; [|exact Hvalid].
    unfold rejected in Hrej. apply orb_false_elim in Hrej as [Ha Hr].
    apply negb_false_iff in Ha, Hr.
    split; [eexists; split; [reflexivity | exact Ha]|].
    cbn [newItem Expense.reason]. unfold JSString.truthy in Hr.
    destruct (String.eqb_spec (JSString.trim (State.reason (cells w))) "");
      [discriminate | assumption].
  - (* ClickDelete *)
    destruct confirmed; destruct H as [-> _]; [|exact Hvalid].
    rewrite List.Forall_forall in *. intros e He. apply filter_In in He as [He _]. auto.
Qed.

End SessionFacts.

(* ===================================================================== *)
(** ** Month keys *)
(* ===================================================================== *)

Lemma length_append (a b : string) :
  String.length (a +:+ b) = (String.length a + String.length b)%nat.
Proof.
  induction a as [|c a IH]; [reflexivity|].
  rewrite append_cons. cbn. by rewrite IH.
Qed.

(** Two texts that end in tails of the same length agree part by part. *)
Lemma append_inj_tail (a b s t : string) :
  String.length s = String.length t ->
  a +:+ s = b +:+ t -> a = b /\ s = t.
Proof.
  intros Hlen. revert b. induction a as [|c a IH]; intros [|d b] H.
  - rewrite !append_nil_l in H. auto.
  - rewrite append_nil_l in H. apply (f_equal String.length) in H.
    rewrite length_append in H. cbn in H. lia.
  - rewrite append_nil_l in H. apply (f_equal String.length) in H.
    rewrite length_append in H. cbn in H. lia.
  - rewrite !append_cons in H. injection H as -> H.
    destruct (IH b H) as [-> ->]. auto.
Qed.

Lemma ofInteger_inj (a b : Z) : JSString.ofInteger a = JSString.ofInteger b -> a = b.
Proof.
  unfold JSString.ofInteger. intros H.
  apply DecimalZ.to_int_inj.
  assert (Hnn : forall z, Z.to_int z <> Decimal.Pos Decimal.Nil
                          /\ Z.to_int z <> Decimal.Neg Decimal.Nil).
  { intros [|p|p]; cbn; split; try discriminate;
      intros [= Hp]; exact (DecimalPos.Unsigned.to_uint_nonnil p Hp). }
  apply (f_equal NilZero.int_of_string) in H.
  rewrite !NilZero.isi in H by apply Hnn. congruence.
Qed.

Lemma twoDigits_length (s : string) : twoDigits s = true -> String.length s = 2%nat.
Proof. destruct s as [|d1 [|d2 [|? ?]]]; try discriminate. reflexivity. Qed.

(** [f] holds of the [n] integers from [lo] on. *)
Fixpoint allFrom (f : Z -> bool) (lo : Z) (n : nat) : bool :=
  match n with
  | O => true
  | S n' => f lo && allFrom f (lo + 1) n'
  end.

Lemma allFrom_spec (f : Z -> bool) (n : nat) :
  forall lo, allFrom f lo n = true ->
             forall z, lo <= z < lo + Z.of_nat n -> f z = true.
Proof.
  induction n as [|n IH]; intros lo H z Hz; [lia|].
  cbn [allFrom] in H. apply andb_prop in H as [Hlo Hrest].
  destruct (Z.eq_dec z lo) as [->|Hne]; [exact Hlo|].
  apply (IH (lo + 1) Hrest). lia.
Qed.

(** The number a text of decimal digits stands for. *)
Definition digitsOf (s : string) : option Z :=
  let '(v, n, rest) := JSNumber.scanDigits JSNumber.decDigit 10 s 0 0 in
  if (0 <? n) && String.eqb rest "" then Some v else None.

Lemma pad2_read_below_100 :
  allFrom (fun a => bool_decide (digitsOf (JSDate.pad 2 a) = Some a)) 0 100 = true.
Proof. vm_compute. reflexivity. Qed.

Lemma pad2_inj (a b : Z) :
  0 <= a < 100 -> 0 <= b < 100 -> JSDate.pad 2 a = JSDate.pad 2 b -> a = b.
Proof.
  intros Ha Hb H.
  pose proof (allFrom_spec _ _ _ pad2_read_below_100 a ltac:(lia)) as Ra.
  pose proof (allFrom_spec _ _ _ pad2_read_below_100 b ltac:(lia)) as Rb.
  apply bool_decide_eq_true in Ra, Rb. rewrite H in Ra. congruence.
Qed.

Lemma monthKey_parts (tza : Z -> Z) (d1 d2 : Z) :
  monthKeyFromDate tza d1 = monthKeyFromDate tza d2 ->
  JSDate.getFullYear tza d1 = JSDate.getFullYear tza d2
  /\ JSDate.getMonth tza d1 = JSDate.getMonth tza d2.
Proof.
  unfold monthKeyFromDate. intros H.
  pose proof (MonthFromTime_range (JSDate.LocalTime tza d1)) as H1.
  pose proof (MonthFromTime_range (JSDate.LocalTime tza d2)) as H2.
  fold (JSDate.getMonth tza d1) in H1. fold (JSDate.getMonth tza d2) in H2.
  fold (JSDate.pad 2 (JSDate.getMonth tza d1 + 1)) in H.
  fold (JSDate.pad 2 (JSDate.getMonth tza d2 + 1)) in H.
  apply append_inj_tail in H as [Hy Hm].
  - apply ofInteger_inj in Hy.
    change ("-" +:+ ?x) with (String "-" x) in Hm. injection Hm as Hm.
    apply pad2_inj in Hm; lia.
  - rewrite !length_append. f_equal.
    rewrite !twoDigits_length; [reflexivity| |];
      apply twoDigits_range; lia.
Qed.

(** X.  Two instants have the same month key exactly when they fall in the
    same year and month of local time: comparing the marker with the
    current key compares calendar months. *)
Theorem monthKey_same_month (tza : Z -> Z) (d1 d2 : Z) :
  monthKeyFromDate tza d1 = monthKeyFromDate tza d2
  <-> JSDate.getFullYear tza d1 = JSDate.getFullYear tza d2
      /\ JSDate.getMonth tza d1 = JSDate.getMonth tza d2.
Proof.
  split; [apply monthKey_parts|].
  unfold monthKeyFromDate. intros [-> ->]. reflexivity.
Qed.

Lemma fourDigits_years :
  allFrom (fun y => Nat.eqb (String.length (JSString.ofInteger y)) 4)
          1000 (Z.to_nat 9000) = true.
Proof. vm_compute. reflexivity. Qed.

Lemma ofInteger_fourDigits (y : Z) :
  1000 <= y <= 9999 -> String.length (JSString.ofInteger y) = 4%nat.
Proof.
  intros Hy. apply Nat.eqb_eq.
  apply (allFrom_spec _ _ _ fourDigits_years y). lia.
Qed.

(** X.  A month key is the year, ["-"], and the month as two digits from
    [01] to [12]; for a four-digit year it has the seven characters of
    [YYYY-MM]. *)
Theorem monthKeyFromDate_format (tza : Z -> Z) (d : Z) :
  1000 <= JSDate.getFullYear tza d <= 9999 ->
  exists mon,
    monthKeyFromDate tza d = JSString.ofInteger (JSDate.getFullYear tza d) +:+ "-" +:+ mon
    /\ twoDigits mon = true
    /\ 1 <= JSDate.getMonth tza d + 1 <= 12
    /\ mon = JSDate.pad 2 (JSDate.getMonth tza d + 1)
    /\ String.length (monthKeyFromDate tza d) = 7%nat.
Proof.
  intros Hy.
  pose proof (MonthFromTime_range (JSDate.LocalTime tza d)) as Hm.
  fold (JSDate.getMonth tza d) in Hm.
  exists (JSDate.pad 2 (JSDate.getMonth tza d + 1)).
  assert (Ht : twoDigits (JSDate.pad 2 (JSDate.getMonth tza d + 1)) = true)
    by (apply twoDigits_range; lia).
  split; [reflexivity|]. split; [exact Ht|]. split; [lia|]. split; [reflexivity|].
  unfold monthKeyFromDate. fold (JSDate.pad 2 (JSDate.getMonth tza d + 1)).
  rewrite !length_append, (ofInteger_fourDigits _ Hy), (twoDigits_length _ Ht).
  reflexivity.
Qed.

(* ===================================================================== *)
(** ** Aggregator: what a key selects *)
(* ===================================================================== *)

Lemma prefix_append (p r : string) : String.prefix p (p +:+ r) = true.
Proof.
  induction p as [|c p IH]; [by destruct r|].
  rewrite append_cons. cbn. destruct (ascii_dec c c); [exact IH | contradiction].
Qed.

Lemma prefix_append_both (a q s : string) :
  String.prefix q s = true -> String.prefix (a +:+ q) (a +:+ s) = true.
Proof.
  intros H. induction a as [|c a IH]; [exact H|].
  rewrite !append_cons. cbn. destruct (ascii_dec c c); [exact IH | contradiction].
Qed.

Lemma prefix_trans (p q s : string) :
  String.prefix p q = true -> String.prefix q s = true -> String.prefix p s = true.
Proof.
  revert q s. induction p as [|c p IH]; intros q s Hpq Hqs; [by destruct s|].
  destruct q as [|d q]; [discriminate|]. destruct s as [|e s]; [discriminate|].
  cbn in *. destruct (ascii_dec c d) as [->|]; [|discriminate].
  destruct (ascii_dec d e) as [->|]; [|discriminate]. eauto.
Qed.

Lemma prefix_same_length (p q s : string) :
  String.length p = String.length q ->
  String.prefix p s = true -> String.prefix q s = true -> p = q.
Proof.
  revert q s. induction p as [|c p IH]; intros [|d q] s Hlen Hp Hq;
    try discriminate; [reflexivity|].
  destruct s as [|e s]; [discriminate|]. cbn in *.
  destruct (ascii_dec c e) as [->|]; [|discriminate].
  destruct (ascii_dec d e) as [->|]; [|discriminate].
  f_equal. apply (IH q s); auto.
Qed.

Lemma filter_filter_implies {A} (f g : A -> bool) (l : list A) :
  (forall a, g a = true -> f a = true) ->
  List.filter g (List.filter f l) = List.filter g l.
Proof.
  intros H. induction l as [|a l IH]; cbn; [reflexivity|].
  destruct (f a) eqn:Ef; cbn; destruct (g a) eqn:Eg; rewrite ?IH; try reflexivity.
  rewrite (H a Eg) in Ef. discriminate.
Qed.

(** X.  A key is compared as a prefix and never checked for the form
    [YYYY-MM]: the empty key selects the whole ledger, and a longer key
    selects among what its beginning selects (so a bare year selects
    every month of that year). *)
Theorem expensesForMonth_prefix_keys (L : Ledger) (m r : string) :
  expensesForMonth L "" = L
  /\ expensesForMonth (expensesForMonth L m) (m +:+ r) = expensesForMonth L (m +:+ r)
  /\ sublist (expensesForMonth L (m +:+ r)) (expensesForMonth L m).
Proof.
  split; [|split].
  - unfold expensesForMonth. apply filter_all. intros e _.
    unfold JSString.startsWith. by destruct (Expense.dateISO e).
  - unfold expensesForMonth. apply filter_filter_implies.
    intros e He. unfold JSString.startsWith in *.
    apply (prefix_trans m (m +:+ r)); [apply prefix_append | exact He].
  - assert (H : expensesForMonth (expensesForMonth L m) (m +:+ r)
                = expensesForMonth L (m +:+ r)).
    { unfold expensesForMonth. apply filter_filter_implies.
      intros e He. unfold JSString.startsWith in *.
      apply (prefix_trans m (m +:+ r)); [apply prefix_append | exact He]. }
    rewrite <- H. unfold expensesForMonth at 1. apply filter_sublist.
Qed.

(** X.  No expense is counted under two months: two different keys of the
    same length never select the same entry. *)
Theorem expensesForMonth_disjoint (L : Ledger) (m1 m2 : string) :
  String.length m1 = String.length m2 ->
  m1 <> m2 ->
  expensesForMonth (expensesForMonth L m1) m2 = []
  /\ forall e, In e (expensesForMonth L m1) -> ~ In e (expensesForMonth L m2).
Proof.
  intros Hlen Hne.
  assert (Hex : forall e, JSString.startsWith (Expense.dateISO e) m1 = true ->
                          JSString.startsWith (Expense.dateISO e) m2 = false).
  { intros e H1. destruct (JSString.startsWith (Expense.dateISO e) m2) eqn:H2;
      [|reflexivity].
    exfalso. apply Hne. exact (prefix_same_length _ _ _ Hlen H1 H2). }
  split.
  - unfold expensesForMonth.
    induction L as [|e L IH]; cbn; [reflexivity|].
    destruct (JSString.startsWith (Expense.dateISO e) m1) eqn:H1; [|exact IH].
    cbn. rewrite (Hex e H1). exact IH.
  - intros e H1 H2. apply expensesForMonth_In in H1 as [_ H1], H2 as [_ H2].
    rewrite (Hex e H1) in H2. discriminate.
Qed.

Lemma totalForMonth_skip (e : Expense.t) (L : Ledger) (m : string) :
  JSString.startsWith (Expense.dateISO e) m = false ->
  totalForMonth (e :: L) m = totalForMonth L m.
Proof. intros H. unfold totalForMonth, expensesForMonth. cbn. rewrite H. reflexivity. Qed.

(** X.  Expenses of other months do not move a month's total: adding an
    expense whose stored date does not begin with the key, and deleting
    entries none of which begins with the key, both leave [totalForMonth]
    for that key as it was. *)
Theorem totalForMonth_other_months
        (LocalTZA : Z -> Z) (s : State.t) (m : string) (w : World)
        (now : Z) (rnd : string) (id : string) :
  rejected s = false ->
  JSString.startsWith (JSDate.toISOString now) m = false ->
  (forall e, In e (State.expenses s) -> Expense.id e = id ->
             JSString.startsWith (Expense.dateISO e) m = false) ->
  totalForMonth (State.expenses (cells (fst (addExpense LocalTZA s now rnd w)))) m
  = totalForMonth (State.expenses s) m
  /\ totalForMonth (State.expenses (cells (fst (removeExpense s id true w)))) m
     = totalForMonth (State.expenses s) m.
Proof.
  intros Hrej Hnow Hdel. split.
  - rewrite addExpense_eq, Hrej. cbn [fst cells State.expenses].
    apply totalForMonth_skip. exact Hnow.
  - unfold removeExpense. cbn.
    unfold totalForMonth. f_equal. unfold expensesForMonth.
    induction (State.expenses s) as [|e L IH]; cbn; [reflexivity|].
    assert (IH' := IH (fun e' He' => Hdel e' (or_intror He'))). clear IH.
    case_bool_decide as Hid; cbn.
    + rewrite (Hdel e (or_introl eq_refl) Hid). exact IH'.
    + destruct (JSString.startsWith (Expense.dateISO e) m); [f_equal|]; exact IH'.
Qed.

(** Adding a number to [+0] returns the number, unless it is [-0]. *)
Lemma float_zero_add (x : float) :
  JSNumber.truthy x = true -> (0 + x)%float = x.
Proof.
  intros Hx. apply FloatAxioms.Prim2SF_inj.
  rewrite FloatAxioms.add_spec.
  change (Prim2SF 0) with (S754_zero false).
  unfold JSNumber.truthy, is_zero in Hx.
  rewrite FloatAxioms.eqb_spec in Hx.
  change (Prim2SF zero) with (S754_zero false) in Hx.
  unfold FloatAxioms.SF64add.
  destruct (Prim2SF x) as [sx|sx| |sx mx ex]; try reflexivity.
  destruct sx; discriminate.
Qed.

(** X.  The first expense of a month makes the month's total its amount:
    when an accepted expense is added whose stored date begins with the
    key, the total for the key is the sum of the earlier amounts taken from
    the new amount on, and it is the new amount itself when the key selected
    nothing before. *)
Theorem add_then_total
        (LocalTZA : Z -> Z) (s : State.t) (now : Z) (rnd : string) (w : World)
        (m : string) :
  rejected s = false ->
  JSString.startsWith (JSDate.toISOString now) m = true ->
  let amt := JSNumber.ofString (State.amount s) in
  let L' := State.expenses (cells (fst (addExpense LocalTZA s now rnd w))) in
  totalForMonth L' m
  = fold_left PrimFloat.add
              (map coercedAmount (expensesForMonth (State.expenses s) m)) amt
  /\ (expensesForMonth (State.expenses s) m = [] -> totalForMonth L' m = amt).
Proof.
  intros Hrej Hsel. cbv zeta.
  assert (Hamt : JSNumber.truthy (JSNumber.ofString (State.amount s)) = true).
  { unfold rejected in Hrej. apply orb_false_elim in Hrej as [Ha _].
    by apply negb_false_iff in Ha. }
  rewrite addExpense_eq, Hrej. cbn [fst cells State.expenses].
  assert (Heq : totalForMonth (newItem s now rnd :: State.expenses s) m
                = fold_left PrimFloat.add
                    (map coercedAmount (expensesForMonth (State.expenses s) m))
                    (JSNumber.ofString (State.amount s))).
  { assert (Hfold : forall L, totalForMonth L m
                      = fold_left PrimFloat.add
                          (map coercedAmount (expensesForMonth L m)) 0%float)
      by (intros L; apply (fold_left_map PrimFloat.add coercedAmount)).
    assert (Hc : coercedAmount (newItem s now rnd) = JSNumber.ofString (State.amount s)).
    { unfold coercedAmount, newItem, JSValue.or. cbn [Expense.amount JSValue.ToBoolean].
      rewrite Hamt. reflexivity. }
    rewrite Hfold. unfold expensesForMonth at 1.
    cbn [List.filter]. change (Expense.dateISO (newItem s now rnd))
      with (JSDate.toISOString now).
    rewrite Hsel. cbn [map fold_left]. rewrite Hc, (float_zero_add _ Hamt).
    reflexivity. }
  split; [exact Heq|]. intros Hnone. rewrite Heq, Hnone. reflexivity.
Qed.

Lemma toISOString_prefix (t : Z) :
  0 <= JSDate.YearFromTime t <= 9999 ->
  JSString.startsWith (JSDate.toISOString t)
    (JSDate.pad 4 (JSDate.YearFromTime t) +:+ "-" +:+ JSDate.pad 2 (JSDate.MonthFromTime t + 1))
  = true.
Proof.
  intros Hy. unfold JSDate.toISOString, JSString.startsWith.
  destruct (Z.leb_spec 0 (JSDate.YearFromTime t)); [|lia].
  destruct (Z.leb_spec (JSDate.YearFromTime t) 9999); [|lia].
  cbn [andb].
  apply prefix_append_both. apply (prefix_append_both "-").
  apply prefix_append.
Qed.

Lemma pad4_fourDigits (y : Z) :
  1000 <= y <= 9999 -> JSDate.pad 4 y = JSString.ofInteger y.
Proof.
  intros Hy. unfold JSDate.pad, JSString.padStart.
  rewrite (ofInteger_fourDigits y Hy). reflexivity.
Qed.

(** X.  Where local time and UTC show the same year and month at the
    moment an expense is added, and the year has four digits, the new
    expense is listed first under the month the form then selects. *)
Theorem added_expense_is_listed
        (LocalTZA : Z -> Z) (s : State.t) (now : Z) (rnd : string) (w : World) :
  rejected s = false ->
  1000 <= JSDate.YearFromTime now <= 9999 ->
  JSDate.getFullYear LocalTZA now = JSDate.YearFromTime now ->
  JSDate.getMonth LocalTZA now = JSDate.MonthFromTime now ->
  let w' := fst (addExpense LocalTZA s now rnd w) in
  expensesForMonth (State.expenses (cells w')) (State.selectedMonth (cells w'))
  = newItem s now rnd
      :: expensesForMonth (State.expenses s) (monthKeyFromDate LocalTZA now).
Proof.
  intros Hrej Hy Hly Hlm. cbv zeta.
  rewrite addExpense_eq, Hrej. cbn [fst cells State.expenses State.selectedMonth].
  unfold expensesForMonth at 1. cbn [List.filter newItem Expense.dateISO].
  assert (Hsel : JSString.startsWith (JSDate.toISOString now)
                                     (monthKeyFromDate LocalTZA now) = true).
  { unfold monthKeyFromDate. rewrite Hly, Hlm, <- (pad4_fourDigits _ Hy).
    apply toISOString_prefix. lia. }
  rewrite Hsel. reflexivity.
Qed.

(* ===================================================================== *)
(** ** Summary dispatcher: keys of another form, and the address opened *)
(* ===================================================================== *)

(** X.  [handleSendMonthly] takes the key apart at ["-"] without checking
    it.  A key with no ["-"] (a bare year typed into the prompt) is
    rendered as [undefined/] followed by the key; of a key with more than
    two parts, the first two are used and the rest is dropped. *)
Theorem humanMonth_other_forms (a b c : string) :
  noChar "-" a = true ->
  noChar "-" b = true ->
  humanMonth a = "undefined/" +:+ a
  /\ humanMonth (a +:+ "-" +:+ b +:+ "-" +:+ c) = b +:+ "/" +:+ a.
Proof.
  intros Ha Hb. unfold humanMonth. split.
  - rewrite (split_noChar "-" a Ha). reflexivity.
  - change ("-" +:+ b +:+ "-" +:+ c) with (String "-" (b +:+ String "-" c)).
    rewrite (split_app "-" a _ Ha), (split_app "-" b c Hb). reflexivity.
Qed.

(** A character that may stand in the query of an address as it is:
    unreserved, or the ["%"] of an escape. *)
Definition urlSafe (c : ascii) : bool := uriUnreserved c || Ascii.eqb c "%".

Lemma escape_urlSafe (c : ascii) :
  urlSafe (hexChar (N_of_ascii c / 16)%N) && urlSafe (hexChar (N_of_ascii c mod 16)%N)
  = true.
Proof. destruct c as [[] [] [] [] [] [] [] []]; vm_compute; reflexivity. Qed.

Lemma encodeURIComponent_urlSafe (s : string) :
  forallb urlSafe (list_ascii_of_string (encodeURIComponent s)) = true.
Proof.
  induction s as [|c s IH]; [reflexivity|].
  cbn [encodeURIComponent]. destruct (uriUnreserved c) eqn:Hc.
  - cbn [list_ascii_of_string forallb]. unfold urlSafe at 1. rewrite Hc. exact IH.
  - cbn [list_ascii_of_string forallb].
    pose proof (escape_urlSafe c) as He. apply andb_prop in He as [-> ->].
    rewrite IH. reflexivity.
Qed.

Lemma encodeURIComponent_length (s : string) :
  (String.length s <= String.length (encodeURIComponent s) <= 3 * String.length s)%nat.
Proof.
  induction s as [|c s IH]; [cbn; lia|].
  cbn [encodeURIComponent]. destruct (uriUnreserved c); cbn [String.length]; lia.
Qed.

(** X.  Whatever the summary says (the key may be any text typed into the
    prompt), the address handed to [window.open] is the fixed
    [https://wa.me/] address of the recipient with a single [text]
    parameter: what follows [?text=] consists of unreserved characters and
    [%XX] escapes only, so it holds no space, line break, ["&"], ["#"],
    ["?"] or ["="]. *)
Theorem summaryUrl_wellformed (body : string) :
  exists query,
    summaryUrl body = "https://wa.me/972545317545?text=" +:+ query
    /\ forallb urlSafe (list_ascii_of_string query) = true
    /\ noChar "&" query = true /\ noChar "#" query = true
    /\ noChar "?" query = true /\ noChar "=" query = true
    /\ noChar " " query = true /\ noChar (ascii_of_nat 10) query = true.
Proof.
  exists (encodeURIComponent body).
  pose proof (encodeURIComponent_urlSafe body) as Hs.
  assert (Hno : forall c, urlSafe c = false ->
                          noChar c (encodeURIComponent body) = true).
  { intros c Hc. rewrite noChar_string.
    rewrite forallb_forall in Hs |- *. intros a Ha.
    destruct (Ascii.eqb_spec a c) as [->|]; [|reflexivity].
    rewrite (Hs c Ha) in Hc. discriminate. }
  split; [reflexivity|]. split; [exact Hs|].
  repeat split; apply Hno; reflexivity.
Qed.

(* ===================================================================== *)
(** ** The list on display: [groupedExpensesForMonth] *)
(* ===================================================================== *)

(** [Array.prototype.sort(comparefn)] is stable, and for a comparator that
    orders the elements consistently its result is the one stable
    arrangement, which insertion from the right computes.  A comparator
    returns [None] for [NaN], which the sort reads as 0.  (Where the
    comparator is not consistent the order is left to the host; only what
    holds for every arrangement is stated without a premise below.) *)
Module JSArray.

Section Sort.

Context {A : Type}.
Variable comparefn : A -> A -> option Z.

(** [x] may stay in front of [y]: the comparator does not put [y] first. *)
Definition inOrder (x y : A) : bool := default 0 (comparefn x y) <=? 0.

Fixpoint insert (x : A) (l : list A) : list A :=
  match l with
  | [] => [x]
  | y :: r => if inOrder x y then x :: y :: r else y :: insert x r
  end.

Fixpoint sort (l : list A) : list A :=
  match l with
  | [] => []
  | x :: r => insert x (sort r)
  end.

Lemma insert_perm (x : A) (l : list A) : Permutation (insert x l) (x :: l).
Proof.
  induction l as [|y r IH]; cbn; [reflexivity|].
  destruct (inOrder x y); [reflexivity|].
  rewrite IH. apply perm_swap.
Qed.

Lemma sort_perm (l : list A) : Permutation (sort l) l.
Proof.
  induction l as [|x r IH]; cbn; [reflexivity|].
  rewrite insert_perm. by constructor.
Qed.

(** On the elements that satisfy [P] the comparator is a consistent
    order. *)
Variable P : A -> Prop.
Hypothesis inOrder_total :
  forall x y, P x -> P y -> inOrder x y = false -> inOrder y x = true.
Hypothesis inOrder_trans :
  forall x y z, P x -> P y -> P z ->
                inOrder x y = true -> inOrder y z = true -> inOrder x z = true.

Lemma insert_Forall (Q : A -> Prop) (x : A) (l : list A) :
  Q x -> Forall Q l -> Forall Q (insert x l).
Proof.
  intros Hx Hl. induction Hl as [|y r Hy Hr IH]; cbn; [by repeat constructor|].
  destruct (inOrder x y); repeat constructor; auto.
Qed.

Lemma sort_Forall (Q : A -> Prop) (l : list A) : Forall Q l -> Forall Q (sort l).
Proof.
  induction 1 as [|x r Hx Hr IH]; cbn; [constructor|].
  by apply insert_Forall.
Qed.

Lemma insert_sorted (x : A) (l : list A) :
  P x -> Forall P l ->
  StronglySorted (fun a b => inOrder a b = true) l ->
  StronglySorted (fun a b => inOrder a b = true) (insert x l).
Proof.
  intros Hx HP Hs. induction Hs as [|y r Hs IH Hy]; cbn.
  - repeat constructor.
  - apply Forall_cons_1 in HP as [HPy HPr].
    destruct (inOrder x y) eqn:E.
    + constructor; [by constructor|].
      constructor; [exact E|].
      rewrite List.Forall_forall in *. intros z Hz.
      apply (inOrder_trans x y z); auto.
    + constructor; [by apply IH|].
      apply insert_Forall; [by apply inOrder_total | exact Hy].
Qed.

Lemma sort_sorted (l : list A) :
  Forall P l -> StronglySorted (fun a b => inOrder a b = true) (sort l).
Proof.
  induction 1 as [|x r Hx Hr IH]; cbn; [constructor|].
  apply insert_sorted; [exact Hx | by apply sort_Forall | exact IH].
Qed.

End Sort.

(** A list that is in order already is left as it is. *)
Lemma sort_id {A} (comparefn : A -> A -> option Z) (l : list A) :
  StronglySorted (fun a b => inOrder comparefn a b = true) l ->
  sort comparefn l = l.
Proof.
  induction 1 as [|x r Hs IH Hx]; cbn; [reflexivity|].
  rewrite IH. destruct Hx as [|y r' Hy _]; cbn; [reflexivity|].
  rewrite Hy. reflexivity.
Qed.

End JSArray.

Section Grouped.

(** [new Date(text)] for the texts of the ledger, as the host reads them:
    the time value, or [None] for an invalid date. *)
Variable Date_parse : string -> option Z.

Definition timeOf (e : Expense.t) : option Z := Date_parse (Expense.dateISO e).

(** [(a, b) => new Date(b.dateISO) - new Date(a.dateISO)]; the difference
    of an invalid date is [NaN]. *)
Definition byDateDescending (a b : Expense.t) : option Z :=
  match timeOf b, timeOf a with
  | Some tb, Some ta => Some (tb - ta)
  | _, _ => None
  end.

(** The copy of the month's expenses, sorted; the ledger itself is not
    touched. *)
Definition groupedExpensesForMonth (expenses : Ledger) (monthKey : string) : Ledger :=
  let list := expensesForMonth expenses monthKey in
  JSArray.sort byDateDescending list.

(** [a] is not older than [b]. *)
Definition notOlder (a b : Expense.t) : Prop :=
  exists ta tb, timeOf a = Some ta /\ timeOf b = Some tb /\ tb <= ta.

Definition hasDate (e : Expense.t) : Prop := timeOf e <> None.

Lemma inOrder_notOlder (a b : Expense.t) :
  hasDate a -> hasDate b ->
  (JSArray.inOrder byDateDescending a b = true <-> notOlder a b).
Proof.
  unfold hasDate, JSArray.inOrder, byDateDescending, notOlder.
  destruct (timeOf a) as [ta|], (timeOf b) as [tb|]; try congruence.
  intros _ _. cbn. rewrite Z.leb_le. split.
  - intros H. exists ta, tb. repeat split. lia.
  - intros (ta' & tb' & [= <-] & [= <-] & H). lia.
Qed.

(** X.  The list on display holds exactly the expenses the month key
    selects, each as often as the ledger has it: sorting only rearranges. *)
Theorem groupedExpensesForMonth_perm (L : Ledger) (m : string) :
  Permutation (groupedExpensesForMonth L m) (expensesForMonth L m)
  /\ length (groupedExpensesForMonth L m) = length (expensesForMonth L m)
  /\ (forall e, In e (groupedExpensesForMonth L m)
                <-> In e L /\ JSString.startsWith (Expense.dateISO e) m = true)
  /\ (groupedExpensesForMonth L m = [] <-> expensesForMonth L m = []).
Proof.
  pose proof (JSArray.sort_perm byDateDescending (expensesForMonth L m)) as Hp.
  fold (groupedExpensesForMonth L m) in Hp.
  split; [exact Hp|]. split; [exact (Permutation_length Hp)|]. split.
  - intros e. rewrite <- expensesForMonth_In. split; apply Permutation_in;
      [exact Hp | symmetry; exact Hp].
  - split; intros H; rewrite H in Hp.
    + by apply Permutation_nil in Hp.
    + symmetry in Hp. by apply Permutation_nil in Hp.
Qed.

(** X.  When the date of every selected expense can be read, the list on
    display is newest first: no entry is older than one that comes after
    it. *)
Theorem groupedExpensesForMonth_sorted (L : Ledger) (m : string) :
  (forall e, In e (expensesForMonth L m) -> timeOf e <> None) ->
  StronglySorted notOlder (groupedExpensesForMonth L m).
Proof.
  intros Hdates.
  assert (HP : Forall hasDate (expensesForMonth L m))
    by (apply List.Forall_forall; exact Hdates).
  assert (Hs : StronglySorted
                 (fun a b => JSArray.inOrder byDateDescending a b = true)
                 (groupedExpensesForMonth L m)).
  { apply (JSArray.sort_sorted byDateDescending hasDate); [| |exact HP].
    - intros x y Hx Hy. unfold hasDate, JSArray.inOrder, byDateDescending in *.
      destruct (timeOf x), (timeOf y); try congruence. cbn.
      rewrite Z.leb_gt, Z.leb_le. lia.
    - intros x y z Hx Hy Hz. unfold hasDate, JSArray.inOrder, byDateDescending in *.
      destruct (timeOf x), (timeOf y), (timeOf z); try congruence. cbn.
      rewrite !Z.leb_le. lia. }
  assert (HP' : Forall hasDate (groupedExpensesForMonth L m))
    by (apply JSArray.sort_Forall; exact HP).
  clear HP Hdates. induction Hs as [|a r Hs IH Ha]; [constructor|].
  apply Forall_cons_1 in HP' as [Hda Hdr].
  constructor; [by apply IH|].
  rewrite List.Forall_forall in *. intros b Hb.
  apply inOrder_notOlder; auto.
Qed.

(** Sorting changes nothing when the selection is newest first already. *)
Lemma grouped_already_sorted (L : Ledger) (m : string) :
  StronglySorted notOlder (expensesForMonth L m) ->
  groupedExpensesForMonth L m = expensesForMonth L m.
Proof.
  intros Hs. unfold groupedExpensesForMonth. cbv zeta. apply JSArray.sort_id.
  induction Hs as [|a r Hs IH Ha]; [constructor|].
  constructor; [exact IH|].
  rewrite List.Forall_forall in *. intros b Hb.
  destruct (Ha b Hb) as (ta & tb & Hta & Htb & Hle).
  apply inOrder_notOlder; [unfold hasDate; congruence | unfold hasDate; congruence |].
  exists ta, tb. auto.
Qed.

End Grouped.

Lemma StronglySorted_filter {A} (R : A -> A -> Prop) (f : A -> bool) (l : list A) :
  StronglySorted R l -> StronglySorted R (List.filter f l).
Proof.
  induction 1 as [|a r Hs IH Ha]; cbn; [constructor|].
  destruct (f a); [|exact IH].
  constructor; [exact IH|].
  rewrite List.Forall_forall in *. intros b Hb.
  apply filter_In in Hb as [Hb _]. auto.
Qed.

Section Display.

Variable LocalTZA : Z -> Z.
Variable Date_parse : string -> option Z.

(** X.  As long as the clock does not run backwards, the ledger stays
    newest first and the list on display is the month's selection in
    ledger order.  If the ledger is newest first, none of its entries is
    later than [now], and the host reads the text of [now] back as [now],
    then after an expense is added at [now], and after any delete, the
    ledger is newest first again and sorting the selection of any month
    changes nothing. *)
Theorem ledger_stays_newest_first
        (s : State.t) (now : Z) (rnd id m : string) (w : World) :
  rejected s = false ->
  Date_parse (JSDate.toISOString now) = Some now ->
  StronglySorted (notOlder Date_parse) (State.expenses s) ->
  (forall e, In e (State.expenses s) ->
             exists t, timeOf Date_parse e = Some t /\ t <= now) ->
  let added := State.expenses (cells (fst (addExpense LocalTZA s now rnd w))) in
  let removed := State.expenses (cells (fst (removeExpense s id true w))) in
  StronglySorted (notOlder Date_parse) added
  /\ groupedExpensesForMonth Date_parse added m = expensesForMonth added m
  /\ StronglySorted (notOlder Date_parse) removed
  /\ groupedExpensesForMonth Date_parse removed m = expensesForMonth removed m.
Proof.
  intros Hrej Hnow Hs Hle. cbv zeta.
  rewrite addExpense_eq, Hrej. cbn [fst cells State.expenses].
  unfold removeExpense. cbn [negb fst cells setExpenses State.setExpenses State.expenses].
  assert (Ha : StronglySorted (notOlder Date_parse)
                 (newItem s now rnd :: State.expenses s)).
  { constructor; [exact Hs|].
    apply List.Forall_forall. intros e He. destruct (Hle e He) as (t & Ht & Htn).
    exists now, t. repeat split; auto. }
  split; [exact Ha|].
  split; [apply grouped_already_sorted, StronglySorted_filter, Ha|].
  assert (Hr := StronglySorted_filter _
                  (fun x => negb (bool_decide (Expense.id x = id))) _ Hs).
  split; [exact Hr|].
  apply grouped_already_sorted, StronglySorted_filter, Hr.
Qed.

End Display.

(* ===================================================================== *)
(** ** The month selector: [buildMonthOptions] *)
(* ===================================================================== *)

(** [new Date(year, month, date)]: ECMAScript's [MakeDay], [MakeDate] and
    [UTC].  Time values are taken to lie within the range of [Date], so
    that [TimeClip] changes nothing. *)
Module JSDateCtor.

(** The day number of a proleptic Gregorian date, [m] from 1 to 12. *)
Definition daysFromCivil (y m d : Z) : Z :=
  let y' := if m <=? 2 then y - 1 else y in
  let era := y' / 400 in
  let yoe := y' - era * 400 in
  let mp := if 2 <? m then m - 3 else m + 9 in
  let doy := (153 * mp + 2) / 5 + d - 1 in
  let doe := yoe * 365 + yoe / 4 - yoe / 100 + doy in
  era * 146097 + doe - 719468.

(** [MakeDay(year, month, date)]: [month] counts from 0 and carries into
    the year. *)
Definition MakeDay (year month date : Z) : Z :=
  let ym := year + month / 12 in
  let mn := month mod 12 in
  daysFromCivil ym (mn + 1) 1 + date - 1.

Definition MakeDate (day time : Z) : Z := day * JSDate.msPerDay + time.

(** [UTC(t)]: [tzaLocal t] is the offset of local time from UTC at the
    local time [t]. *)
Definition UTC (tzaLocal : Z -> Z) (t : Z) : Z := t - tzaLocal t.

(** [new Date(year, month, date)]: midnight of local time; a year from 0
    to 99 stands for 1900 + year. *)
Definition ofFields (tzaLocal : Z -> Z) (year month date : Z) : Z :=
  let yr := if (0 <=? year) && (year <=? 99) then 1900 + year else year in
  UTC tzaLocal (MakeDate (MakeDay yr month date) 0).

End JSDateCtor.

Example ofFields_samples :
  map (fun '(y, m) => JSDate.toISOString (JSDateCtor.ofFields (fun _ => 0) y m 1))
      [(2025, 8); (2025, 14); (2025, -4); (2024, 1); (1970, 0); (99, 0)]
  = ["2025-09-01T00:00:00.000Z"; "2026-03-01T00:00:00.000Z";
     "2024-09-01T00:00:00.000Z"; "2024-02-01T00:00:00.000Z";
     "1970-01-01T00:00:00.000Z"; "1999-01-01T00:00:00.000Z"].
Proof. vm_compute. reflexivity. Qed.

Lemma civil_daysFromCivil_first (y m : Z) :
  1 <= m <= 12 -> JSDate.civil (JSDateCtor.daysFromCivil y m 1) = (y, m, 1).
Proof.
  intros Hm. unfold JSDateCtor.daysFromCivil.
  set (y' := if m <=? 2 then y - 1 else y).
  set (era := y' / 400). set (yoe := y' - era * 400).
  assert (Hyoe : 0 <= yoe <= 399).
  { subst yoe era. pose proof (Z.div_mod y' 400 ltac:(lia)).
    pose proof (Z.mod_pos_bound y' 400 ltac:(lia)). lia. }
  set (mp := if 2 <? m then m - 3 else m + 9).
  assert (Hmp : 0 <= mp <= 11) by (subst mp; destruct (Z.ltb_spec 2 m); lia).
  set (doy := (153 * mp + 2) / 5 + 1 - 1).
  assert (Hdoy : 0 <= doy <= 337 /\ (5 * doy + 2) / 153 = mp
                 /\ doy - (153 * mp + 2) / 5 + 1 = 1).
  { subst doy. clearbody mp.
    assert (mp = 0 \/ mp = 1 \/ mp = 2 \/ mp = 3 \/ mp = 4 \/ mp = 5 \/ mp = 6
            \/ mp = 7 \/ mp = 8 \/ mp = 9 \/ mp = 10 \/ mp = 11) as H by lia.
    repeat (destruct H as [->|H]; [vm_compute; repeat split; congruence|]).
    subst; vm_compute; repeat split; congruence. }
  set (doe := yoe * 365 + yoe / 4 - yoe / 100 + doy).
  unfold JSDate.civil.
  replace (era * 146097 + doe - 719468 + 719468) with (doe + era * 146097) by lia.
  assert (Hdoe : 0 <= doe <= 146096).
  { subst doe. clearbody yoe doy. Z.to_euclidean_division_equations; lia. }
  rewrite Z.div_add by lia. rewrite (Z.div_small doe) by lia. rewrite Z.add_0_l.
  replace (doe + era * 146097 - era * 146097) with doe by lia.
  assert (Hy : (doe - doe / 1460 + doe / 36524 - doe / 146096) / 365 = yoe).
  { subst doe. clearbody yoe doy. destruct Hdoy as [Hd _]. clear Hdoe.
    Z.to_euclidean_division_equations; lia. }
  rewrite Hy.
  replace (doe - (365 * yoe + yoe / 4 - yoe / 100)) with doy by (subst doe; lia).
  destruct Hdoy as (_ & -> & ->).
  assert (Hmm : (if mp <? 10 then mp + 3 else mp - 9) = m).
  { subst mp. destruct (Z.ltb_spec 2 m); destruct (Z.ltb_spec (m - 3) 10);
      destruct (Z.ltb_spec (m + 9) 10); lia. }
  rewrite Hmm. f_equal. f_equal.
  subst yoe era y'. destruct (Z.leb_spec m 2); lia.
Qed.

(** One entry of the selector. *)
Module MonthOption.
Record t : Type := mk { key : string; label : string }.
End MonthOption.

Section MonthOptions.

(** The host: its offset from UTC at a UTC time and at a local time, its
    reading of a date text, and the label it prints for a date in its own
    language, [d.toLocaleString("default", { month: "short", year:
    "numeric" })] ([None] is an invalid date). *)
Variable LocalTZA : Z -> Z.
Variable tzaLocal : Z -> Z.
Variable Date_parse : string -> option Z.
Variable monthLabel : option Z -> string.

(** [for (let i = -6; i <= 2; i++)] *)
Definition monthOffsets : list Z := [-6; -5; -4; -3; -2; -1; 0; 1; 2].

(** [new Date(now.getFullYear(), now.getMonth() + i, 1)] *)
Definition firstOfMonth (now i : Z) : Z :=
  JSDateCtor.ofFields tzaLocal (JSDate.getFullYear LocalTZA now)
                      (JSDate.getMonth LocalTZA now + i) 1.

Definition windowOption (now i : Z) : MonthOption.t :=
  let d := firstOfMonth now i in
  MonthOption.mk (monthKeyFromDate LocalTZA d) (monthLabel (Some d)).

Definition buildMonthOptions (selectedMonth : string) (now : Z)
  : list MonthOption.t :=
  let opts := map (windowOption now) monthOffsets in
  if negb (existsb (fun o => bool_decide (MonthOption.key o = selectedMonth)) opts)
  then opts ++ [MonthOption.mk selectedMonth
                               (monthLabel (Date_parse (selectedMonth +:+ "-01")))]
  else opts.

Lemma buildMonthOptions_keys (selectedMonth : string) (now : Z) :
  let windowKeys := map (fun i => MonthOption.key (windowOption now i)) monthOffsets in
  (In selectedMonth windowKeys
   /\ map MonthOption.key (buildMonthOptions selectedMonth now) = windowKeys)
  \/ (~ In selectedMonth windowKeys
      /\ map MonthOption.key (buildMonthOptions selectedMonth now)
         = (windowKeys ++ [selectedMonth])%list).
Proof.
  cbv zeta. unfold buildMonthOptions.
  set (opts := map (windowOption now) monthOffsets).
  assert (Hkeys : map MonthOption.key opts
                  = map (fun i => MonthOption.key (windowOption now i)) monthOffsets)
    by (subst opts; apply map_map).
  rewrite <- Hkeys.
  destruct (existsb _ opts) eqn:E; cbn [negb].
  - left. apply existsb_exists in E as (o & Ho & Hk). apply bool_decide_eq_true in Hk.
    split; [|reflexivity]. rewrite <- Hk. apply in_map, Ho.
  - right. split; [|rewrite map_app; reflexivity].
    intros Hin. apply in_map_iff in Hin as (o & Hk & Ho).
    assert (existsb (fun o => bool_decide (MonthOption.key o = selectedMonth)) opts
            = true) as Ht
      by (apply existsb_exists; exists o; split; [exact Ho | by apply bool_decide_eq_true]).
    congruence.
Qed.

(** X.  The selected month is always among the options, whatever it is:
    the selector shows the nine months of the window, and the selected
    month as a tenth entry exactly when it is none of them. *)
Theorem buildMonthOptions_has_selected (selectedMonth : string) (now : Z) :
  let opts := buildMonthOptions selectedMonth now in
  let windowKeys := map (fun i => MonthOption.key (windowOption now i)) monthOffsets in
  In selectedMonth (map MonthOption.key opts)
  /\ length windowKeys = 9%nat
  /\ (if bool_decide (In selectedMonth windowKeys)
      then map MonthOption.key opts = windowKeys
      else map MonthOption.key opts = (windowKeys ++ [selectedMonth])%list).
Proof.
  cbv zeta.
  destruct (buildMonthOptions_keys selectedMonth now) as [[Hin Hk]|[Hnot Hk]];
    rewrite Hk.
  - split; [exact Hin|]. split; [reflexivity|].
    rewrite bool_decide_eq_true_2 by exact Hin. reflexivity.
  - split; [apply in_or_app; right; by left|]. split; [reflexivity|].
    rewrite bool_decide_eq_false_2 by exact Hnot. reflexivity.
Qed.

(** The host's two offsets agree: a local time, taken to UTC, is shown by
    the host as that local time again.  (This fails only for a local time
    that a change of the clocks skips.) *)
Definition offsetsAgree : Prop :=
  forall t, LocalTZA (t - tzaLocal t) = tzaLocal t.

(** The year the constructor uses. *)
Definition ctorYear (year : Z) : Z :=
  if (0 <=? year) && (year <=? 99) then 1900 + year else year.

Lemma firstOfMonth_fields (now i : Z) :
  offsetsAgree ->
  let y := ctorYear (JSDate.getFullYear LocalTZA now) in
  let m := JSDate.getMonth LocalTZA now in
  JSDate.getFullYear LocalTZA (firstOfMonth now i) = y + (m + i) / 12
  /\ JSDate.getMonth LocalTZA (firstOfMonth now i) = (m + i) mod 12.
Proof.
  intros Hagree. cbv zeta.
  unfold firstOfMonth, JSDateCtor.ofFields, JSDateCtor.UTC.
  fold (ctorYear (JSDate.getFullYear LocalTZA now)).
  set (y := ctorYear (JSDate.getFullYear LocalTZA now)).
  set (m := JSDate.getMonth LocalTZA now).
  set (tl := JSDateCtor.MakeDate (JSDateCtor.MakeDay y (m + i) 1) 0).
  unfold JSDate.getFullYear at 1, JSDate.getMonth at 1, JSDate.LocalTime.
  rewrite Hagree. replace (tl - tzaLocal tl + tzaLocal tl) with tl by lia.
  assert (Hday : JSDate.Day tl = JSDateCtor.daysFromCivil (y + (m + i) / 12)
                                                        ((m + i) mod 12 + 1) 1).
  { subst tl. unfold JSDate.Day, JSDateCtor.MakeDate, JSDateCtor.MakeDay.
    rewrite Z.add_0_r, Z.div_mul by discriminate. lia. }
  unfold JSDate.YearFromTime, JSDate.MonthFromTime. rewrite Hday.
  rewrite civil_daysFromCivil_first
    by (pose proof (Z.mod_pos_bound (m + i) 12 eq_refl); lia).
  cbn [fst snd]. split; lia.
Qed.

Lemma windowOption_key (now i : Z) :
  MonthOption.key (windowOption now i)
  = monthKeyFromDate LocalTZA (firstOfMonth now i).
Proof. reflexivity. Qed.

Lemma windowKeys_inj (now i j : Z) :
  offsetsAgree ->
  MonthOption.key (windowOption now i) = MonthOption.key (windowOption now j) ->
  i = j.
Proof.
  intros Hagree H. rewrite !windowOption_key in H.
  apply monthKey_parts in H as [Hy Hm].
  destruct (firstOfMonth_fields now i Hagree) as [Hyi Hmi].
  destruct (firstOfMonth_fields now j Hagree) as [Hyj Hmj].
  rewrite Hyi, Hyj in Hy. rewrite Hmi, Hmj in Hm.
  set (m := JSDate.getMonth LocalTZA now) in *.
  pose proof (Z.div_mod (m + i) 12 ltac:(lia)).
  pose proof (Z.div_mod (m + j) 12 ltac:(lia)). lia.
Qed.

(** X.  On a host whose offsets agree, the window of the selector is the
    nine months from six before to two after the current one: its seventh
    option is the current month (the year not being one of 0 to 99), and no
    two options of the selector carry the same key. *)
Theorem buildMonthOptions_window (selectedMonth : string) (now : Z) :
  offsetsAgree ->
  ~ (0 <= JSDate.getFullYear LocalTZA now <= 99) ->
  let opts := buildMonthOptions selectedMonth now in
  nth_error (map MonthOption.key opts) 6 = Some (monthKeyFromDate LocalTZA now)
  /\ List.NoDup (map MonthOption.key opts)
  /\ (forall i, In i monthOffsets ->
        JSDate.getFullYear LocalTZA (firstOfMonth now i) * 12
        + JSDate.getMonth LocalTZA (firstOfMonth now i)
        = JSDate.getFullYear LocalTZA now * 12 + JSDate.getMonth LocalTZA now + i).
Proof.
  intros Hagree Hyear. cbv zeta.
  assert (Hctor : ctorYear (JSDate.getFullYear LocalTZA now)
                  = JSDate.getFullYear LocalTZA now).
  { unfold ctorYear.
    destruct (Z.leb_spec 0 (JSDate.getFullYear LocalTZA now));
      destruct (Z.leb_spec (JSDate.getFullYear LocalTZA now) 99); cbn; lia. }
  pose proof (MonthFromTime_range (JSDate.LocalTime LocalTZA now)) as Hm.
  fold (JSDate.getMonth LocalTZA now) in Hm.
  assert (Hcur : monthKeyFromDate LocalTZA (firstOfMonth now 0)
                 = monthKeyFromDate LocalTZA now).
  { destruct (firstOfMonth_fields now 0 Hagree) as [Hy0 Hm0].
    rewrite Hctor, Z.add_0_r, Z.div_small, Z.add_0_r in Hy0 by lia.
    rewrite Z.add_0_r, Z.mod_small in Hm0 by lia.
    unfold monthKeyFromDate. rewrite Hy0, Hm0. reflexivity. }
  assert (Hwin : List.NoDup (map (fun i => MonthOption.key (windowOption now i))
                                 monthOffsets)).
  { apply List.NoDup_map_NoDup_ForallPairs.
    - intros i j _ _ H. exact (windowKeys_inj now i j Hagree H).
    - unfold monthOffsets.
      repeat (apply List.NoDup_cons; [cbn [In]; lia|]). apply List.NoDup_nil. }
  assert (Hseventh : nth_error (map (fun i => MonthOption.key (windowOption now i))
                                    monthOffsets) 6
                     = Some (monthKeyFromDate LocalTZA now)).
  { rewrite nth_error_map.
    change (nth_error monthOffsets 6) with (Some 0).
    unfold option_map. rewrite windowOption_key. f_equal. exact Hcur. }
  destruct (buildMonthOptions_keys selectedMonth now) as [[_ Hk]|[Hnot Hk]];
    rewrite Hk.
  - split; [exact Hseventh|]. split; [exact Hwin|].
    intros i _. destruct (firstOfMonth_fields now i Hagree) as [-> ->].
    rewrite Hctor. pose proof (Z.div_mod (JSDate.getMonth LocalTZA now + i) 12 ltac:(lia)).
    lia.
  - split; [rewrite nth_error_app1 by (rewrite length_map; cbn; lia); exact Hseventh|].
    split.
    + apply List.NoDup_app; [exact Hwin | |].
      * apply List.NoDup_cons; [intros [] | apply List.NoDup_nil].
      * intros k Hin [<-|[]]. exact (Hnot Hin).
    + intros i _. destruct (firstOfMonth_fields now i Hagree) as [-> ->].
      rewrite Hctor. pose proof (Z.div_mod (JSDate.getMonth LocalTZA now + i) 12 ltac:(lia)).
      lia.
Qed.

End MonthOptions.

(* ===================================================================== *)
(** ** The further properties with a premise, at concrete sessions *)
(* ===================================================================== *)

(** A host's reading of the 24 characters [toISOString] writes for the
    years 0 to 9999, for the sessions below; it rejects every other text. *)
Definition isoDateParse (s : string) : option Z :=
  if negb ((String.length s =? 24)%nat
           && String.eqb (String.substring 4 1 s) "-"
           && String.eqb (String.substring 7 1 s) "-"
           && String.eqb (String.substring 10 1 s) "T"
           && String.eqb (String.substring 13 1 s) ":"
           && String.eqb (String.substring 16 1 s) ":"
           && String.eqb (String.substring 19 1 s) "."
           && String.eqb (String.substring 23 1 s) "Z")
  then None
  else
    y ← digitsOf (String.substring 0 4 s);
    mo ← digitsOf (String.substring 5 2 s);
    d ← digitsOf (String.substring 8 2 s);
    h ← digitsOf (String.substring 11 2 s);
    mi ← digitsOf (String.substring 14 2 s);
    se ← digitsOf (String.substring 17 2 s);
    ms ← digitsOf (String.substring 20 3 s);
    let day := JSDateCtor.daysFromCivil y mo d in
    if bool_decide (JSDate.civil day = (y, mo, d))
       && (h <=? 23) && (mi <=? 59) && (se <=? 59)
    then Some (JSDateCtor.MakeDate day (h * 3600000 + mi * 60000 + se * 1000 + ms))
    else None.

Example isoDateParse_samples :
  map isoDateParse
      ["2025-08-31T22:30:00.000Z"; "2000-02-29T12:00:00.123Z";
       "1969-12-31T23:59:59.999Z"; "2025-02-30T00:00:00.000Z"; "2025-08"; ""]
  = [Some 1756679400000; Some 951825600123; Some (-1); None; None; None].
Proof. vm_compute. reflexivity. Qed.

(** A host that prints no more than the time value as a label. *)
Definition plainLabel (d : option Z) : string :=
  match d with
  | Some t => JSDate.toISOString t
  | None => "Invalid Date"
  end.

(** A ledger of two expenses of August 2025, the newer one first. *)
Definition augustLedger : Ledger :=
  [Expense.mk "1755684000000-b7q2mz" (VNum 30) "books" "" "2025-08-20T10:00:00.000Z";
   Expense.mk "1755252000000-k3x9ab" (VNum 12.5) "taxi" "" "2025-08-15T10:00:00.000Z"].

(** A session in September with an empty ledger and an expense typed into
    the form. *)
Definition septemberWorld : World :=
  mkWorld {[ STORAGE_KEY := "[]" ]} true
          (State.mk [] "10" "taxi" "" "2025-09" false) false [].

(** [ledger_set_only_by] at a month selection. *)
Lemma ledger_set_only_by_witness :
  expensesChanged septemberWorld = false
  /\ State.expenses
       (cells (step utcPlus3 parseEmpty stringifyEmpty (SelectMonth "2025-08")
                    septemberWorld))
     = State.expenses (cells septemberWorld).
Proof.
  split; [reflexivity|].
  exact (proj1 (ledger_set_only_by utcPlus3 parseEmpty stringifyEmpty
                                   (SelectMonth "2025-08") septemberWorld eq_refl)).
Defined.

(** A host whose [JSON] handles ledgers: [JSON.stringify] as the
    platform prints an array of expenses, and a [JSON.parse] that reads
    back the texts of the ledgers of the sessions below. *)
Definition backslash : string := String (ascii_of_nat 92) EmptyString.

Definition lowerHex (n : N) : ascii :=
  ascii_of_N (if (n <? 10)%N then 48 + n else 87 + n)%N.

(** QuoteJSONString, on the UTF-8 bytes of the text. *)
Fixpoint escapeJSON (s : string) : string :=
  match s with
  | EmptyString => EmptyString
  | String c r =>
      let n := N_of_ascii c in
      (if (n =? 34)%N then backslash +:+ dquote
       else if (n =? 92)%N then backslash +:+ backslash
       else if (n =? 8)%N then backslash +:+ "b"
       else if (n =? 9)%N then backslash +:+ "t"
       else if (n =? 10)%N then backslash +:+ "n"
       else if (n =? 12)%N then backslash +:+ "f"
       else if (n =? 13)%N then backslash +:+ "r"
       else if (n <? 32)%N
       then backslash +:+ "u00"
            +:+ String (lowerHex (n / 16)) (String (lowerHex (n mod 16)) "")
       else String c "")
      +:+ escapeJSON r
  end.

Definition quoteJSON (s : string) : string := dquote +:+ escapeJSON s +:+ dquote.

(** The text of a field; a field that is [undefined] is left out. *)
Definition stringifyValue (v : JSVal) : option string :=
  match v with
  | VUndefined => None
  | VNull => Some "null"
  | VBool b => Some (if b then "true" else "false")
  | VNum x => Some (if JSNumber.isFinite x then JSNumber.toString x else "null")
  | VStr t => Some (quoteJSON t)
  end.

Definition member (key text : string) : string := quoteJSON key +:+ ":" +:+ text.

Definition stringifyExpense (e : Expense.t) : string :=
  "{"
  +:+ String.concat ","
        ([member "id" (quoteJSON (Expense.id e))]
         ++ match stringifyValue (Expense.amount e) with
            | Some text => [member "amount" text]
            | None => []
            end
         ++ [member "reason" (quoteJSON (Expense.reason e));
             member "notes" (quoteJSON (Expense.notes e));
             member "dateISO" (quoteJSON (Expense.dateISO e))])%list
  +:+ "}".

Definition stringifyLedger (L : Ledger) : string :=
  "[" +:+ String.concat "," (map stringifyExpense L) +:+ "]".

(** The August ledger with a taxi ride of mid September in front. *)
Definition septemberLedger : Ledger :=
  Expense.mk "1757930400000-k3x9ab" (VNum 10) "taxi" "" "2025-09-15T10:00:00.000Z"
  :: augustLedger.

Definition sampleLedgers : list Ledger := [[]; augustLedger; septemberLedger].

Definition parseSample (text : string) : Outcome Ledger :=
  match List.find (fun L => String.eqb (stringifyLedger L) text) sampleLedgers with
  | Some L => Ret L
  | None => Throw SyntaxError
  end.

Example stringifyLedger_sample :
  stringifyLedger [Expense.mk "1755252000000-k3x9ab" (VNum 12.5) "taxi" "" "2025-08-15"]
  = "[{" +:+ dquote +:+ "id" +:+ dquote +:+ ":" +:+ dquote +:+ "1755252000000-k3x9ab"
    +:+ dquote +:+ "," +:+ dquote +:+ "amount" +:+ dquote +:+ ":12.5,"
    +:+ dquote +:+ "reason" +:+ dquote +:+ ":" +:+ dquote +:+ "taxi" +:+ dquote +:+ ","
    +:+ dquote +:+ "notes" +:+ dquote +:+ ":" +:+ dquote +:+ dquote +:+ ","
    +:+ dquote +:+ "dateISO" +:+ dquote +:+ ":" +:+ dquote +:+ "2025-08-15" +:+ dquote
    +:+ "}]".
Proof. vm_compute. reflexivity. Qed.

(** The store a session of August left behind. *)
Definition afterAugustWorld : World :=
  mkWorld {[ STORAGE_KEY := stringifyLedger augustLedger ]} true
          (State.mk [] "" "" "" "" false) false [].

(** [restart_restores_ledger] at a session of mid September that loads
    the two expenses of August and adds a third, and a session two weeks
    later. *)
Lemma restart_restores_ledger_witness :
  (stringifyLedger septemberLedger <> ""
   /\ parseSample (stringifyLedger septemberLedger) = Ret septemberLedger)
  /\ State.expenses
       (cells (step utcPlus3 parseSample stringifyLedger (SessionStart lateSeptember)
                 (run utcPlus3 parseSample stringifyLedger
                      [SessionStart midSeptember; ChangeAmount "10";
                       ChangeReason "taxi"; SubmitExpense midSeptember "k3x9ab"]
                      afterAugustWorld)))
     = septemberLedger.
Proof.
  split; [split; [vm_compute; discriminate | vm_compute; reflexivity]|].
  refine (eq_trans
            (restart_restores_ledger utcPlus3 parseSample stringifyLedger midSeptember
               lateSeptember
               [ChangeAmount "10"; ChangeReason "taxi"; SubmitExpense midSeptember "k3x9ab"]
               afterAugustWorld _ _) _).
  - vm_compute. discriminate.
  - vm_compute. reflexivity.
  - vm_compute. reflexivity.
Defined.

(** A store whose ledger text is not JSON. *)
Definition brokenWorld : World :=
  mkWorld {[ STORAGE_KEY := "{oops" ]} true
          (State.mk [] "" "" "" "2025-09" false) false [].

(** [session_start_overwrites_unparsable] at that store. *)
Lemma session_start_overwrites_unparsable_witness :
  (storage brokenWorld !! STORAGE_KEY = Some "{oops" /\ "{oops" <> ""
   /\ parseEmpty "{oops" = Throw SyntaxError)
  /\ storage (step utcPlus3 parseEmpty stringifyEmpty (SessionStart midSeptember)
                   brokenWorld) !! STORAGE_KEY
     = Some "[]".
Proof.
  assert (H1 : storage brokenWorld !! STORAGE_KEY = Some "{oops")
    by (vm_compute; reflexivity).
  assert (H2 : "{oops" <> "") by discriminate.
  assert (H3 : parseEmpty "{oops" = Throw SyntaxError) by reflexivity.
  split; [auto|].
  exact (proj1 (proj2 (session_start_overwrites_unparsable utcPlus3 parseEmpty
                         stringifyEmpty midSeptember brokenWorld "{oops" SyntaxError
                         H1 H2 H3))).
Defined.

(** The August ledger, saved, and an expense typed into the form. *)
Definition augustDraftWorld : World :=
  mkWorld {[ STORAGE_KEY := stringifyLedger augustLedger ]} true
          (State.mk augustLedger "10" "taxi" "" "2025-09" false) false [].

(** [add_then_delete] at the expense typed into the form, added to the
    two expenses of August and deleted again. *)
Lemma add_then_delete_witness :
  (rejected (cells augustDraftWorld) = false
   /\ storage augustDraftWorld !! STORAGE_KEY
      = Some (stringifyLedger (State.expenses (cells augustDraftWorld)))
   /\ Forall (fun e => Expense.id e <> JSString.ofInteger midSeptember +:+ "-" +:+ "k3x9ab")
             augustLedger)
  /\ State.expenses
       (cells (step utcPlus3 parseSample stringifyLedger
                    (ClickDelete (JSString.ofInteger midSeptember +:+ "-" +:+ "k3x9ab") true)
                    (step utcPlus3 parseSample stringifyLedger
                          (SubmitExpense midSeptember "k3x9ab") augustDraftWorld)))
     = augustLedger
  /\ State.expenses
       (cells (step utcPlus3 parseSample stringifyLedger
                    (SubmitExpense midSeptember "k3x9ab") augustDraftWorld))
     = septemberLedger.
Proof.
  assert (H1 : rejected (cells augustDraftWorld) = false) by (vm_compute; reflexivity).
  assert (H2 : storage augustDraftWorld !! STORAGE_KEY
               = Some (stringifyLedger (State.expenses (cells augustDraftWorld))))
    by (vm_compute; reflexivity).
  assert (H3 : Forall (fun e => Expense.id e
                                <> JSString.ofInteger midSeptember +:+ "-" +:+ "k3x9ab")
                      augustLedger)
    by (repeat constructor; vm_compute; discriminate).
  split; [auto|].
  split; [|vm_compute; reflexivity].
  refine (proj1 (proj2 (add_then_delete utcPlus3 parseSample stringifyLedger
                          midSeptember "k3x9ab" augustDraftWorld H1 H2 _))).
  apply List.Forall_forall. exact H3.
Defined.

(** [reminder_prompt_cannot_cancel] with the reminder of August showing. *)
Lemma reminder_prompt_cannot_cancel_witness :
  State.showMonthlyReminder (cells augustWorld) = true
  /\ step utcPlus3 parseEmpty stringifyEmpty
          (ClickSendReminder None midSeptember true) augustWorld
     = step utcPlus3 parseEmpty stringifyEmpty
            (ClickSendSelected midSeptember true) augustWorld.
Proof.
  split; [reflexivity|].
  exact (proj1 (reminder_prompt_cannot_cancel utcPlus3 parseEmpty stringifyEmpty
                  midSeptember true augustWorld eq_refl)).
Defined.

(** [session_keeps_entries_valid] at an expense added to the August
    ledger and a deletion. *)
Lemma session_keeps_entries_valid_witness :
  Forall validEntry augustLedger
  /\ Forall validEntry
       (State.expenses
          (cells (run utcPlus3 parseEmpty stringifyEmpty
                      [SubmitExpense midSeptember "k3x9ab";
                       ClickDelete "1755252000000-k3x9ab" true]
                      (mkWorld ∅ true (State.mk augustLedger "10" "taxi" "" "2025-09" false)
                               false [])))).
Proof.
  assert (Hv : Forall validEntry augustLedger).
  { repeat constructor; try (eexists; split; [reflexivity | vm_compute; reflexivity]);
      discriminate. }
  split; [exact Hv|].
  apply (session_keeps_entries_valid utcPlus3 parseEmpty stringifyEmpty);
    [reflexivity | reflexivity | exact Hv].
Defined.

(** [monthKeyFromDate_format] in September 2025. *)
Lemma monthKeyFromDate_format_witness :
  1000 <= JSDate.getFullYear utcPlus3 midSeptember <= 9999
  /\ String.length (monthKeyFromDate utcPlus3 midSeptember) = 7%nat.
Proof.
  assert (H : 1000 <= JSDate.getFullYear utcPlus3 midSeptember <= 9999)
    by (vm_compute; split; discriminate).
  split; [exact H|].
  destruct (monthKeyFromDate_format utcPlus3 midSeptember H) as (mon & _ & _ & _ & _ & Hl).
  exact Hl.
Defined.

(** [expensesForMonth_disjoint] at August and September on the August
    ledger. *)
Lemma expensesForMonth_disjoint_witness :
  (String.length "2025-08" = String.length "2025-09" /\ "2025-08" <> "2025-09")
  /\ expensesForMonth (expensesForMonth augustLedger "2025-08") "2025-09" = [].
Proof.
  split; [split; [reflexivity | discriminate]|].
  apply (expensesForMonth_disjoint augustLedger "2025-08" "2025-09");
    [reflexivity | discriminate].
Defined.

(** [totalForMonth_other_months]: a September expense, and the deletion
    of an id the ledger does not hold, against the total of August. *)
Lemma totalForMonth_other_months_witness :
  (rejected (State.mk augustLedger "10" "taxi" "" "2025-09" false) = false
   /\ JSString.startsWith (JSDate.toISOString midSeptember) "2025-08" = false)
  /\ totalForMonth
       (State.expenses
          (cells (fst (addExpense utcPlus3
                         (State.mk augustLedger "10" "taxi" "" "2025-09" false)
                         midSeptember "k3x9ab" freshWorld))))
       "2025-08"
     = totalForMonth augustLedger "2025-08".
Proof.
  assert (H1 : rejected (State.mk augustLedger "10" "taxi" "" "2025-09" false) = false)
    by (vm_compute; reflexivity).
  assert (H2 : JSString.startsWith (JSDate.toISOString midSeptember) "2025-08" = false)
    by (vm_compute; reflexivity).
  split; [auto|].
  refine (proj1 (totalForMonth_other_months utcPlus3
                   (State.mk augustLedger "10" "taxi" "" "2025-09" false)
                   "2025-08" freshWorld midSeptember "k3x9ab" "no-such-id" H1 H2 _)).
  intros e He Hid. exfalso. cbn in He.
  destruct He as [<-|[<-|[]]]; discriminate.
Defined.

(** [add_then_total] at the first expense of September. *)
Lemma add_then_total_witness :
  (rejected (cells septemberWorld) = false
   /\ JSString.startsWith (JSDate.toISOString midSeptember) "2025-09" = true)
  /\ totalForMonth
       (State.expenses
          (cells (fst (addExpense utcPlus3 (cells septemberWorld) midSeptember
                                  "k3x9ab" septemberWorld))))
       "2025-09"
     = 10%float.
Proof.
  assert (H1 : rejected (cells septemberWorld) = false) by (vm_compute; reflexivity).
  assert (H2 : JSString.startsWith (JSDate.toISOString midSeptember) "2025-09" = true)
    by (vm_compute; reflexivity).
  split; [auto|].
  rewrite (proj2 (add_then_total utcPlus3 (cells septemberWorld) midSeptember "k3x9ab"
                    septemberWorld "2025-09" H1 H2) eq_refl).
  vm_compute. reflexivity.
Defined.

(** [added_expense_is_listed] in mid September, three hours ahead of UTC. *)
Lemma added_expense_is_listed_witness :
  (rejected (cells septemberWorld) = false
   /\ 1000 <= JSDate.YearFromTime midSeptember <= 9999
   /\ JSDate.getFullYear utcPlus3 midSeptember = JSDate.YearFromTime midSeptember
   /\ JSDate.getMonth utcPlus3 midSeptember = JSDate.MonthFromTime midSeptember)
  /\ expensesForMonth
       (State.expenses
          (cells (fst (addExpense utcPlus3 (cells septemberWorld) midSeptember
                                  "k3x9ab" septemberWorld))))
       (State.selectedMonth
          (cells (fst (addExpense utcPlus3 (cells septemberWorld) midSeptember
                                  "k3x9ab" septemberWorld))))
     = [newItem (cells septemberWorld) midSeptember "k3x9ab"].
Proof.
  assert (H1 : rejected (cells septemberWorld) = false) by (vm_compute; reflexivity).
  assert (H2 : 1000 <= JSDate.YearFromTime midSeptember <= 9999)
    by (vm_compute; split; discriminate).
  assert (H3 : JSDate.getFullYear utcPlus3 midSeptember = JSDate.YearFromTime midSeptember)
    by (vm_compute; reflexivity).
  assert (H4 : JSDate.getMonth utcPlus3 midSeptember = JSDate.MonthFromTime midSeptember)
    by (vm_compute; reflexivity).
  split; [auto|].
  exact (added_expense_is_listed utcPlus3 (cells septemberWorld) midSeptember "k3x9ab"
           septemberWorld H1 H2 H3 H4).
Defined.

(** [humanMonth_other_forms] at a bare year and at a full date. *)
Lemma humanMonth_other_forms_witness :
  (noChar "-" "2025" = true /\ noChar "-" "08" = true)
  /\ humanMonth "2025" = "undefined/2025"
  /\ humanMonth "2025-08-15" = "08/2025".
Proof.
  split; [split; reflexivity|].
  exact (humanMonth_other_forms "2025" "08" "15" eq_refl eq_refl).
Defined.

(** [groupedExpensesForMonth_sorted] at the August ledger turned round. *)
Lemma groupedExpensesForMonth_sorted_witness :
  Forall (fun e => timeOf isoDateParse e <> None) (rev augustLedger)
  /\ StronglySorted (notOlder isoDateParse)
       (groupedExpensesForMonth isoDateParse (rev augustLedger) "2025-08").
Proof.
  assert (H : forall e, In e (rev augustLedger) -> timeOf isoDateParse e <> None).
  { intros e He. cbn in He. destruct He as [<-|[<-|[]]]; vm_compute; discriminate. }
  split; [apply List.Forall_forall; exact H|].
  apply (groupedExpensesForMonth_sorted isoDateParse (rev augustLedger) "2025-08").
  intros e He. apply H. apply expensesForMonth_In in He. tauto.
Defined.

(** [ledger_stays_newest_first] at an expense added in September to the
    August ledger. *)
Lemma ledger_stays_newest_first_witness :
  (isoDateParse (JSDate.toISOString midSeptember) = Some midSeptember
   /\ StronglySorted (notOlder isoDateParse) augustLedger)
  /\ groupedExpensesForMonth isoDateParse
       (State.expenses
          (cells (fst (addExpense utcPlus3
                         (State.mk augustLedger "10" "taxi" "" "2025-09" false)
                         midSeptember "k3x9ab" freshWorld))))
       "2025"
     = expensesForMonth
         (State.expenses
            (cells (fst (addExpense utcPlus3
                           (State.mk augustLedger "10" "taxi" "" "2025-09" false)
                           midSeptember "k3x9ab" freshWorld))))
         "2025".
Proof.
  assert (H1 : isoDateParse (JSDate.toISOString midSeptember) = Some midSeptember)
    by (vm_compute; reflexivity).
  assert (H2 : StronglySorted (notOlder isoDateParse) augustLedger).
  { repeat constructor.
    exists 1755684000000, 1755252000000.
    split; [vm_compute; reflexivity|]. split; [vm_compute; reflexivity | lia]. }
  split; [auto|].
  refine (proj1 (proj2 (ledger_stays_newest_first utcPlus3 isoDateParse
            (State.mk augustLedger "10" "taxi" "" "2025-09" false)
            midSeptember "k3x9ab" "no-such-id" "2025" freshWorld
            ltac:(vm_compute; reflexivity) H1 H2 _))).
  intros e He. cbn in He. destruct He as [<-|[<-|[]]].
  - exists 1755684000000. split; [vm_compute; reflexivity | unfold midSeptember; lia].
  - exists 1755252000000. split; [vm_compute; reflexivity | unfold midSeptember; lia].
Defined.

(** [buildMonthOptions_window] in mid September 2025, three hours ahead of
    UTC all year. *)
Lemma buildMonthOptions_window_witness :
  (offsetsAgree utcPlus3 utcPlus3
   /\ ~ (0 <= JSDate.getFullYear utcPlus3 midSeptember <= 99))
  /\ nth_error
       (map MonthOption.key
            (buildMonthOptions utcPlus3 utcPlus3 isoDateParse plainLabel
                               "2024-01" midSeptember)) 6
     = Some (monthKeyFromDate utcPlus3 midSeptember).
Proof.
  assert (H1 : offsetsAgree utcPlus3 utcPlus3) by (intros t; reflexivity).
  assert (H2 : ~ (0 <= JSDate.getFullYear utcPlus3 midSeptember <= 99))
    by (vm_compute; intros [_ H]; apply H; reflexivity).
  split; [auto|].
  exact (proj1 (buildMonthOptions_window utcPlus3 utcPlus3 isoDateParse plainLabel
                  "2024-01" midSeptember H1 H2)).
Defined.

Example buildMonthOptions_sample :
  map MonthOption.key
      (buildMonthOptions utcPlus3 utcPlus3 isoDateParse plainLabel "2024-01" midSeptember)
  = ["2025-03"; "2025-04"; "2025-05"; "2025-06"; "2025-07"; "2025-08"; "2025-09";
     "2025-10"; "2025-11"; "2024-01"].
Proof. vm_compute. reflexivity. Qed.
